(** * PDF accessibility analyzer: a shallow embedding and its properties

    The development follows [src/pdf_accessibility_analyzer/main.py]
    (class [EnhancedPDFAccessibilityAnalyzer]).

    Modelling conventions.
    - A Python [str] is a list of Unicode code points ([list N]); the
      literals of the source are written as UTF-8 and decoded by [py].
    - A Python [float] that only takes part in comparisons, sums and
      decimal formatting (font sizes, coordinates, raw colour components)
      is a rational [Q]: every finite float is one, and comparing is exact.
    - Luminance and contrast need the power [x ** 2.4], so they live in
      [R]; rounding, infinities and NaN are not modelled.
    - Dictionaries are stdpp [gmap]s, sets are [gset]s.
    - Functions of the Python library that depend on the Unicode tables
      ([str.lower], the class [\w] of [re]) are Section variables. *)

From Stdlib Require Import ZArith QArith Qround Qabs Qminmax Reals Psatz Lia.
From Stdlib Require Import Strings.String Strings.Ascii DecimalString.
From stdpp Require Import gmap list sorting.

Local Open Scope nat_scope.

(** ** Python strings *)

Module PyStr.

Definition char := N.
Abbreviation str := (list N).

(** UTF-8 decoding of a literal: [need] continuation bytes are still
    expected for the code point accumulated in [acc]. *)
Fixpoint utf8_decode (bs : list N) (need : nat) (acc : N) : str :=
  match bs with
  | [] => []
  | b :: rest =>
    match need with
    | O =>
      if (b <? 128)%N then b :: utf8_decode rest 0 0%N
      else if (b <? 224)%N then utf8_decode rest 1 (b - 192)%N
      else if (b <? 240)%N then utf8_decode rest 2 (b - 224)%N
      else utf8_decode rest 3 (b - 240)%N
    | S n =>
      let acc' := (acc * 64 + (b - 128))%N in
      match n with
      | O => acc' :: utf8_decode rest 0 0%N
      | S _ => utf8_decode rest n acc'
      end
    end
  end.

Definition py (s : string) : str :=
  utf8_decode (List.map (fun a => N_of_ascii a) (list_ascii_of_string s)) 0 0%N.

(** [sub in s] *)
Fixpoint starts_with (sub s : str) : bool :=
  match sub, s with
  | [], _ => true
  | _ :: _, [] => false
  | a :: sub', b :: s' => (a =? b)%N && starts_with sub' s'
  end.

Fixpoint contains (sub s : str) : bool :=
  starts_with sub s ||
  match s with
  | [] => false
  | _ :: s' => contains sub s'
  end.

(** [str.isspace] on one code point (CPython's [_PyUnicode_IsWhitespace]). *)
Definition is_space (c : char) : bool :=
  ((9 <=? c) && (c <=? 13) || (28 <=? c) && (c <=? 32) || (c =? 133)
   || (c =? 160) || (c =? 5760) || (8192 <=? c) && (c <=? 8202)
   || (c =? 8232) || (c =? 8233) || (c =? 8239) || (c =? 8287)
   || (c =? 12288))%N.

(** [s.isspace()]: non-empty and made of white space only. *)
Definition isspace (s : str) : bool :=
  match s with
  | [] => false
  | _ => forallb is_space s
  end.

Fixpoint lstrip (s : str) : str :=
  match s with
  | [] => []
  | c :: s' => if is_space c then lstrip s' else s
  end.

(** [s.rstrip(chars)] for a predicate on the stripped characters. *)
Fixpoint rstrip_by (p : char -> bool) (s : str) : str :=
  match s with
  | [] => []
  | c :: s' =>
    match rstrip_by p s' with
    | [] => if p c then [] else [c]
    | t => c :: t
    end
  end.

(** [s.strip()] *)
Definition strip (s : str) : str := rstrip_by is_space (lstrip s).

(** [' '.join(s.split())]: the white-space separated words, joined by one
    space. [pending] tells that a word was already output and a white-space
    run was crossed since. *)
Fixpoint join_split_from (started pending : bool) (s : str) : str :=
  match s with
  | [] => []
  | c :: s' =>
    if is_space c then join_split_from started started s'
    else (if pending then [32%N] else []) ++ c :: join_split_from true false s'
  end.

Definition join_split (s : str) : str := join_split_from false false s.

(** [s.split(sep)[-1]] for a one-character separator: what follows the
    last [sep] (all of [s] when there is none). *)
Fixpoint after_last (sep : char) (s : str) : str :=
  match s with
  | [] => []
  | c :: s' =>
    if contains [sep] s' then after_last sep s'
    else if (c =? sep)%N then s' else s
  end.

(** [s.replace(old, '')] for a non-empty [old]: the occurrences found from
    the left, none overlapping, are removed. [skip] characters of [s]
    still belong to the occurrence being removed. *)
Fixpoint remove_from (old : str) (skip : nat) (s : str) : str :=
  match s with
  | [] => []
  | c :: s' =>
    match skip with
    | S n => remove_from old n s'
    | O =>
      if starts_with old s then remove_from old (length old - 1) s'
      else c :: remove_from old 0 s'
    end
  end.

Definition remove_all (old s : str) : str := remove_from old 0 s.

(** [s.rfind(c)] for one character, [-1] when absent. *)
Fixpoint rfind_from (c : char) (i : Z) (s : str) : Z :=
  match s with
  | [] => (-1)%Z
  | d :: s' =>
    let r := rfind_from c (i + 1)%Z s' in
    if (r =? -1)%Z then (if (d =? c)%N then i else (-1)%Z) else r
  end.

Definition rfind (c : char) (s : str) : Z := rfind_from c 0%Z s.

(** [str(n)] for a non-negative integer. *)
Definition str_of_N (n : N) : str :=
  match n with
  | 0%N => py "0"
  | _ => py (NilEmpty.string_of_uint (N.to_uint n))
  end.

End PyStr.

Import PyStr.

(** ** Python floats as rationals: rounding and formatting *)

Module PyNum.

(** Nearest integer, ties to the even one (Python's [round] and the
    rounding of [format]). *)
Definition round_half_even (q : Q) : Z :=
  let f := Qfloor q in
  let d := (q - inject_Z f)%Q in
  match (d ?= 1 # 2)%Q with
  | Lt => f
  | Gt => (f + 1)%Z
  | Eq => if Z.even f then f else (f + 1)%Z
  end.

(** [round(y, 2)], kept as the number of hundredths. *)
Definition round2 (y : Q) : Z := round_half_even (y * 100)%Q.

(** The digits of [f"{v:.1f}"] from the sign of [v] and the rounded
    number of tenths of its absolute value. *)
Definition format_tenths (negative : bool) (t : Z) : str :=
  (if negative then py "-" else []) ++
  str_of_N (Z.to_N (t / 10)) ++ py "." ++ str_of_N (Z.to_N (t mod 10)).

(** [f"{q:.1f}"] *)
Definition format_1f (q : Q) : str :=
  format_tenths (if Qlt_le_dec q 0 then true else false)
                (Z.abs (round_half_even (q * 10)%Q)).

(** The same for a real value (the measured contrast). *)
Definition round_half_even_R (x : R) : Z :=
  let f := Int_part x in
  let d := (x - IZR f)%R in
  if Rlt_dec d (1 / 2) then f
  else if Rlt_dec (1 / 2) d then (f + 1)%Z
  else if Z.even f then f else (f + 1)%Z.

Definition format_1f_R (x : R) : str :=
  format_tenths (if Rlt_dec x 0 then true else false)
                (Z.abs (round_half_even_R (x * 10)%R)).

End PyNum.

Import PyNum.

(** ** Text normalizer *)

Section Dedup.

Context {A : Type} `{EqDecision A}.

(** The loop of [remove_duplicate_chars]: [skip_run c rest] is the scan
    of [rest] once [c] was appended; the characters equal to [c] that
    follow it are passed over. *)
Fixpoint skip_run (c : A) (rest : list A) : list A :=
  match rest with
  | [] => []
  | d :: rest' =>
    if decide (d = c) then skip_run c rest' else d :: skip_run d rest'
  end.

Definition collapse_runs (text : list A) : list A :=
  match text with
  | [] => []
  | c :: rest => c :: skip_run c rest
  end.

Definition remove_duplicate_chars (text : list A) : list A :=
  if length text <? 2 then text
  else
    let cleaned := collapse_runs text in
    if Nat.even (length cleaned) then
      let half := length cleaned / 2 in
      let first_half := take half cleaned in
      let second_half := drop half cleaned in
      if decide (first_half = second_half) then first_half else cleaned
    else cleaned.

(** A string of at least two characters made of two equal halves: the
    shape the second stage of [remove_duplicate_chars] cuts in two. *)
Definition doubled (l : list A) : Prop :=
  2 <= length l /\ Nat.even (length l) = true /\
  take (length l / 2) l = drop (length l / 2) l.

(** No two neighbours are equal. *)
Fixpoint no_repeat_from (c : A) (l : list A) : Prop :=
  match l with
  | [] => True
  | d :: l' => d <> c /\ no_repeat_from d l'
  end.

Definition no_repeat (l : list A) : Prop :=
  match l with
  | [] => True
  | c :: l' => no_repeat_from c l'
  end.

End Dedup.

(** ** Colour model *)

(** A component of a colour sequence: a number, or a value on which
    [float()] and arithmetic raise. *)
Inductive component : Type :=
| Num (q : Q)
| NotNum.

(** The value of [non_stroking_color] as the page source hands it over. *)
Inductive raw_color : Type :=
| Scalar (v : Q)                              (* an [int] or a [float] *)
| Seq (is_list : bool) (l : list component)   (* a [tuple] or a [list] *)
| Absent                                      (* [None] *)
| Unrecognized.                               (* any other object *)

Abbreviation rgb := (Q * Q * Q)%type.

Definition black : rgb := (0, 0, 0)%Q.

(** Every exception is caught and ends, like the shapes that match no
    branch, on the final [return (0.0, 0.0, 0.0)]. *)
Definition normalize_color (color : raw_color) : rgb :=
  match color with
  | Scalar v => (v, v, v)
  | Seq _ [Num g] => (g, g, g)
  | Seq _ [Num r; Num g; Num b] => (r, g, b)
  | Seq _ [Num c; Num m; Num y; Num k] =>
    let r := ((1 - c) * (1 - k))%Q in
    let g := ((1 - m) * (1 - k))%Q in
    let b := ((1 - y) * (1 - k))%Q in
    (r, g, b)
  | Absent => black
  | _ => black
  end.

Definition in_unit (q : Q) : Prop := (0 <= q /\ q <= 1)%Q.

Definition rgb_in_unit (c : rgb) : Prop :=
  let '(r, g, b) := c in in_unit r /\ in_unit g /\ in_unit b.

Definition component_in_unit (x : component) : Prop :=
  match x with
  | Num q => in_unit q
  | NotNum => True
  end.

(** The numbers a raw colour carries all lie in [0, 1]. *)
Definition raw_in_unit (color : raw_color) : Prop :=
  match color with
  | Scalar v => in_unit v
  | Seq _ l => Forall component_in_unit l
  | Absent | Unrecognized => True
  end.

Local Open Scope R_scope.

Abbreviation rgbR := (R * R * R)%type.

Definition rgb_to_R (c : rgb) : rgbR :=
  let '(r, g, b) := c in (Q2R r, Q2R g, Q2R b).

Definition srgb_to_linear (channel : R) : R :=
  if Rle_dec channel 0.03928 then channel / 12.92
  else Rpower ((channel + 0.055) / 1.055) 2.4.

Definition calculate_luminance (color : rgbR) : R :=
  let '(r, g, b) := color in
  let r_linear := srgb_to_linear r in
  let g_linear := srgb_to_linear g in
  let b_linear := srgb_to_linear b in
  0.2126 * r_linear + 0.7152 * g_linear + 0.0722 * b_linear.

(** The division raises when [darker + 0.05] is zero; the handler then
    returns [1.0]. *)
Definition calculate_contrast_ratio (color1 color2 : rgbR) : R :=
  let l1 := calculate_luminance color1 in
  let l2 := calculate_luminance color2 in
  let lighter := Rmax l1 l2 in
  let darker := Rmin l1 l2 in
  if Req_dec_T (darker + 0.05) 0 then 1
  else (lighter + 0.05) / (darker + 0.05).

Local Close Scope R_scope.
Local Open Scope Q_scope.

(** [colorsys.rgb_to_hsv] of the Python library, and the handler of the
    method around it: the division by [maxc] raises when [maxc] is zero
    while [minc] is not, and [(0.0, 0.0, 0.0)] is returned. *)
Definition rgb_to_hsv (color : rgb) : rgb :=
  let '(r, g, b) := color in
  let maxc := Qmax (Qmax r g) b in
  let minc := Qmin (Qmin r g) b in
  let rangec := maxc - minc in
  let v := maxc in
  if Qeq_bool minc maxc then (0, 0, v)
  else if Qeq_bool maxc 0 then (0, 0, 0)
  else
    let s := rangec / maxc in
    let rc := (maxc - r) / rangec in
    let gc := (maxc - g) / rangec in
    let bc := (maxc - b) / rangec in
    let h :=
      if Qeq_bool r maxc then bc - gc
      else if Qeq_bool g maxc then 2 + rc - bc
      else 4 + gc - rc in
    let h6 := h / 6 in
    (h6 - inject_Z (Qfloor h6), s, v).

Definition Qlt_bool (a b : Q) : bool := negb (Qle_bool b a).

Definition identify_problematic_color (color : rgb) : option str :=
  let '(h, s, v) := rgb_to_hsv color in
  let by_hue : option str :=
    if Qle_bool 0.2 h && Qle_bool h 0.4 then
      if Qlt_bool 0.3 s && Qlt_bool 0.4 v then
        if Qlt_bool 0.7 v then Some (py "светло-зеленый") else Some (py "зеленый")
      else None
    else if Qle_bool h 0.05 || Qle_bool 0.95 h then
      if Qlt_bool 0.3 s && Qlt_bool 0.4 v then
        if Qlt_bool 0.7 v then Some (py "светло-красный") else Some (py "красный")
      else None
    else if Qle_bool 0.55 h && Qle_bool h 0.75 then
      if Qlt_bool 0.3 s && Qlt_bool 0.4 v then
        if Qlt_bool 0.7 v then Some (py "светло-синий") else Some (py "синий")
      else None
    else if Qle_bool 0.05 h && Qle_bool h 0.15 then
      if Qlt_bool 0.3 s && Qlt_bool 0.6 v then
        Some (if Qlt_bool 0.8 v then py "желтый" else py "оранжевый")
      else None
    else None in
  match by_hue with
  | Some name => Some name
  | None =>
    if Qlt_bool s 0.1 && Qle_bool 0.3 v && Qle_bool v 0.7 then Some (py "серый")
    else None
  end.

(** The stub of the source: the background is white everywhere. *)
Definition extract_background_color (x y : Q) : rgb := (1, 1, 1).

(** ** Heuristic classifiers *)

Definition MIN_FONT_SIZE : Z := 12.
Definition MIN_HEADING_SIZE : Z := 14.
Definition MIN_CONTRAST_RATIO : Q := 4.5.
Definition MIN_CONTRAST_LARGE : Q := 3.0.

Definition bold_terms : list str :=
  [py "Bold"; py "BoldItalic"; py "Black"; py "Heavy"; py "-Bold"; py "bold"].

Definition is_large_text_by_wcag (font_size : Q) (font_name : str) : bool :=
  let is_bold := existsb (fun bold_term => contains bold_term font_name) bold_terms in
  if Qle_bool 18 font_size then true
  else if Qle_bool 14 font_size && is_bold then true
  else false.

Definition normalize_font_name (font_name : str) : str :=
  let font_name :=
    if contains (py "+") font_name then after_last 43%N font_name
    else font_name in
  let font_name := remove_all (py "-Italic") (remove_all (py "-Bold") font_name) in
  let font_name := remove_all (py "Italic") (remove_all (py "Bold") font_name) in
  let font_name := remove_all (py "PS") (remove_all (py "MT") font_name) in
  strip font_name.

(** The two font sets, listed in the order of the source. Python leaves
    the iteration order of a set open; it only changes which of several
    matching fonts the reason quotes. *)
Definition ACCESSIBLE_FONTS : list str :=
  [py "Arial"; py "Helvetica"; py "Verdana"; py "Tahoma"; py "Calibri";
   py "Georgia"; py "Times New Roman"; py "Lucida Sans"; py "Trebuchet MS";
   py "Open Sans"; py "Roboto"; py "Lato"; py "Montserrat";
   py "LiberationSans"; py "LiberationSerif"; py "DejaVu Sans";
   py "DejaVu Serif"].

Definition POOR_READABILITY_FONTS : list str :=
  [py "Comic Sans"; py "Papyrus"; py "Brush Script"; py "Jokerman";
   py "Chiller"; py "Curly"; py "Old English"; py "Gothic";
   py "Courier"; py "Consolas"; py "Monaco"; py "Menlo";
   py "Source Code Pro"].

Local Close Scope Q_scope.

(** ** Data model *)

(** [severity] of an issue: the source annotates the field with the three
    values ['low'], ['medium'], ['high'] and writes no other. *)
Inductive Severity : Type := High | Medium | Low.

#[global] Instance Severity_eq_dec : EqDecision Severity.
Proof. solve_decision. Defined.

Definition Severity_to_nat (s : Severity) : nat :=
  match s with High => 0 | Medium => 1 | Low => 2 end.

Definition Severity_of_nat (n : nat) : option Severity :=
  match n with
  | 0 => Some High
  | 1 => Some Medium
  | 2 => Some Low
  | _ => None
  end.

#[global] Program Instance Severity_countable : Countable Severity :=
  inj_countable Severity_to_nat Severity_of_nat _.
Next Obligation. by intros []. Qed.

Definition severity_str (s : Severity) : str :=
  match s with
  | High => py "high"
  | Medium => py "medium"
  | Low => py "low"
  end.

(** One character of a page, as pdfplumber gives it. *)
Module Glyph.
Record t : Type := mk {
  text : str;
  x0 : Q;
  y0 : Q;
  size : Q;
  fontname : str;
  non_stroking_color : raw_color
}.
End Glyph.

Abbreviation glyph := Glyph.t.

Record Page : Type := mkPage {
  page_id : N;              (* [id(page)] *)
  chars : list glyph
}.

(** The dataclass [AccessibilityIssue]. *)
Module Issue.
Record t : Type := mk {
  page : Z;
  x : Q;
  y : Q;
  text : str;
  issue_type : str;
  description : str;
  severity : Severity;
  font_name : str;
  font_size : Q;
  color : rgb;
  background_color : rgb
}.
End Issue.

Abbreviation AccessibilityIssue := Issue.t.

(** An entry of [self.color_issues]. *)
Record ColorIssue : Type := mkColorIssue {
  ci_page : Z;
  ci_raw_color : raw_color;
  ci_color : rgb;
  ci_color_name : str;
  ci_contrast : R;
  ci_required : Q;
  ci_text_sample : str;
  ci_full_text : str;
  ci_position : Q * Q;
  ci_is_large : bool;
  ci_font_size : Q
}.

(** An entry of [self.problematic_colors_found]. *)
Record FoundColor : Type := mkFoundColor {
  fc_page : Z;
  fc_color : raw_color;
  fc_normalized : rgb;
  fc_text : str
}.

Abbreviation text_line := (list glyph * str)%type.

(** The mutable fields of the analyzer. *)
Record Analyzer : Type := mkAnalyzer {
  issues : list AccessibilityIssue;
  color_issues : list ColorIssue;
  line_cache : gmap (N * Z) text_line;
  problematic_colors_found : list FoundColor;
  full_text_cache : gmap (N * Z) str
}.

Definition new_analyzer : Analyzer :=
  mkAnalyzer [] [] ∅ [] ∅.

Definition issue_type_contrast : str := py "Контрастность".
Definition issue_type_font_size : str := py "Размер шрифта".
Definition issue_type_readability : str := py "Читаемость шрифта".

(** ** Line reconstructor *)

Definition insert_by_x0 (c : glyph) : list glyph -> list glyph :=
  fix ins (l : list glyph) : list glyph :=
    match l with
    | [] => [c]
    | d :: l' =>
      if Qle_bool (Glyph.x0 c) (Glyph.x0 d) then c :: l else d :: ins l'
    end.

(** [line_chars.sort(key=lambda c: c['x0'])], a stable sort. *)
Definition sort_by_x0 (l : list glyph) : list glyph :=
  foldr insert_by_x0 [] l.

Definition in_band (y_position tolerance : Q) (c : glyph) : bool :=
  Qlt_bool (Qabs (Glyph.y0 c - y_position)) tolerance.

(** The body of the cache miss of [get_text_line]. *)
Definition build_text_line (pg : Page) (y_position tolerance : Q) : text_line :=
  let line_chars := List.filter (in_band y_position tolerance) (chars pg) in
  let line_chars := sort_by_x0 line_chars in
  let line_text := concat (List.map Glyph.text line_chars) in
  (line_chars, line_text).

Definition get_text_line (self : Analyzer) (pg : Page)
    (y_position tolerance : Q) : Analyzer * text_line :=
  let cache_key := (page_id pg, round2 y_position) in
  match line_cache self !! cache_key with
  | Some line => (self, line)
  | None =>
    let line := build_text_line pg y_position tolerance in
    (mkAnalyzer (issues self) (color_issues self)
                (<[cache_key := line]> (line_cache self))
                (problematic_colors_found self)
                (<[cache_key := line.2]> (full_text_cache self)),
     line)
  end.

Definition default_tolerance : Q := 2.0.

(** ** Issue detector *)

Section Engine.

(** [str.lower] and the class [\w] of [re.UNICODE] patterns. *)
Variable lower : str -> str.
Variable is_word : char -> bool.

Definition check_font_readability (font_name : str) : bool * str :=
  let normalized_name := normalize_font_name font_name in
  let matches (font : str) := contains (lower font) (lower normalized_name) in
  match List.find matches ACCESSIBLE_FONTS with
  | Some accessible_font =>
    (true, py "Хорошо читаемый шрифт: " ++ accessible_font)
  | None =>
    match List.find matches POOR_READABILITY_FONTS with
    | Some poor_font => (false, py "Плохо читаемый шрифт: " ++ poor_font)
    | None => (false, py "Неизвестный шрифт: " ++ normalized_name)
    end
  end.

(** [raw_color in [(0, 0, 0), 0, None, (0,), [0]]] *)
Definition is_plain_black (raw : raw_color) : bool :=
  match raw with
  | Seq false [Num a; Num b; Num c] => Qeq_bool a 0 && Qeq_bool b 0 && Qeq_bool c 0
  | Seq _ [Num a] => Qeq_bool a 0
  | Scalar v => Qeq_bool v 0
  | Absent => true
  | _ => false
  end.

Definition sum_sizes (line_chars : list glyph) : Q :=
  fold_left (fun acc c => (acc + Glyph.size c)%Q) line_chars 0%Q.

Definition contrast_severity (contrast_ratio : R) : Severity :=
  if Rlt_dec contrast_ratio 2 then High
  else if Rlt_dec contrast_ratio 3 then Medium
  else Low.

Definition contrast_description (is_large_wcag is_bold : bool) (avg_size : Q)
    (contrast_ratio : R) (color_name : option str) : str :=
  let size_info :=
    if is_large_wcag then
      py "Крупный текст (" ++ format_1f avg_size ++ py "pt" ++
      (if is_bold then py " жирный" else []) ++ py ")"
    else py "Обычный текст (" ++ format_1f avg_size ++ py "pt)" in
  let contrast_req :=
    if is_large_wcag then py "требуется ≥3.0:1" else py "требуется ≥4.5:1" in
  let issue_desc :=
    size_info ++ py ". Контрастность: " ++ format_1f_R contrast_ratio ++
    py ":1 (" ++ contrast_req ++ py ")" in
  match color_name with
  | Some (_ :: _ as name) => issue_desc ++ py ". Проблемный цвет: " ++ name
  | _ => issue_desc
  end.

(** One turn of the loop over the characters of a line. *)
Definition analyze_char_contrast (page_num : Z) (normalized_line_text : str)
    (avg_size : Q) (is_bold is_large_wcag : bool) (required_contrast : Q)
    (acc : Analyzer * list AccessibilityIssue) (char : glyph)
    : Analyzer * list AccessibilityIssue :=
  let '(self, issues_acc) := acc in
  let raw_color := Glyph.non_stroking_color char in
  let text_color := normalize_color raw_color in
  let self :=
    if is_plain_black raw_color then self
    else mkAnalyzer (issues self) (color_issues self) (line_cache self)
           (problematic_colors_found self ++
            [mkFoundColor page_num raw_color text_color (Glyph.text char)])
           (full_text_cache self) in
  let bg_color := extract_background_color (Glyph.x0 char) (Glyph.y0 char) in
  let contrast_ratio :=
    calculate_contrast_ratio (rgb_to_R text_color) (rgb_to_R bg_color) in
  if Rlt_dec contrast_ratio (Q2R required_contrast) then
    let color_name := identify_problematic_color text_color in
    let severity := contrast_severity contrast_ratio in
    let issue_desc :=
      contrast_description is_large_wcag is_bold avg_size contrast_ratio color_name in
    let text_preview :=
      if 150 <? length normalized_line_text
      then take 147 normalized_line_text ++ py "..."
      else normalized_line_text in
    let issue :=
      Issue.mk page_num (Glyph.x0 char) (Glyph.y0 char) text_preview
               issue_type_contrast issue_desc severity
               (Glyph.fontname char) (Glyph.size char) text_color bg_color in
    let self :=
      match color_name with
      | Some (_ :: _ as name) =>
        if Rlt_dec contrast_ratio 4.5 then
          mkAnalyzer (issues self)
            (color_issues self ++
             [mkColorIssue page_num raw_color text_color name contrast_ratio
                required_contrast (strip (take 100 normalized_line_text))
                (strip normalized_line_text)
                (Glyph.x0 char, Glyph.y0 char) is_large_wcag (Glyph.size char)])
            (line_cache self) (problematic_colors_found self)
            (full_text_cache self)
        else self
      | _ => self
      end in
    (self, issues_acc ++ [issue])
  else (self, issues_acc).

Definition analyze_text_line_contrast (self : Analyzer) (page_num : Z)
    (line_chars : list glyph) (line_text : str)
    : Analyzer * list AccessibilityIssue :=
  match line_chars, strip line_text with
  | [], _ | _, [] => (self, [])
  | first :: _, _ =>
    let normalized_line_text := remove_duplicate_chars (strip line_text) in
    if length normalized_line_text <? 3 then (self, [])
    else
      let avg_size :=
        (sum_sizes line_chars / inject_Z (Z.of_nat (length line_chars)))%Q in
      let is_bold :=
        existsb (fun char => contains (py "Bold") (Glyph.fontname char)) line_chars in
      let is_large_wcag := is_large_text_by_wcag avg_size (Glyph.fontname first) in
      let required_contrast :=
        if is_large_wcag then MIN_CONTRAST_LARGE else MIN_CONTRAST_RATIO in
      fold_left
        (analyze_char_contrast page_num normalized_line_text avg_size is_bold
           is_large_wcag required_contrast)
        line_chars (self, [])
  end.

(** [normalized_text[:80] + ("..." if len(normalized_text) > 80 else "")] *)
Definition preview80 (normalized_text : str) : str :=
  take 80 normalized_text ++
  (if 80 <? length normalized_text then py "..." else []).

Definition heading_size_description (font_size : Q) : str :=
  py "Размер заголовка " ++ format_1f font_size ++ py "pt меньше минимального " ++
  str_of_N (Z.to_N MIN_HEADING_SIZE) ++ py "pt".

Definition text_size_description (font_size : Q) : str :=
  py "Размер текста " ++ format_1f font_size ++ py "pt меньше минимального " ++
  str_of_N (Z.to_N MIN_FONT_SIZE) ++ py "pt".

(** The font-size check of one character (step 2 of [analyze_page]). *)
Definition font_size_issues (page_num : Z) (char : glyph)
    (normalized_text : str) : list AccessibilityIssue :=
  let font_size := Glyph.size char in
  let font_name := Glyph.fontname char in
  let is_bold := contains (py "Bold") font_name in
  let is_large_wcag := is_large_text_by_wcag font_size font_name in
  if is_bold && Qle_bool 14 font_size then
    if Qlt_bool font_size (inject_Z MIN_HEADING_SIZE) then
      [Issue.mk page_num (Glyph.x0 char) (Glyph.y0 char) (preview80 normalized_text)
         issue_type_font_size (heading_size_description font_size) High
         font_name font_size (0, 0, 0)%Q (1, 1, 1)%Q]
    else []
  else if negb is_large_wcag then
    if Qlt_bool font_size (inject_Z MIN_FONT_SIZE) then
      [Issue.mk page_num (Glyph.x0 char) (Glyph.y0 char) (preview80 normalized_text)
         issue_type_font_size (text_size_description font_size)
         (if Qle_bool 10 font_size then Medium else High)
         font_name font_size (0, 0, 0)%Q (1, 1, 1)%Q]
    else []
  else [].

(** The readability check of one character (step 3 of [analyze_page]). *)
Definition readability_issues (page_num : Z) (char : glyph)
    (normalized_text : str) : list AccessibilityIssue :=
  let font_size := Glyph.size char in
  let font_name := Glyph.fontname char in
  let '(is_readable, readability_info) := check_font_readability font_name in
  if is_readable then []
  else
    [Issue.mk page_num (Glyph.x0 char) (Glyph.y0 char) (preview80 normalized_text)
       issue_type_readability readability_info Medium
       font_name font_size (0, 0, 0)%Q (1, 1, 1)%Q].

(** The state of the loop of [analyze_page]. *)
Record PageScan : Type := mkPageScan {
  scan_self : Analyzer;
  processed_lines : gset Z;
  page_issues : list AccessibilityIssue
}.

(** One turn of the loop over [page.chars]. *)
Definition analyze_char (page_num : Z) (pg : Page) (st : PageScan)
    (char : glyph) : PageScan :=
  let char_text := Glyph.text char in
  if isspace char_text || bool_decide (strip char_text = []) then st
  else
    let line_y := round2 (Glyph.y0 char) in
    let st :=
      if bool_decide (line_y ∈ processed_lines st) then st
      else
        let '(self, (line_chars, line_text)) :=
          get_text_line (scan_self st) pg (Glyph.y0 char) default_tolerance in
        let '(self, contrast_issues) :=
          match strip line_text with
          | [] => (self, [])
          | _ => analyze_text_line_contrast self page_num line_chars line_text
          end in
        mkPageScan self ({[line_y]} ∪ processed_lines st)
                   (page_issues st ++ contrast_issues) in
    let '(self, (line_chars, line_text)) :=
      get_text_line (scan_self st) pg (Glyph.y0 char) default_tolerance in
    let st := mkPageScan self (processed_lines st) (page_issues st) in
    let normalized_text := remove_duplicate_chars (strip line_text) in
    if length normalized_text <? 3 then st
    else
      mkPageScan (scan_self st) (processed_lines st)
        (page_issues st ++ font_size_issues page_num char normalized_text
                        ++ readability_issues page_num char normalized_text).

Definition analyze_page (self : Analyzer) (page_num : Z) (pg : Page)
    : Analyzer * list AccessibilityIssue :=
  let st := fold_left (analyze_char page_num pg) (chars pg) (mkPageScan self ∅ []) in
  (scan_self st, page_issues st).

(** [self.line_cache.clear(); self.full_text_cache.clear()] *)
Definition clear_caches (self : Analyzer) : Analyzer :=
  mkAnalyzer (issues self) (color_issues self) ∅
             (problematic_colors_found self) ∅.

(** The loop of [analyze] over [enumerate(pdf.pages, 1)]. *)
Fixpoint analyze_pages (self : Analyzer) (page_num : Z) (pages : list Page)
    : Analyzer :=
  match pages with
  | [] => self
  | pg :: rest =>
    let self := clear_caches self in
    let '(self, found) := analyze_page self page_num pg in
    let self :=
      mkAnalyzer (issues self ++ found) (color_issues self) (line_cache self)
                 (problematic_colors_found self) (full_text_cache self) in
    analyze_pages self (page_num + 1)%Z rest
  end.

Definition analyze (self : Analyzer) (pages : list Page)
    : Analyzer * list AccessibilityIssue :=
  let self := analyze_pages self 1%Z pages in
  (self, issues self).

End Engine.

(** ** Aggregator *)

Record Counter : Type := mkCounter { places : nat; words : nat }.

Definition zero_counter : Counter := mkCounter 0 0.

Definition bump (word_count : nat) (c : Counter) : Counter :=
  mkCounter (places c + 1) (words c + word_count).

(** The inner dictionary of [by_type_severity], with its three keys. *)
Record SeverityCounters : Type := mkSeverityCounters {
  sc_high : Counter;
  sc_medium : Counter;
  sc_low : Counter
}.

Definition bump_severity (s : Severity) (word_count : nat)
    (g : SeverityCounters) : SeverityCounters :=
  match s with
  | High => mkSeverityCounters (bump word_count (sc_high g)) (sc_medium g) (sc_low g)
  | Medium => mkSeverityCounters (sc_high g) (bump word_count (sc_medium g)) (sc_low g)
  | Low => mkSeverityCounters (sc_high g) (sc_medium g) (bump word_count (sc_low g))
  end.

Record TypeTotals : Type := mkTypeTotals {
  tt_total_places : nat;
  tt_total_words : nat;
  pages_affected : gset Z
}.

Record SeverityTotals : Type := mkSeverityTotals {
  st_places : nat;
  st_words : nat;
  st_types : gmap str Counter
}.

Record Overall : Type := mkOverall {
  total_places : nat;
  total_words : nat;
  pages_with_issues : gset Z;
  types_distribution : gmap str nat;
  severity_distribution : gmap Severity nat
}.

Record Summary : Type := mkSummary {
  by_type_severity : gmap str SeverityCounters;
  by_type : gmap str TypeTotals;
  by_severity : gmap Severity SeverityTotals;
  overall : Overall
}.

Definition empty_summary : Summary :=
  mkSummary ∅ ∅ ∅ (mkOverall 0 0 ∅ ∅ ∅).

Module TextPageGroup.
Record t : Type := mk {
  pages : gmap Z (list AccessibilityIssue);
  total_count : nat;
  first_issue : option AccessibilityIssue;
  issue_types : gset str;
  descriptions : gset str
}.
Definition empty : t := mk ∅ 0 None ∅ ∅.
End TextPageGroup.

Module PatternGroup.
Record t : Type := mk {
  pages : gset Z;
  issues : list AccessibilityIssue;
  total_words : nat;
  issue_types : gset str;
  severities : gmap Severity nat;
  descriptions : gset str;
  font_info : gset str
}.
Definition empty : t := mk ∅ [] 0 ∅ ∅ ∅ ∅.
End PatternGroup.

(** A group that passed the filter, with the three keys added to it. *)
Record PatternEntry : Type := mkPatternEntry {
  pe_data : PatternGroup.t;
  pages_sorted : list Z;
  total_pages : nat;
  total_issues : nat
}.

Section Aggregator.

Variable lower : str -> str.
Variable is_word : char -> bool.

(** [len(re.findall(r'\b\w+\b', s, re.UNICODE))]: the maximal runs of
    word characters. *)
Fixpoint count_word_runs (in_word : bool) (s : str) : nat :=
  match s with
  | [] => 0
  | c :: s' =>
    if is_word c then (if in_word then 0 else 1) + count_word_runs true s'
    else count_word_runs false s'
  end.

Definition count_words (text : str) : nat :=
  match strip text with
  | [] => 0
  | stripped =>
    let normalized := remove_duplicate_chars stripped in
    match normalized with
    | [] => 0
    | _ => count_word_runs false normalized
    end
  end.

Definition is_trailing_punct (c : char) : bool := contains [c] (py ".,;:!?").

Definition normalize_text_for_grouping (text : str) : str :=
  match text with
  | [] => text
  | _ =>
    let text := remove_duplicate_chars text in
    let text := lower (join_split text) in
    rstrip_by is_trailing_punct text
  end.

Definition truncate_text_smart (text : str) (max_length : nat) : str :=
  if length text <=? max_length then text
  else
    let truncated := take max_length text in
    let last_space := rfind 32%N truncated in
    if Qlt_bool (inject_Z (Z.of_nat max_length) * 0.7)%Q (inject_Z last_space)
    then take (Z.to_nat last_space) truncated ++ py "..."
    else truncated ++ py "...".

Definition summarize_issue (summary : Summary) (issue : AccessibilityIssue)
    : Summary :=
  let word_count := count_words (Issue.text issue) in
  let ty := Issue.issue_type issue in
  let sev := Issue.severity issue in
  let pg := Issue.page issue in
  let type_sev_group :=
    default (mkSeverityCounters zero_counter zero_counter zero_counter)
            (by_type_severity summary !! ty) in
  let type_group := default (mkTypeTotals 0 0 ∅) (by_type summary !! ty) in
  let severity_group :=
    default (mkSeverityTotals 0 0 ∅) (by_severity summary !! sev) in
  let o := overall summary in
  mkSummary
    (<[ty := bump_severity sev word_count type_sev_group]> (by_type_severity summary))
    (<[ty := mkTypeTotals (tt_total_places type_group + 1)
                          (tt_total_words type_group + word_count)
                          ({[pg]} ∪ pages_affected type_group)]> (by_type summary))
    (<[sev := mkSeverityTotals (st_places severity_group + 1)
                (st_words severity_group + word_count)
                (<[ty := bump word_count
                           (default zero_counter (st_types severity_group !! ty))]>
                   (st_types severity_group))]> (by_severity summary))
    (mkOverall (total_places o + 1) (total_words o + word_count)
               ({[pg]} ∪ pages_with_issues o)
               (<[ty := default 0 (types_distribution o !! ty) + 1]>
                  (types_distribution o))
               (<[sev := default 0 (severity_distribution o !! sev) + 1]>
                  (severity_distribution o))).

Definition group_and_summarize_issues_improved (self : Analyzer) : Summary :=
  fold_left summarize_issue (issues self) empty_summary.

(** What one issue adds to the group of its key. *)
Definition text_and_page_add (group : TextPageGroup.t)
    (issue : AccessibilityIssue) : TextPageGroup.t :=
  let pg := Issue.page issue in
  TextPageGroup.mk
    (<[pg := default [] (TextPageGroup.pages group !! pg) ++ [issue]]>
       (TextPageGroup.pages group))
    (TextPageGroup.total_count group + 1)
    (match TextPageGroup.first_issue group with
     | None => Some issue
     | Some first => Some first
     end)
    ({[Issue.issue_type issue]} ∪ TextPageGroup.issue_types group)
    ({[Issue.description issue]} ∪ TextPageGroup.descriptions group).

Definition text_and_page_step (text_groups : gmap str TextPageGroup.t)
    (issue : AccessibilityIssue) : gmap str TextPageGroup.t :=
  let normalized_text := normalize_text_for_grouping (Issue.text issue) in
  if length normalized_text <? 3 then text_groups
  else
    let group := default TextPageGroup.empty (text_groups !! normalized_text) in
    <[normalized_text := text_and_page_add group issue]> text_groups.

Definition group_issues_by_text_and_page (issues : list AccessibilityIssue)
    : gmap str TextPageGroup.t :=
  fold_left text_and_page_step issues ∅.

(** The key under which [group_issues_by_text_pattern] files an issue,
    [None] when the issue is skipped. *)
Definition pattern_key (issue : AccessibilityIssue) : option str :=
  let text_key := normalize_text_for_grouping (Issue.text issue) in
  if length text_key <? 5 then None
  else if 50 <? length text_key then Some (truncate_text_smart text_key 50)
  else Some text_key.

(** What one issue adds to the group of [text_key]. *)
Definition pattern_add (text_key : str) (group : PatternGroup.t)
    (issue : AccessibilityIssue) : PatternGroup.t :=
  let sev := Issue.severity issue in
  PatternGroup.mk
    ({[Issue.page issue]} ∪ PatternGroup.pages group)
    (PatternGroup.issues group ++ [issue])
    (PatternGroup.total_words group + count_words text_key)
    ({[Issue.issue_type issue]} ∪ PatternGroup.issue_types group)
    (<[sev := default 0 (PatternGroup.severities group !! sev) + 1]>
       (PatternGroup.severities group))
    ({[take 100 (Issue.description issue)]} ∪ PatternGroup.descriptions group)
    (match Issue.font_name issue with
     | [] => PatternGroup.font_info group
     | font_name =>
       if Qeq_bool (Issue.font_size issue) 0 then PatternGroup.font_info group
       else {[font_name ++ py " (" ++ format_1f (Issue.font_size issue)
              ++ py "pt)"]} ∪ PatternGroup.font_info group
     end).

Definition pattern_step (text_groups : gmap str PatternGroup.t)
    (issue : AccessibilityIssue) : gmap str PatternGroup.t :=
  match pattern_key issue with
  | None => text_groups
  | Some text_key =>
    let group := default PatternGroup.empty (text_groups !! text_key) in
    <[text_key := pattern_add text_key group issue]> text_groups
  end.

Definition keeps_pattern (data : PatternGroup.t) : bool :=
  (2 <=? size (PatternGroup.pages data)) || (3 <=? length (PatternGroup.issues data)).

Definition pattern_entry (data : PatternGroup.t) : PatternEntry :=
  mkPatternEntry data (merge_sort Z.le (elements (PatternGroup.pages data)))
                 (size (PatternGroup.pages data))
                 (length (PatternGroup.issues data)).

Definition group_issues_by_text_pattern (issues : list AccessibilityIssue)
    : gmap str PatternEntry :=
  let text_groups := fold_left pattern_step issues ∅ in
  pattern_entry <$> filter (fun kv => keeps_pattern kv.2 = true) text_groups.

End Aggregator.

(** ** JSON report *)

Record JsonTypeSummary : Type := mkJsonTypeSummary {
  jt_total_places : nat;
  jt_total_words : nat;
  jt_pages_affected : list Z
}.

Record JsonSummary : Type := mkJsonSummary {
  js_total_issues : nat;
  js_total_words : nat;
  js_pages_affected : list Z;
  js_by_severity : gmap Severity Counter;
  js_by_type : gmap str JsonTypeSummary
}.

Record JsonReport : Type := mkJsonReport {
  jr_document : str;
  jr_document_path : str;
  jr_analysis_date : str;
  jr_summary : JsonSummary;
  jr_issues : list AccessibilityIssue;
  jr_color_issues : list ColorIssue
}.

(** [sorted(list(s))] for a set of page numbers. *)
Definition sorted_pages (s : gset Z) : list Z := merge_sort Z.le (elements s).

Section Reports.

Variable is_word : char -> bool.
(** [os.path.basename] and [datetime.now().isoformat()]. *)
Variable basename : str -> str.
Variable now : str.

(** The call [convert_sets(summary)] builds a value that is dropped; it
    changes nothing. *)
Definition generate_json_report (pdf_path : str) (self : Analyzer) : JsonReport :=
  let summary := group_and_summarize_issues_improved is_word self in
  mkJsonReport (basename pdf_path) pdf_path now
    (mkJsonSummary
       (total_places (overall summary))
       (total_words (overall summary))
       (sorted_pages (pages_with_issues (overall summary)))
       ((fun data => mkCounter (st_places data) (st_words data))
          <$> by_severity summary)
       ((fun data => mkJsonTypeSummary (tt_total_places data) (tt_total_words data)
                       (sorted_pages (pages_affected data)))
          <$> by_type summary))
    (take 1000 (issues self))
    (take 100 (color_issues self)).

End Reports.

(** ** Screenshots *)

(** [seq[i]] on a Python list: a negative index counts from the end, an
    index out of range raises [IndexError] ([None]). *)
Definition py_index {A : Type} (l : list A) (i : Z) : option A :=
  if (0 <=? i)%Z then l !! Z.to_nat i
  else if (0 <=? Z.of_nat (length l) + i)%Z
       then l !! Z.to_nat (Z.of_nat (length l) + i)
       else None.

Abbreviation bbox := (Q * Q * Q * Q)%type.

(** The image [create_screenshot] asks pdfplumber for:
    [page.to_image(...)] or [page.crop(box).to_image(...)]. *)
Inductive ScreenshotImage : Type :=
| whole_page (pg : Page)
| cropped_page (pg : Page) (box : bbox).

Section Screenshots.

(** [page.width] and [page.height]. *)
Variable page_width : Page -> Q.
Variable page_height : Page -> Q.

(** What [create_screenshot] asks pdfplumber to render, [None] when it
    returns [None] without an image: by its own test on [page_num],
    through the handler of the [IndexError] of [pdf.pages[page_num - 1]],
    or through the handler of the [UnboundLocalError] of [im.save] when
    neither [full_page] nor [bbox] is given ([im] is never assigned on
    that path). Whether rendering and saving succeed afterwards is left
    to the library and the file system. *)
Definition create_screenshot (page_num : Z) (box : option bbox)
    (full_page highlight_issue : bool) (pages : list Page)
    : option ScreenshotImage :=
  if (Z.of_nat (length pages) <? page_num)%Z then None
  else
    match py_index pages (page_num - 1) with
    | None => None
    | Some page =>
      if full_page then Some (whole_page page)
      else
        match box with
        | None => None
        | Some (x0, y0, x1, y1) =>
          let padding := (if highlight_issue then 50 else 20)%Q in
          let x0 := Qmax 0 (x0 - padding)%Q in
          let y0 := Qmax 0 (y0 - padding)%Q in
          let x1 := Qmin (page_width page) (x1 + padding)%Q in
          let y1 := Qmin (page_height page) (y1 + padding)%Q in
          Some (cropped_page page (x0, y0, x1, y1))
        end
    end.

End Screenshots.

(** ** Instances of the library functions on ASCII text

    On strings of ASCII characters [str.lower] and [\w] are the two
    functions below; they serve to run the model on concrete inputs. *)

Definition ascii_lower_char (c : char) : char :=
  if ((65 <=? c) && (c <=? 90))%N then (c + 32)%N else c.

Definition ascii_lower (s : str) : str := List.map ascii_lower_char s.

Definition ascii_is_word (c : char) : bool :=
  ((48 <=? c) && (c <=? 57) || (65 <=? c) && (c <=? 90) || (c =? 95)
   || (97 <=? c) && (c <=? 122))%N.

Definition is_ascii (s : str) : Prop := Forall (fun c => (c < 128)%N) s.

(** ** Vocabulary of the statements *)

Definition channels_nonneg (c : rgbR) : Prop :=
  let '(r, g, b) := c in (0 <= r /\ 0 <= g /\ 0 <= b)%R.

Definition gray (v : R) : rgbR := (v, v, v).

Definition white : rgb := (1, 1, 1)%Q.

(** The sum of a count over the entries of a dictionary. *)
Definition sum_over `{Countable K} {V : Type} (count : V -> nat)
    (m : gmap K V) : nat :=
  map_fold (fun _ v acc => count v + acc) 0 m.

(** The issues of a list whose canonical key is [k]. *)
Definition occurrences (lower : str -> str) (k : str)
    (issues : list AccessibilityIssue) : list AccessibilityIssue :=
  List.filter
    (fun issue => bool_decide (normalize_text_for_grouping lower (Issue.text issue) = k))
    issues.


(** An issue whose text has the key ["helo world"]. *)
Definition sample_issue : AccessibilityIssue :=
  Issue.mk 1 0 0 (py "hello world") issue_type_font_size
           (py "Размер текста 10.0pt меньше минимального 12pt") Medium
           (py "Arial") 10 (0, 0, 0)%Q (1, 1, 1)%Q.

(** A black 10pt Arial character. *)
Definition arial10 (text : string) (x y : Q) : glyph :=
  Glyph.mk (py text) x y 10 (py "Arial") (Seq false [Num 0; Num 0; Num 0]).

(** Two characters one unit apart in height. *)
Definition two_line_page : Page :=
  mkPage 1 [arial10 "a" 0 0; arial10 "b" 5 1].

(** The description of an undersized heading starts with these words. *)
Definition heading_prefix : str := py "Размер заголовка".

Definition reports_heading (issue : AccessibilityIssue) : bool :=
  starts_with heading_prefix (Issue.description issue).

Definition quiet (issue : AccessibilityIssue) : Prop :=
  reports_heading issue = false.

(** One run of five black 10pt Arial characters spelling "hello". *)
Definition hello_page : Page :=
  mkPage 1 [arial10 "h" 72 700; arial10 "e" 78 700; arial10 "l" 84 700;
            arial10 "l" 87 700; arial10 "o" 90 700].

(** The font-size issue [analyze_page] raises for a character of
    [hello_page]; the preview is the deduplicated line. *)
Definition hello_issue (char : glyph) : AccessibilityIssue :=
  Issue.mk 1 (Glyph.x0 char) (Glyph.y0 char) (py "helo") issue_type_font_size
           (py "Размер текста 10.0pt меньше минимального 12pt") Medium
           (py "Arial") 10 (0, 0, 0)%Q (1, 1, 1)%Q.

(** The number of issues of a type. *)
Definition count_type (issue_type : str) (found : list AccessibilityIssue) : nat :=
  length (List.filter (fun issue => bool_decide (Issue.issue_type issue = issue_type))
                      found).

(** [lower] is [str.lower] as far as ASCII strings go. *)
Definition lowers_ascii (lower : str -> str) : Prop :=
  forall s, is_ascii s -> lower s = ascii_lower s.

(** A character whose raw colour is one of the plain blacks. *)
Definition plain_black_glyph (char : glyph) : Prop :=
  is_plain_black (Glyph.non_stroking_color char) = true /\
  normalize_color (Glyph.non_stroking_color char) = black.

Definition channels_in_unit (c : rgbR) : Prop :=
  let '(r, g, b) := c in (0 <= r <= 1 /\ 0 <= g <= 1 /\ 0 <= b <= 1)%R.

(** The places counted in an entry of [by_type_severity]. *)
Definition sc_places (g : SeverityCounters) : nat :=
  places (sc_high g) + places (sc_medium g) + places (sc_low g).

(** The words of the issue texts, each issue counted once. *)
Definition words_of (is_word : char -> bool) (found : list AccessibilityIssue) : nat :=
  fold_right (fun issue acc => count_words is_word (Issue.text issue) + acc) 0 found.

(** The number of issues of a severity. *)
Definition count_severity (sev : Severity) (found : list AccessibilityIssue) : nat :=
  length (List.filter (fun issue => bool_decide (Issue.severity issue = sev)) found).

(** The pages of the issues of a list. *)
Definition pages_of (found : list AccessibilityIssue) : gset Z :=
  list_to_set (List.map Issue.page found).

(** The issues of a list that lie on page [p]. *)
Definition on_page (p : Z) (l : list AccessibilityIssue) : list AccessibilityIssue :=
  List.filter (fun issue => bool_decide (Issue.page issue = p)) l.

(** Three issues with the same text. *)
Definition repeated_issues : list AccessibilityIssue :=
  [sample_issue; sample_issue; sample_issue].

(** The order of [sort_by_x0]. *)
Definition x0_le (a b : glyph) : Prop := (Glyph.x0 a <= Glyph.x0 b)%Q.

(** The font-size and readability checks of one character, given the
    text of its line. *)
Definition glyph_checks (lower : str -> str) (page_num : Z) (char : glyph)
    (line_text : str) : list AccessibilityIssue :=
  let normalized_text := remove_duplicate_chars (strip line_text) in
  if length normalized_text <? 3 then []
  else font_size_issues page_num char normalized_text
       ++ readability_issues lower page_num char normalized_text.

(** The contrast analysis of a line that [analyze_page] meets for the
    first time. *)
Definition line_contrast (self : Analyzer) (page_num : Z) (line : text_line)
    : Analyzer * list AccessibilityIssue :=
  match strip line.2 with
  | [] => (self, [])
  | _ => analyze_text_line_contrast self page_num line.1 line.2
  end.

(** Two analyzers with the same cached lines. *)
Definition same_lines (a b : Analyzer) : Prop := line_cache a = line_cache b.

(** The issues [analyze_page] finds on the pages of a list numbered from
    [first], each page read by an analyzer with empty caches. *)
Fixpoint issues_of_pages (lower : str -> str) (first : Z) (pages : list Page)
    : list AccessibilityIssue :=
  match pages with
  | [] => []
  | pg :: rest =>
    (analyze_page lower new_analyzer first pg).2
      ++ issues_of_pages lower (first + 1) rest
  end.

(** The cached lines hold characters of the page only. *)
Definition cache_of_page (pg : Page) (self : Analyzer) : Prop :=
  forall key line, line_cache self !! key = Some line ->
    forall g, In g line.1 -> In g (chars pg).

Definition known_issue_types : list str :=
  [issue_type_contrast; issue_type_font_size; issue_type_readability].

(** An issue that points at a character of page [pg], numbered [page_num]. *)
Definition raised_on (page_num : Z) (pg : Page) (issue : AccessibilityIssue) : Prop :=
  Issue.page issue = page_num /\
  (exists g, In g (chars pg) /\
     Issue.x issue = Glyph.x0 g /\ Issue.y issue = Glyph.y0 g /\
     Issue.font_name issue = Glyph.fontname g /\
     Issue.font_size issue = Glyph.size g) /\
  3 <= length (Issue.text issue) <= 150 /\
  In (Issue.issue_type issue) known_issue_types /\
  Issue.background_color issue = white.

Definition same_scan (st st' : PageScan) : Prop :=
  same_lines (scan_self st) (scan_self st') /\
  processed_lines st = processed_lines st' /\
  page_issues st = page_issues st'.

(** A character [analyze_page] skips: its text is empty or white space. *)
Definition blank_glyph (g : glyph) : Prop := strip (Glyph.text g) = [].

Definition not_contrast (issue : AccessibilityIssue) : Prop :=
  Issue.issue_type issue <> issue_type_contrast.

Definition black_page (pg : Page) : Prop := Forall plain_black_glyph (chars pg).

(** The font-size issue of an undersized character. *)
Definition undersized_issue (page_num : Z) (char : glyph) (normalized_text : str)
    : AccessibilityIssue :=
  Issue.mk page_num (Glyph.x0 char) (Glyph.y0 char) (preview80 normalized_text)
    issue_type_font_size (text_size_description (Glyph.size char))
    (if Qle_bool 10 (Glyph.size char) then Medium else High)
    (Glyph.fontname char) (Glyph.size char) (0, 0, 0)%Q (1, 1, 1)%Q.

(** The counter of a severity in an entry of [by_type_severity]. *)
Definition sc_cell (sev : Severity) (g : SeverityCounters) : Counter :=
  match sev with
  | High => sc_high g
  | Medium => sc_medium g
  | Low => sc_low g
  end.

(** The number of issues of a type and a severity. *)
Definition count_cell (ty : str) (sev : Severity)
    (found : list AccessibilityIssue) : nat :=
  length (List.filter
            (fun issue => bool_decide (Issue.issue_type issue = ty)
                          && bool_decide (Issue.severity issue = sev)) found).

(** The places of a type in the type breakdown of an entry of [by_severity]. *)
Definition st_type_places (ty : str) (data : SeverityTotals) : nat :=
  default 0 (places <$> st_types data !! ty).


(** A character that [analyze_page] does not skip. *)
Definition printed (char : glyph) : bool :=
  negb (isspace (Glyph.text char) || bool_decide (strip (Glyph.text char) = [])).

(** The printed characters whose height rounds to [key]. *)
Definition on_key (key : Z) (g : glyph) : bool :=
  printed g && bool_decide (round2 (Glyph.y0 g) = key).

(** The text of the line [analyze_page] works with for [char] on a page
    read with empty caches: the line was built, and cached, for the first
    printed character of the page whose height rounds like that of
    [char]. *)
Definition line_text_of (pg : Page) (char : glyph) : str :=
  match List.find (on_key (round2 (Glyph.y0 char))) (chars pg) with
  | Some first => (build_text_line pg (Glyph.y0 first) default_tolerance).2
  | None => (build_text_line pg (Glyph.y0 char) default_tolerance).2
  end.

Definition is_font_size_issue (issue : AccessibilityIssue) : bool :=
  bool_decide (Issue.issue_type issue = issue_type_font_size).

(** The font-size issues of one character of a page. *)
Definition font_size_issues_of (page_num : Z) (pg : Page) (char : glyph)
    : list AccessibilityIssue :=
  let normalized_text := remove_duplicate_chars (strip (line_text_of pg char)) in
  if printed char && (3 <=? length normalized_text)
     && Qlt_bool (Glyph.size char) 12
  then [undersized_issue page_num char normalized_text]
  else [].

(** The cached lines after the characters [done] of the page. *)
Definition cache_after (pg : Page) (done : list glyph) (self : Analyzer) : Prop :=
  forall key,
    line_cache self !! (page_id pg, key)
    = (fun first => build_text_line pg (Glyph.y0 first) default_tolerance)
        <$> List.find (on_key key) done.

(** * Properties *)

(** ** Text normalizer: what a second deduplication does *)

Section DedupFacts.

Context {A : Type} `{EqDecision A}.

Lemma skip_run_no_repeat (c : A) (l : list A) :
  no_repeat_from c (skip_run c l).
Proof.
  revert c. induction l as [|d l IH]; intros c; simpl; [exact I|].
  destruct (decide (d = c)) as [->|Hne]; [apply IH|].
  simpl. split; [exact Hne | apply IH].
Qed.

Lemma skip_run_fixed (c : A) (l : list A) :
  no_repeat_from c l -> skip_run c l = l.
Proof.
  revert c. induction l as [|d l IH]; intros c; simpl; [reflexivity|].
  intros [Hne Hl]. destruct (decide (d = c)); [contradiction|].
  f_equal. apply IH, Hl.
Qed.

Lemma collapse_runs_no_repeat (l : list A) : no_repeat (collapse_runs l).
Proof. destruct l; simpl; [exact I | apply skip_run_no_repeat]. Qed.

Lemma collapse_runs_fixed (l : list A) :
  no_repeat l -> collapse_runs l = l.
Proof.
  destruct l as [|c l]; simpl; [reflexivity|].
  intros Hl. f_equal. apply skip_run_fixed, Hl.
Qed.

Lemma no_repeat_from_take (n : nat) (c : A) (l : list A) :
  no_repeat_from c l -> no_repeat_from c (take n l).
Proof.
  revert n c. induction l as [|d l IH]; intros [|n] c; simpl; try tauto.
  intros [Hne Hl]. split; [exact Hne | apply IH, Hl].
Qed.

Lemma no_repeat_take (n : nat) (l : list A) :
  no_repeat l -> no_repeat (take n l).
Proof.
  destruct l as [|c l]; destruct n; simpl; try tauto.
  apply no_repeat_from_take.
Qed.

Lemma remove_duplicate_chars_no_repeat (s : list A) :
  no_repeat (remove_duplicate_chars s).
Proof.
  unfold remove_duplicate_chars.
  destruct (length s <? 2) eqn:Hlen.
  - apply Nat.ltb_lt in Hlen.
    destruct s as [|c [|d s]]; simpl in *; try exact I. lia.
  - pose proof (collapse_runs_no_repeat s) as Hc.
    destruct (Nat.even _); [|exact Hc].
    destruct (decide _); [|exact Hc].
    apply no_repeat_take, Hc.
Qed.

Lemma remove_duplicate_chars_fixed (l : list A) :
  no_repeat l -> ~ doubled l -> remove_duplicate_chars l = l.
Proof.
  intros Hl Hnd. unfold remove_duplicate_chars.
  destruct (length l <? 2) eqn:Hlen; [reflexivity|].
  apply Nat.ltb_ge in Hlen.
  rewrite (collapse_runs_fixed l Hl).
  destruct (Nat.even (length l)) eqn:Hev; [|reflexivity].
  destruct (decide _) as [Heq|]; [|reflexivity].
  exfalso. apply Hnd. unfold doubled. auto.
Qed.

(** C1 (as amended). A second deduplication changes nothing as long as
    the deduplicated string is not itself made of two equal halves:
    [deduplicate(deduplicate(s)) == deduplicate(s)] whenever
    [deduplicate(s)] is not doubled. *)
Theorem dedup_idempotent_unless_doubled (s : list A) :
  ~ doubled (remove_duplicate_chars s) ->
  remove_duplicate_chars (remove_duplicate_chars s) = remove_duplicate_chars s.
Proof.
  intros Hnd. apply remove_duplicate_chars_fixed; [|exact Hnd].
  apply remove_duplicate_chars_no_repeat.
Qed.

End DedupFacts.

Lemma dedup_idempotent_unless_doubled_witness :
  remove_duplicate_chars (remove_duplicate_chars (py "AABBCC"))
  = remove_duplicate_chars (py "AABBCC").
Proof.
  apply (dedup_idempotent_unless_doubled (py "AABBCC")).
  intros (_ & Heven & _). vm_compute in Heven. discriminate Heven.
Defined.

(** C1 (as stated) fails: the four-fold ["ABABABAB"] is halved twice. *)
Lemma dedup_not_idempotent :
  remove_duplicate_chars (remove_duplicate_chars (py "ABABABAB"))
  <> remove_duplicate_chars (py "ABABABAB").
Proof. vm_compute. discriminate. Qed.

Example dedup_AABBCC : remove_duplicate_chars (py "AABBCC") = py "ABC".
Proof. reflexivity. Qed.

Example dedup_WORDWORD : remove_duplicate_chars (py "WORDWORD") = py "WORD".
Proof. reflexivity. Qed.

Example dedup_ABABABAB :
  remove_duplicate_chars (py "ABABABAB") = py "ABAB" /\
  remove_duplicate_chars (py "ABAB") = py "AB".
Proof. split; reflexivity. Qed.

(** ** Colour model *)

Section ColourFacts.

Local Open Scope R_scope.

Lemma srgb_to_linear_low (c : R) : c <= 0.03928 -> srgb_to_linear c = c / 12.92.
Proof. intros Hc. unfold srgb_to_linear. destruct (Rle_dec _ _); [reflexivity | contradiction]. Qed.

Lemma srgb_to_linear_high (c : R) :
  0.03928 < c -> srgb_to_linear c = Rpower ((c + 0.055) / 1.055) 2.4.
Proof. intros Hc. unfold srgb_to_linear. destruct (Rle_dec _ _); [lra | reflexivity]. Qed.

Lemma Rpower_pos (x y : R) : 0 < Rpower x y.
Proof. unfold Rpower. apply exp_pos. Qed.

Lemma srgb_to_linear_nonneg (c : R) : 0 <= c -> 0 <= srgb_to_linear c.
Proof.
  intros Hc. unfold srgb_to_linear. destruct (Rle_dec _ _).
  - lra.
  - left. apply Rpower_pos.
Qed.

Lemma srgb_to_linear_one : srgb_to_linear 1 = 1.
Proof.
  rewrite srgb_to_linear_high by lra.
  replace ((1 + 0.055) / 1.055) with 1 by lra.
  unfold Rpower. rewrite ln_1, Rmult_0_r. apply exp_0.
Qed.

Lemma srgb_to_linear_zero : srgb_to_linear 0 = 0.
Proof. rewrite srgb_to_linear_low by lra. lra. Qed.

Lemma calculate_luminance_nonneg (c : rgbR) :
  channels_nonneg c -> 0 <= calculate_luminance c.
Proof.
  destruct c as [[r g] b]. intros (Hr & Hg & Hb). unfold calculate_luminance.
  pose proof (srgb_to_linear_nonneg r Hr).
  pose proof (srgb_to_linear_nonneg g Hg).
  pose proof (srgb_to_linear_nonneg b Hb).
  lra.
Qed.

Lemma calculate_luminance_gray (v : R) :
  calculate_luminance (gray v) = srgb_to_linear v.
Proof. unfold calculate_luminance, gray. lra. Qed.

Lemma luminance_white : calculate_luminance (1, 1, 1) = 1.
Proof.
  change (1, 1, 1) with (gray 1). rewrite calculate_luminance_gray.
  apply srgb_to_linear_one.
Qed.

Lemma luminance_black : calculate_luminance (0, 0, 0) = 0.
Proof.
  change (0, 0, 0) with (gray 0). rewrite calculate_luminance_gray.
  apply srgb_to_linear_zero.
Qed.

Lemma contrast_black_on_white :
  calculate_contrast_ratio (0, 0, 0) (1, 1, 1) = 21.
Proof.
  unfold calculate_contrast_ratio. rewrite luminance_black, luminance_white.
  rewrite Rmax_right, Rmin_left by lra.
  destruct (Req_dec_T _ _); lra.
Qed.

Lemma calculate_contrast_ratio_sym (a b : rgbR) :
  calculate_contrast_ratio a b = calculate_contrast_ratio b a.
Proof.
  unfold calculate_contrast_ratio.
  rewrite (Rmax_comm (calculate_luminance a)), (Rmin_comm (calculate_luminance a)).
  reflexivity.
Qed.

Lemma calculate_contrast_ratio_ge_1 (a b : rgbR) :
  channels_nonneg a -> channels_nonneg b -> 1 <= calculate_contrast_ratio a b.
Proof.
  intros Ha Hb. unfold calculate_contrast_ratio.
  pose proof (calculate_luminance_nonneg a Ha) as Hla.
  pose proof (calculate_luminance_nonneg b Hb) as Hlb.
  set (l1 := calculate_luminance a) in *.
  set (l2 := calculate_luminance b) in *.
  destruct (Req_dec_T _ _) as [|Hne]; [lra|].
  assert (Hd : 0 <= Rmin l1 l2) by (apply Rmin_glb; assumption).
  pose proof (Rmin_l l1 l2) as Hm1. pose proof (Rmax_l l1 l2) as Hm2.
  apply (Rmult_le_reg_r (Rmin l1 l2 + 0.05)); [lra|].
  unfold Rdiv. rewrite Rmult_assoc, Rinv_l by lra. lra.
Qed.

(** C3 (as amended). The contrast ratio is symmetric in its two
    colours, and it is at least 1 as soon as no channel of either colour
    is negative (in particular for colours of the unit cube). *)
Theorem contrast_ratio_symmetric_and_bounded (a b : rgbR) :
  calculate_contrast_ratio a b = calculate_contrast_ratio b a /\
  (channels_nonneg a -> channels_nonneg b -> 1 <= calculate_contrast_ratio a b).
Proof.
  split; [apply calculate_contrast_ratio_sym | apply calculate_contrast_ratio_ge_1].
Qed.

Lemma contrast_ratio_symmetric_and_bounded_witness :
  1 <= calculate_contrast_ratio (0, 0, 0) (1, 1, 1).
Proof.
  apply (proj2 (contrast_ratio_symmetric_and_bounded (0, 0, 0) (1, 1, 1)));
    unfold channels_nonneg; lra.
Defined.

(** C3 (as stated) fails: a colour with negative channels, which
    [normalize_color] lets through, has a "contrast" below 1 with white. *)
Lemma contrast_ratio_below_1 :
  calculate_contrast_ratio (-1, -1, -1) (1, 1, 1) < 1.
Proof.
  unfold calculate_contrast_ratio. rewrite luminance_white.
  change (-1, -1, -1) with (gray (-1)). rewrite calculate_luminance_gray.
  rewrite srgb_to_linear_low by lra.
  rewrite Rmax_right, Rmin_left by lra.
  destruct (Req_dec_T _ _) as [|_]; [lra|].
  apply (Rmult_lt_reg_r (- (-1 / 12.92 + 0.05))); [lra|].
  unfold Rdiv. rewrite Ropp_mult_distr_r_reverse, Rmult_assoc, Rinv_l by lra. lra.
Qed.

Lemma srgb_to_linear_mono_low (v1 v2 : R) :
  v1 <= v2 -> v2 <= 0.03928 -> srgb_to_linear v1 <= srgb_to_linear v2.
Proof. intros H12 H2. rewrite !srgb_to_linear_low by lra. lra. Qed.

Lemma srgb_to_linear_mono_high (v1 v2 : R) :
  v1 <= v2 -> 0.03928 < v1 -> srgb_to_linear v1 <= srgb_to_linear v2.
Proof.
  intros H12 H1. rewrite !srgb_to_linear_high by lra.
  apply Rle_Rpower_l; lra.
Qed.


Lemma Rpower_12_5 (x : R) : 0 < x -> Rpower x 2.4 ^ 5 = x ^ 12.
Proof.
  intros Hx. rewrite <- (Rpower_pow 5) by apply Rpower_pos.
  rewrite Rpower_mult, <- (Rpower_pow 12 x Hx). f_equal. simpl. lra.
Qed.

Lemma pow5_le_inv (a p : R) : 0 <= a -> 0 < p -> a ^ 5 <= p ^ 5 -> a <= p.
Proof.
  intros Ha Hp Hpow. destruct (Rle_dec a p) as [Hle|Hgt]; [exact Hle | exfalso].
  apply Rnot_le_lt in Hgt.
  assert (H4 : p ^ 4 <= a ^ 4) by (apply pow_incr; lra).
  assert (Hp4 : 0 < p ^ 4) by (apply pow_lt; exact Hp).
  replace (a ^ 5) with (a * a ^ 4) in Hpow by ring.
  replace (p ^ 5) with (p * p ^ 4) in Hpow by ring.
  set (a4 := a ^ 4) in *. set (p4 := p ^ 4) in *. nra.
Qed.

(** Across the threshold the comparison of the two branches is one of
    two polynomials. *)
Lemma srgb_to_linear_across (v1 v2 : R) :
  0 <= v1 <= 0.03928 -> 0.03928 < v2 ->
  (srgb_to_linear v1 <= srgb_to_linear v2
   <-> (v1 / 12.92) ^ 5 <= ((v2 + 0.055) / 1.055) ^ 12).
Proof.
  intros H1 H2. rewrite srgb_to_linear_low, srgb_to_linear_high by lra.
  set (a := v1 / 12.92). set (x := (v2 + 0.055) / 1.055).
  assert (Ha : 0 <= a) by (unfold a; lra).
  assert (Hx : 0 < x) by (unfold x; apply Rdiv_lt_0_compat; lra).
  rewrite <- (Rpower_12_5 x Hx). split.
  - intros Hle. apply pow_incr. split; [exact Ha | exact Hle].
  - apply pow5_le_inv; [exact Ha | apply Rpower_pos].
Qed.

(** C4 (as amended). For gray levels [0 <= v1 <= v2 <= 1] the luminance
    of (v1, v1, v1) is at most that of (v2, v2, v2) unless
    [v1 <= 0.03928 < v2 < 0.03929]; black is no lighter than white. The
    pairs where it decreases are exactly those across the threshold with
    [((v2 + 0.055) / 1.055) ^ 12 < (v1 / 12.92) ^ 5]. *)
Theorem luminance_gray_monotone_off_threshold (v1 v2 : R) :
  0 <= v1 -> v1 <= v2 -> v2 <= 1 ->
  (~ (v1 <= 0.03928 < v2 /\ v2 < 0.03929) ->
   calculate_luminance (gray v1) <= calculate_luminance (gray v2)) /\
  (calculate_luminance (gray v1) <= calculate_luminance (gray v2)
   <-> ~ (v1 <= 0.03928 < v2 /\
          ((v2 + 0.055) / 1.055) ^ 12 < (v1 / 12.92) ^ 5)).
Proof.
  intros H0 H12 H1. rewrite !calculate_luminance_gray.
  destruct (Rle_dec v2 0.03928) as [Hlow|Hhigh].
  { pose proof (srgb_to_linear_mono_low v1 v2 H12 Hlow) as Hmono.
    split; [intros _; exact Hmono|].
    split; [intros _ [[_ Habove] _]; lra | intros _; exact Hmono]. }
  apply Rnot_le_lt in Hhigh.
  destruct (Rle_dec v1 0.03928) as [Hv1|Hv1].
  - split.
    + intros Hfar.
      assert (Hv2 : 0.03929 <= v2).
      { destruct (Rle_dec 0.03929 v2) as [Hle|Hgt]; [exact Hle|].
        exfalso. apply Hfar. lra. }
      apply (srgb_to_linear_across v1 v2 (conj H0 Hv1) Hhigh).
      apply Rle_trans with ((0.03928 / 12.92) ^ 5).
      { apply pow_incr. lra. }
      apply Rle_trans with (((0.03929 + 0.055) / 1.055) ^ 12).
      { clear. lra. }
      apply pow_incr. clear - Hv2. split; [lra|].
      unfold Rdiv. apply Rmult_le_compat_r; lra.
    + rewrite (srgb_to_linear_across v1 v2 (conj H0 Hv1) Hhigh). split.
      * intros Hle [_ Hlt]. exact (Rlt_irrefl _ (Rle_lt_trans _ _ _ Hle Hlt)).
      * intros Hnot. apply Rnot_lt_le. intros Hlt. apply Hnot.
        split; [split; assumption | exact Hlt].
  - apply Rnot_le_lt in Hv1.
    pose proof (srgb_to_linear_mono_high v1 v2 H12 Hv1) as Hmono.
    split; [intros _; exact Hmono|].
    split; [intros _ [[Hbelow _] _]; lra | intros _; exact Hmono].
Qed.

Lemma luminance_gray_monotone_off_threshold_witness :
  calculate_luminance (gray 0) <= calculate_luminance (gray 1).
Proof.
  refine (proj1 (luminance_gray_monotone_off_threshold 0 1 _ _ _) _); lra.
Defined.

(** C4 (as stated) fails: just above the threshold the power branch
    starts below the value the linear branch reaches at 0.03928. *)
Lemma luminance_gray_not_monotone :
  0 <= 0.03928 /\ 0.03928 <= 0.039285 /\ 0.039285 <= 1 /\
  calculate_luminance (gray 0.039285) < calculate_luminance (gray 0.03928).
Proof.
  repeat (split; [lra|]). rewrite !calculate_luminance_gray.
  rewrite (srgb_to_linear_low 0.03928), (srgb_to_linear_high 0.039285) by lra.
  set (x := (0.039285 + 0.055) / 1.055). set (t := 0.03928 / 12.92).
  destruct (Rlt_dec (Rpower x 2.4) t) as [Hlt|Hge]; [exact Hlt | exfalso].
  apply Rnot_lt_le in Hge.
  assert (Ht : 0 <= t) by (unfold t; lra).
  pose proof (pow_incr t (Rpower x 2.4) 5 (conj Ht Hge)) as Hpow.
  rewrite Rpower_12_5 in Hpow by (unfold x; lra).
  unfold x, t in Hpow. lra.
Qed.

End ColourFacts.

Section NormalizeFacts.

Local Open Scope Q_scope.

Lemma cmyk_channel_in_unit (c k : Q) :
  in_unit c -> in_unit k -> in_unit ((1 - c) * (1 - k)).
Proof. unfold in_unit. intros [Hc0 Hc1] [Hk0 Hk1]. split; nra. Qed.

Lemma black_in_unit : rgb_in_unit black.
Proof. unfold rgb_in_unit, black, in_unit. repeat split; lra. Qed.

Lemma normalize_color_in_unit (color : raw_color) :
  raw_in_unit color -> rgb_in_unit (normalize_color color).
Proof.
  destruct color as [v|il l| |]; simpl; intros H;
    try apply black_in_unit; [tauto|].
  destruct l as [|[a|] [|[b|] [|[c|] [|[d|] [|e l]]]]]; simpl;
    try apply black_in_unit;
    rewrite ?Forall_cons in H; simpl in H.
  - tauto.
  - tauto.
  - destruct H as (Ha & Hb & Hc & Hd & _).
    auto using cmyk_channel_in_unit.
Qed.

Lemma normalize_color_bad_shape (il : bool) (l : list component) :
  (length l <> 1%nat /\ length l <> 3%nat /\ length l <> 4%nat) \/ In NotNum l ->
  normalize_color (Seq il l) = black.
Proof.
  intros Hbad.
  destruct l as [|[a|] [|[b|] [|[c|] [|[d|] [|e l]]]]]; simpl;
    try reflexivity; exfalso; simpl in Hbad;
    destruct Hbad as [(H1 & H3 & H4)|Hin]; try congruence;
    intuition discriminate.
Qed.

(** C5 (as amended). When the numbers of the raw colour lie in [0, 1],
    [normalize_color] returns a triple of the unit cube; a 4-sequence is
    converted by the CMYK formula; [None], an unrecognized object, a
    sequence of another length and a sequence with a non-numeric
    component give black, never an error. *)
Theorem normalize_color_unit_range (color : raw_color) :
  raw_in_unit color ->
  rgb_in_unit (normalize_color color) /\
  (forall il c m y k, color = Seq il [Num c; Num m; Num y; Num k] ->
     normalize_color color = ((1 - c) * (1 - k), (1 - m) * (1 - k), (1 - y) * (1 - k))) /\
  (color = Absent \/ color = Unrecognized -> normalize_color color = black) /\
  (forall il l, color = Seq il l ->
     (length l <> 1%nat /\ length l <> 3%nat /\ length l <> 4%nat) \/ In NotNum l ->
     normalize_color color = black).
Proof.
  intros H. split; [apply normalize_color_in_unit, H|].
  split; [intros il c m y k ->; reflexivity|].
  split; [intros [->| ->]; reflexivity|].
  intros il l ->. apply normalize_color_bad_shape.
Qed.

Lemma normalize_color_unit_range_witness :
  rgb_in_unit (normalize_color (Seq false [Num 0.2; Num 0.4; Num 0.6; Num 0.1])).
Proof.
  apply (normalize_color_unit_range (Seq false [Num 0.2; Num 0.4; Num 0.6; Num 0.1])).
  simpl. unfold in_unit. repeat constructor; simpl; lra.
Defined.

(** C5 (as stated) fails: nothing clamps the components, a scalar 5
    comes back as (5, 5, 5). *)
Lemma normalize_color_out_of_range :
  normalize_color (Scalar 5) = (5, 5, 5) /\
  ~ rgb_in_unit (normalize_color (Scalar 5)).
Proof.
  split; [reflexivity|]. simpl. unfold in_unit. intros [[_ H] _]. lra.
Qed.

End NormalizeFacts.

(** ** Python strings: what [in] means *)

Lemma starts_with_spec (sub s : str) :
  starts_with sub s = true <-> exists post, s = sub ++ post.
Proof.
  revert s. induction sub as [|a sub IH]; intros s; simpl.
  - split; [eauto | reflexivity].
  - destruct s as [|b s].
    + split; [discriminate | intros [post Hp]; discriminate Hp].
    + rewrite andb_true_iff, N.eqb_eq, IH. split.
      * intros [-> [post ->]]. eauto.
      * intros [post Hp]. injection Hp as -> ->. eauto.
Qed.

Lemma contains_spec (sub s : str) :
  contains sub s = true <-> exists pre post, s = pre ++ sub ++ post.
Proof.
  induction s as [|c s IH].
  - simpl. rewrite orb_false_r, starts_with_spec. split.
    + intros [post Hp]. exists [], post. exact Hp.
    + intros (pre & post & Hp). destruct pre; [eauto | discriminate Hp].
  - change (contains sub (c :: s))
      with (starts_with sub (c :: s) || contains sub s).
    rewrite orb_true_iff, starts_with_spec, IH. split.
    + intros [[post Hp]|(pre & post & Hp)].
      * exists [], post. exact Hp.
      * exists (c :: pre), post. rewrite Hp. reflexivity.
    + intros (pre & post & Hp). destruct pre as [|d pre].
      * left. eauto.
      * right. injection Hp as -> ->. eauto.
Qed.

(** ** Heuristic classifiers *)

Lemma Qle_bool_false_iff (a b : Q) : Qle_bool a b = false <-> (b < a)%Q.
Proof.
  rewrite <- not_true_iff_false, Qle_bool_iff. split.
  - apply Qnot_le_lt.
  - apply Qlt_not_le.
Qed.

Lemma Qlt_bool_iff (a b : Q) : Qlt_bool a b = true <-> (a < b)%Q.
Proof. unfold Qlt_bool. rewrite negb_true_iff. apply Qle_bool_false_iff. Qed.

(** C6. [is_large_text_by_wcag] holds exactly when the size is at least
    18, or at least 14 with a font name that contains one of the six
    bold terms (case-sensitive); the four sample evaluations. *)
Theorem is_large_text_by_wcag_spec (font_size : Q) (font_name : str) :
  (is_large_text_by_wcag font_size font_name = true <->
   (18 <= font_size)%Q \/
   ((14 <= font_size)%Q /\
    exists bold_term pre post,
      In bold_term [py "Bold"; py "BoldItalic"; py "Black"; py "Heavy";
                    py "-Bold"; py "bold"] /\
      font_name = pre ++ bold_term ++ post)) /\
  is_large_text_by_wcag 18 (py "Arial") = true /\
  is_large_text_by_wcag 14 (py "Arial-Bold") = true /\
  is_large_text_by_wcag 14 (py "Arial") = false /\
  is_large_text_by_wcag 13.9 (py "Arial-Bold") = false.
Proof.
  split; [|repeat split; reflexivity].
  unfold is_large_text_by_wcag.
  assert (Hbold : existsb (fun t => contains t font_name) bold_terms = true <->
                  exists bold_term pre post,
                    In bold_term bold_terms /\ font_name = pre ++ bold_term ++ post).
  { rewrite existsb_exists. split.
    - intros (t & Hin & Hc). apply contains_spec in Hc as (pre & post & Hc). eauto.
    - intros (t & pre & post & Hin & Hc). exists t. split; [exact Hin|].
      apply contains_spec. eauto. }
  change [py "Bold"; py "BoldItalic"; py "Black"; py "Heavy"; py "-Bold"; py "bold"]
    with bold_terms.
  set (is_bold := existsb (fun t => contains t font_name) bold_terms) in *.
  destruct (Qle_bool 18 font_size) eqn:H18.
  - apply Qle_bool_iff in H18. tauto.
  - apply Qle_bool_false_iff in H18.
    destruct (Qle_bool 14 font_size) eqn:H14; cbn [andb].
    + apply Qle_bool_iff in H14.
      destruct is_bold.
      * split; [|reflexivity]. intros _. right. split; [exact H14|]. apply Hbold, eq_refl.
      * split; [discriminate|]. intros [H|[_ H]].
        -- exfalso. apply (Qlt_not_le _ _ H18 H).
        -- apply Hbold in H. discriminate H.
    + apply Qle_bool_false_iff in H14. split; [discriminate|].
      intros [H|[H _]]; exfalso.
      * apply (Qlt_not_le _ _ H18 H).
      * apply (Qlt_not_le _ _ H14 H).
Qed.

(** ** Aggregator: the summary counts every issue once *)

Section SumOver.

Context `{Countable K} {V : Type} (count : V -> nat).

Lemma sum_over_comm (j1 j2 : K) (z1 z2 : V) (y : nat) :
  count z1 + (count z2 + y) = count z2 + (count z1 + y).
Proof. lia. Qed.

Lemma sum_over_empty : sum_over count (∅ : gmap K V) = 0.
Proof. unfold sum_over. apply map_fold_empty. Qed.

Lemma sum_over_insert (k : K) (v : V) (m : gmap K V) :
  sum_over count (<[k := v]> m) + default 0 (count <$> m !! k)
  = count v + sum_over count m.
Proof.
  unfold sum_over. destruct (m !! k) as [old|] eqn:Hk; simpl.
  - rewrite (map_fold_delete_L _ _ k old m);
      [|intros; apply sum_over_comm; assumption | exact Hk].
    rewrite <- (insert_delete_eq m k v).
    rewrite map_fold_insert_L;
      [|intros; apply sum_over_comm; assumption | apply lookup_delete_eq].
    lia.
  - rewrite map_fold_insert_L;
      [|intros; apply sum_over_comm; assumption | exact Hk].
    lia.
Qed.

End SumOver.

Section SummaryFacts.

Variable is_word : char -> bool.

Lemma summarize_issue_counts (summary : Summary) (issue : AccessibilityIssue) :
  let summary' := summarize_issue is_word summary issue in
  total_places (overall summary') = total_places (overall summary) + 1 /\
  sum_over st_places (by_severity summary')
  = sum_over st_places (by_severity summary) + 1.
Proof.
  simpl. split; [reflexivity|].
  pose proof (sum_over_insert st_places (Issue.severity issue)
    (mkSeverityTotals
       (st_places (default (mkSeverityTotals 0 0 ∅)
                     (by_severity summary !! Issue.severity issue)) + 1)
       (st_words (default (mkSeverityTotals 0 0 ∅)
                    (by_severity summary !! Issue.severity issue))
        + count_words is_word (Issue.text issue))
       (<[Issue.issue_type issue :=
            bump (count_words is_word (Issue.text issue))
              (default zero_counter
                 (st_types (default (mkSeverityTotals 0 0 ∅)
                    (by_severity summary !! Issue.severity issue))
                  !! Issue.issue_type issue))]>
          (st_types (default (mkSeverityTotals 0 0 ∅)
             (by_severity summary !! Issue.severity issue)))))
    (by_severity summary)) as Hsum.
  simpl in Hsum.
  destruct (by_severity summary !! Issue.severity issue) as [g|]; simpl in *; lia.
Qed.

Lemma summarize_fold_counts (l : list AccessibilityIssue) (summary : Summary) :
  let summary' := fold_left (summarize_issue is_word) l summary in
  total_places (overall summary') = total_places (overall summary) + length l /\
  sum_over st_places (by_severity summary')
  = sum_over st_places (by_severity summary) + length l.
Proof.
  revert summary. induction l as [|issue l IH]; intros summary.
  - simpl. lia.
  - cbn [fold_left length].
    destruct (IH (summarize_issue is_word summary issue)) as [IH1 IH2].
    destruct (summarize_issue_counts summary issue) as [H1 H2].
    cbv zeta in *. rewrite IH1, IH2, H1, H2. lia.
Qed.

End SummaryFacts.

(** ** Aggregator: one-off findings in the two groupings *)



Section GroupingFacts.

Variable lower : str -> str.
Variable is_word : char -> bool.




Lemma text_and_page_fold_lookup (l : list AccessibilityIssue)
    (m : gmap str TextPageGroup.t) (k : str) :
  3 <= length k ->
  fold_left (text_and_page_step lower) l m !! k
  = fold_left (fun og issue =>
                 Some (text_and_page_add (default TextPageGroup.empty og) issue))
              (occurrences lower k l) (m !! k).
Proof.
  intros Hk. revert m. induction l as [|issue l IH]; intros m; [reflexivity|].
  cbn [fold_left]. rewrite IH. unfold occurrences. cbn [List.filter].
  unfold text_and_page_step at 1.
  destruct (bool_decide _) eqn:Hkey.
  - apply bool_decide_eq_true in Hkey. rewrite Hkey.
    destruct (length k <? 3) eqn:Hlen; [apply Nat.ltb_lt in Hlen; lia|].
    cbn [fold_left]. rewrite lookup_insert_eq. reflexivity.
  - apply bool_decide_eq_false in Hkey.
    destruct (length _ <? 3); [reflexivity|].
    rewrite lookup_insert_ne by exact Hkey. reflexivity.
Qed.

Lemma pattern_fold_lookup (l : list AccessibilityIssue)
    (m : gmap str PatternGroup.t) (k : str) :
  fold_left (pattern_step lower is_word) l m !! k
  = fold_left (fun og issue =>
                 Some (pattern_add is_word k (default PatternGroup.empty og) issue))
              (List.filter (fun issue => bool_decide (pattern_key lower issue = Some k)) l)
              (m !! k).
Proof.
  revert m. induction l as [|issue l IH]; intros m; [reflexivity|].
  cbn [fold_left]. rewrite IH. cbn [List.filter].
  unfold pattern_step at 1.
  destruct (bool_decide _) eqn:Hkey.
  - apply bool_decide_eq_true in Hkey. rewrite Hkey.
    cbn [fold_left]. rewrite lookup_insert_eq. reflexivity.
  - apply bool_decide_eq_false in Hkey.
    destruct (pattern_key lower issue) as [k'|]; [|reflexivity].
    rewrite lookup_insert_ne by congruence. reflexivity.
Qed.






End GroupingFacts.

(** ** Line reconstructor *)

Lemma insert_by_x0_In (g c : glyph) (l : list glyph) :
  In g (insert_by_x0 c l) <-> g = c \/ In g l.
Proof.
  induction l as [|d l IH]; simpl.
  - intuition.
  - destruct (Qle_bool _ _); simpl; [intuition|]. rewrite IH. intuition.
Qed.

Lemma sort_by_x0_In (g : glyph) (l : list glyph) :
  In g (sort_by_x0 l) <-> In g l.
Proof.
  unfold sort_by_x0. induction l as [|c l IH]; simpl; [reflexivity|].
  rewrite insert_by_x0_In, IH. intuition.
Qed.

Lemma in_band_iff (y tolerance : Q) (c : glyph) :
  in_band y tolerance c = true <-> (Qabs (Glyph.y0 c - y) < tolerance)%Q.
Proof. unfold in_band. apply Qlt_bool_iff. Qed.

Lemma build_text_line_In (pg : Page) (y tolerance : Q) (g : glyph) :
  In g (build_text_line pg y tolerance).1 <->
  In g (chars pg) /\ (Qabs (Glyph.y0 g - y) < tolerance)%Q.
Proof.
  unfold build_text_line. cbn [fst].
  rewrite sort_by_x0_In, filter_In, in_band_iff. reflexivity.
Qed.

Lemma bands_disjoint (y0 y1 y2 tolerance : Q) :
  (2 * tolerance <= Qabs (y1 - y2))%Q ->
  (Qabs (y0 - y1) < tolerance)%Q -> (Qabs (y0 - y2) < tolerance)%Q -> False.
Proof.
  intros Hfar H1 H2.
  apply Qabs_Qlt_condition in H1 as [H1a H1b].
  apply Qabs_Qlt_condition in H2 as [H2a H2b].
  destruct (Qlt_le_dec (y1 - y2) 0) as [Hneg|Hpos].
  - rewrite Qabs_neg in Hfar by lra. lra.
  - rewrite Qabs_pos in Hfar by lra. lra.
Qed.

Lemma get_text_line_miss (self : Analyzer) (pg : Page) (y tolerance : Q) :
  line_cache self !! (page_id pg, round2 y) = None ->
  (get_text_line self pg y tolerance).2 = build_text_line pg y tolerance /\
  line_cache (get_text_line self pg y tolerance).1
  = <[(page_id pg, round2 y) := build_text_line pg y tolerance]> (line_cache self).
Proof. intros Hmiss. unfold get_text_line. rewrite Hmiss. split; reflexivity. Qed.

Lemma get_text_line_miss_eq (self : Analyzer) (pg : Page) (y tolerance : Q) :
  line_cache self !! (page_id pg, round2 y) = None ->
  get_text_line self pg y tolerance
  = (mkAnalyzer (issues self) (color_issues self)
       (<[(page_id pg, round2 y) := build_text_line pg y tolerance]> (line_cache self))
       (problematic_colors_found self)
       (<[(page_id pg, round2 y) := (build_text_line pg y tolerance).2]>
          (full_text_cache self)),
     build_text_line pg y tolerance).
Proof. intros Hmiss. unfold get_text_line. rewrite Hmiss. reflexivity. Qed.

Lemma get_text_line_hit (self : Analyzer) (pg : Page) (y tolerance : Q)
    (line : text_line) :
  line_cache self !! (page_id pg, round2 y) = Some line ->
  get_text_line self pg y tolerance = (self, line).
Proof. intros Hhit. unfold get_text_line. rewrite Hhit. reflexivity. Qed.

(** C9 (as amended). On a page whose cache was cleared, the line got for
    [y1] holds exactly the characters of the page with
    [|y0 - y1| < tolerance]. A request for [y2] that follows returns that
    same cached line when [y2] rounds to the same cache key, and exactly
    the characters with [|y0 - y2| < tolerance] otherwise; in the latter
    case two lines at least [2 * tolerance] apart share no character. *)
Theorem lines_of_two_requests (self : Analyzer) (pg : Page)
    (y1 y2 tolerance : Q) :
  line_cache self = ∅ ->
  let first := get_text_line self pg y1 tolerance in
  let second := get_text_line first.1 pg y2 tolerance in
  (forall g, In g first.2.1 <->
             In g (chars pg) /\ (Qabs (Glyph.y0 g - y1) < tolerance)%Q) /\
  (round2 y1 = round2 y2 -> second.2 = first.2) /\
  (round2 y1 <> round2 y2 ->
   (forall g, In g second.2.1 <->
              In g (chars pg) /\ (Qabs (Glyph.y0 g - y2) < tolerance)%Q) /\
   ((2 * tolerance <= Qabs (y1 - y2))%Q ->
    forall g, In g first.2.1 -> In g second.2.1 -> False)).
Proof.
  intros Hclear first second.
  destruct (get_text_line_miss self pg y1 tolerance) as [Hline1 Hcache1].
  { rewrite Hclear. apply lookup_empty. }
  split; [|split].
  - intros g. unfold first. rewrite Hline1. apply build_text_line_In.
  - intros Hkey. unfold second.
    rewrite (get_text_line_hit first.1 pg y2 tolerance first.2); [reflexivity|].
    unfold first. rewrite Hcache1, Hline1, <- Hkey. apply lookup_insert_eq.
  - intros Hkeys.
    destruct (get_text_line_miss first.1 pg y2 tolerance) as [Hline2 _].
    { unfold first. rewrite Hcache1, Hclear, lookup_insert_ne by congruence.
      apply lookup_empty. }
    unfold second, first in *. rewrite Hline1, Hline2.
    split; [intros g; apply build_text_line_In|].
    intros Hfar g [_ H1]%build_text_line_In [_ H2]%build_text_line_In.
    exact (bands_disjoint _ _ _ _ Hfar H1 H2).
Qed.

Lemma lines_of_two_requests_witness :
  Forall
    (fun g =>
       ~ In g (get_text_line (get_text_line new_analyzer two_line_page 0 (1 # 4)).1
                 two_line_page 1 (1 # 4)).2.1)
    (get_text_line new_analyzer two_line_page 0 (1 # 4)).2.1.
Proof.
  apply List.Forall_forall. intros g Hfirst Hsecond.
  destruct (lines_of_two_requests new_analyzer two_line_page 0 1 (1 # 4) eq_refl)
    as (_ & _ & Hother).
  destruct Hother as [_ Hapart].
  - vm_compute. discriminate.
  - refine (Hapart _ g Hfirst Hsecond). vm_compute. discriminate.
Defined.

(** A request that hits the cache gets the line of the earlier request:
    with the default tolerance, the line got for 0.004 after the one for
    0.001 holds the character at height -1.998, more than 2.0 away, and
    lacks the one at height 2.002. *)
Lemma cached_line_ignores_band :
  let pg := mkPage 1 [arial10 "a" 0 (-1.998); arial10 "b" 5 2.002] in
  let first := get_text_line new_analyzer pg 0.001 default_tolerance in
  let second := get_text_line first.1 pg 0.004 default_tolerance in
  second.2.1 = [arial10 "a" 0 (-1.998)] /\
  ~ (Qabs (-1.998 - 0.004) < default_tolerance)%Q /\
  (Qabs (2.002 - 0.004) < default_tolerance)%Q.
Proof.
  cbv zeta. split; [vm_compute; reflexivity|].
  split; [vm_compute; discriminate | vm_compute; reflexivity].
Qed.

(** C9 (as stated) fails: with the default tolerance the lines got for
    the heights 0 and 1 of [two_line_page], as [analyze_page] asks for
    them, both hold the character at height 0. *)
Lemma close_lines_share_glyph :
  let first := get_text_line new_analyzer two_line_page 0 default_tolerance in
  let second := get_text_line first.1 two_line_page 1 default_tolerance in
  (0 <> 1)%Q /\
  In (arial10 "a" 0 0) first.2.1 /\ In (arial10 "a" 0 0) second.2.1.
Proof.
  split; [discriminate|]. vm_compute. split; left; reflexivity.
Qed.

(** ** Issue detector: the heading branch of the font-size check *)

Lemma starts_with_app_mismatch (p a b : str) :
  starts_with (take (length a) p) a = false -> starts_with p (a ++ b) = false.
Proof.
  revert p. induction a as [|x a IH]; intros p.
  - simpl. destruct (take 0 p); discriminate.
  - destruct p as [|y p]; simpl; [discriminate|].
    destruct (y =? x)%N; simpl; [apply IH | reflexivity].
Qed.

Lemma contrast_description_not_heading (is_large_wcag is_bold : bool)
    (avg_size : Q) (contrast_ratio : R) (color_name : option str) :
  starts_with heading_prefix
    (contrast_description is_large_wcag is_bold avg_size contrast_ratio color_name)
  = false.
Proof.
  unfold contrast_description.
  destruct color_name as [[|c name]|]; destruct is_large_wcag;
    rewrite <- ?app_assoc; apply starts_with_app_mismatch; reflexivity.
Qed.

Lemma text_size_description_not_heading (font_size : Q) :
  starts_with heading_prefix (text_size_description font_size) = false.
Proof. unfold text_size_description. apply starts_with_app_mismatch. reflexivity. Qed.

(** The guard of the heading branch, [is_bold and font_size >= 14]
    followed by [font_size < MIN_HEADING_SIZE], never holds. *)
Lemma heading_guard_false (is_bold : bool) (font_size : Q) :
  is_bold && Qle_bool 14 font_size
  && Qlt_bool font_size (inject_Z MIN_HEADING_SIZE) = false.
Proof.
  destruct is_bold; [|reflexivity]. cbn [andb].
  destruct (Qle_bool 14 font_size) eqn:Hge; [|reflexivity]. cbn [andb].
  apply Qle_bool_iff in Hge. apply not_true_iff_false. intros Hlt.
  apply Qlt_bool_iff in Hlt. unfold MIN_HEADING_SIZE in Hlt.
  apply (Qlt_not_le _ _ Hlt). exact Hge.
Qed.

Section DetectorFacts.

Variable lower : str -> str.

Lemma analyze_char_contrast_quiet (page_num : Z) (text : str) (avg_size : Q)
    (is_bold is_large_wcag : bool) (required : Q)
    (acc : Analyzer * list AccessibilityIssue) (char : glyph) :
  Forall quiet acc.2 ->
  Forall quiet (analyze_char_contrast page_num text avg_size is_bold
                  is_large_wcag required acc char).2.
Proof.
  destruct acc as [self found]. intros Hacc. unfold analyze_char_contrast.
  destruct (Rlt_dec _ _); [|exact Hacc].
  cbn [snd]. apply Forall_app. split; [exact Hacc|].
  constructor; [|constructor].
  apply contrast_description_not_heading.
Qed.

Lemma fold_contrast_quiet (page_num : Z) (text : str) (avg_size : Q)
    (is_bold is_large_wcag : bool) (required : Q) (line_chars : list glyph)
    (acc : Analyzer * list AccessibilityIssue) :
  Forall quiet acc.2 ->
  Forall quiet
    (fold_left (analyze_char_contrast page_num text avg_size is_bold
                  is_large_wcag required) line_chars acc).2.
Proof.
  revert acc. induction line_chars as [|c l IH]; intros acc Hacc; [exact Hacc|].
  cbn [fold_left]. apply IH, analyze_char_contrast_quiet, Hacc.
Qed.

Lemma analyze_text_line_contrast_quiet (self : Analyzer) (page_num : Z)
    (line_chars : list glyph) (line_text : str) :
  Forall quiet (analyze_text_line_contrast self page_num line_chars line_text).2.
Proof.
  unfold analyze_text_line_contrast.
  destruct line_chars as [|first rest]; [constructor|].
  destruct (strip line_text); [constructor|].
  destruct (length _ <? 3); [constructor|].
  apply fold_contrast_quiet. constructor.
Qed.

Lemma font_size_issues_quiet (page_num : Z) (char : glyph) (text : str) :
  Forall quiet (font_size_issues page_num char text).
Proof.
  unfold font_size_issues.
  pose proof (heading_guard_false (contains (py "Bold") (Glyph.fontname char))
                (Glyph.size char)) as Hguard.
  destruct (contains (py "Bold") (Glyph.fontname char) && Qle_bool 14 (Glyph.size char)).
  - cbn [andb] in Hguard. rewrite Hguard. constructor.
  - clear Hguard.
    destruct (negb (is_large_text_by_wcag _ _)); [|constructor].
    destruct (Qlt_bool _ _); constructor; [|constructor].
    apply text_size_description_not_heading.
Qed.

Lemma readability_issues_quiet (page_num : Z) (char : glyph) (text : str) :
  Forall quiet (readability_issues lower page_num char text).
Proof.
  unfold readability_issues, check_font_readability.
  destruct (List.find _ ACCESSIBLE_FONTS); [constructor|].
  destruct (List.find _ POOR_READABILITY_FONTS);
    (constructor; [|constructor]); apply starts_with_app_mismatch; reflexivity.
Qed.

Lemma analyze_char_quiet (page_num : Z) (pg : Page) (st : PageScan) (char : glyph) :
  Forall quiet (page_issues st) ->
  Forall quiet (page_issues (analyze_char lower page_num pg st char)).
Proof.
  intros Hst. unfold analyze_char.
  destruct (isspace _ || _); [exact Hst|].
  assert (Hmid : forall st', Forall quiet (page_issues st') ->
    Forall quiet (page_issues
      (let '(self, (line_chars, line_text)) :=
         get_text_line (scan_self st') pg (Glyph.y0 char) default_tolerance in
       let st0 := mkPageScan self (processed_lines st') (page_issues st') in
       let normalized_text := remove_duplicate_chars (strip line_text) in
       if length normalized_text <? 3 then st0
       else mkPageScan (scan_self st0) (processed_lines st0)
              (page_issues st0 ++ font_size_issues page_num char normalized_text
               ++ readability_issues lower page_num char normalized_text)))).
  { intros st' Hst'.
    destruct (get_text_line _ _ _ _) as [self [line_chars line_text]].
    cbv zeta. destruct (length _ <? 3); [exact Hst'|].
    cbn [page_issues]. rewrite !Forall_app.
    auto using font_size_issues_quiet, readability_issues_quiet. }
  destruct (bool_decide _); [apply Hmid, Hst|].
  apply Hmid.
  destruct (get_text_line _ _ _ _) as [self [line_chars line_text]].
  destruct (strip line_text) eqn:Hstrip.
  - cbn [page_issues]. rewrite app_nil_r. exact Hst.
  - pose proof (analyze_text_line_contrast_quiet self page_num line_chars line_text)
      as Hcontrast.
    destruct (analyze_text_line_contrast _ _ _ _) as [self' found].
    cbn [page_issues]. apply Forall_app. split; [exact Hst | exact Hcontrast].
Qed.

Lemma analyze_page_quiet (self : Analyzer) (page_num : Z) (pg : Page) :
  Forall quiet (analyze_page lower self page_num pg).2.
Proof.
  unfold analyze_page. cbn [snd].
  assert (Hfold : forall l st, Forall quiet (page_issues st) ->
            Forall quiet (page_issues (fold_left (analyze_char lower page_num pg) l st))).
  { induction l as [|c l IH]; intros st Hst; [exact Hst|].
    cbn [fold_left]. apply IH, analyze_char_quiet, Hst. }
  apply Hfold. constructor.
Qed.

(** C10. The guard of the heading branch of the font-size check asks for
    [font_size >= 14] and [font_size < MIN_HEADING_SIZE = 14] at once, so
    it never holds, and no issue that [analyze_page] returns has the
    description of an undersized heading. *)
Theorem heading_branch_unreachable (self : Analyzer) (page_num : Z) (pg : Page) :
  (forall char : glyph,
     contains (py "Bold") (Glyph.fontname char) && Qle_bool 14 (Glyph.size char)
     && Qlt_bool (Glyph.size char) (inject_Z MIN_HEADING_SIZE) = false) /\
  (forall issue, In issue (analyze_page lower self page_num pg).2 ->
     reports_heading issue = false).
Proof.
  split; [intros char; apply heading_guard_false|].
  intros issue Hin.
  pose proof (analyze_page_quiet self page_num pg) as Hall.
  rewrite List.Forall_forall in Hall. exact (Hall issue Hin).
Qed.

End DetectorFacts.

(** ** Issue detector: black text on the white background *)

Lemma Q2R_0 : Q2R 0 = 0%R.
Proof. unfold Q2R. simpl. lra. Qed.

Lemma Q2R_1 : Q2R 1 = 1%R.
Proof. unfold Q2R. simpl. lra. Qed.

Lemma required_contrast_below_21 (is_large_wcag : bool) :
  (Q2R (if is_large_wcag then MIN_CONTRAST_LARGE else MIN_CONTRAST_RATIO) <= 21)%R.
Proof. destruct is_large_wcag; unfold Q2R; simpl; lra. Qed.

Lemma analyze_char_contrast_black (page_num : Z) (text : str) (avg_size : Q)
    (is_bold is_large_wcag : bool)
    (acc : Analyzer * list AccessibilityIssue) (char : glyph) :
  plain_black_glyph char ->
  analyze_char_contrast page_num text avg_size is_bold is_large_wcag
    (if is_large_wcag then MIN_CONTRAST_LARGE else MIN_CONTRAST_RATIO) acc char
  = acc.
Proof.
  intros [Hplain Hnorm]. destruct acc as [self found].
  unfold analyze_char_contrast. rewrite Hplain, Hnorm.
  unfold extract_background_color, black, rgb_to_R.
  rewrite Q2R_0, Q2R_1, contrast_black_on_white.
  pose proof (required_contrast_below_21 is_large_wcag).
  destruct (Rlt_dec _ _); [lra | reflexivity].
Qed.

Lemma fold_contrast_black (page_num : Z) (text : str) (avg_size : Q)
    (is_bold is_large_wcag : bool) (l : list glyph)
    (acc : Analyzer * list AccessibilityIssue) :
  Forall plain_black_glyph l ->
  fold_left
    (analyze_char_contrast page_num text avg_size is_bold is_large_wcag
       (if is_large_wcag then MIN_CONTRAST_LARGE else MIN_CONTRAST_RATIO)) l acc
  = acc.
Proof.
  intros Hblack. revert acc.
  induction Hblack as [|c l Hc Hl IH]; intros acc; [reflexivity|].
  cbn [fold_left]. rewrite analyze_char_contrast_black by exact Hc. apply IH.
Qed.

(** A line of plain black characters raises no contrast issue and
    leaves the analyzer as it was. *)
Lemma analyze_text_line_contrast_black (self : Analyzer) (page_num : Z)
    (line_chars : list glyph) (line_text : str) :
  Forall plain_black_glyph line_chars ->
  analyze_text_line_contrast self page_num line_chars line_text = (self, []).
Proof.
  intros Hblack. unfold analyze_text_line_contrast.
  destruct line_chars as [|first rest]; [reflexivity|].
  destruct (strip line_text); [reflexivity|].
  destruct (length _ <? 3); [reflexivity|].
  apply fold_contrast_black, Hblack.
Qed.

(** ** Issue detector: one turn of the page loop *)

Section PageLoopFacts.

Variable lower : str -> str.

(** A character of a line that was already processed and is cached. *)
Lemma analyze_char_seen (page_num : Z) (pg : Page) (self : Analyzer)
    (processed : gset Z) (found : list AccessibilityIssue) (char : glyph)
    (line_chars : list glyph) (line_text : str) :
  isspace (Glyph.text char) || bool_decide (strip (Glyph.text char) = []) = false ->
  round2 (Glyph.y0 char) ∈ processed ->
  line_cache self !! (page_id pg, round2 (Glyph.y0 char)) = Some (line_chars, line_text) ->
  analyze_char lower page_num pg (mkPageScan self processed found) char
  = let normalized_text := remove_duplicate_chars (strip line_text) in
    if length normalized_text <? 3 then mkPageScan self processed found
    else mkPageScan self processed
           (found ++ font_size_issues page_num char normalized_text
                  ++ readability_issues lower page_num char normalized_text).
Proof.
  intros Hprint Hseen Hhit. unfold analyze_char. rewrite Hprint.
  rewrite bool_decide_eq_true_2 by exact Hseen.
  cbn [scan_self processed_lines page_issues].
  rewrite (get_text_line_hit _ _ _ _ _ Hhit). reflexivity.
Qed.

(** The first character met on a line of plain black characters. *)
Lemma analyze_char_fresh_black (page_num : Z) (pg : Page) (self : Analyzer)
    (processed : gset Z) (found : list AccessibilityIssue) (char : glyph) :
  isspace (Glyph.text char) || bool_decide (strip (Glyph.text char) = []) = false ->
  round2 (Glyph.y0 char) ∉ processed ->
  line_cache self !! (page_id pg, round2 (Glyph.y0 char)) = None ->
  Forall plain_black_glyph
    (build_text_line pg (Glyph.y0 char) default_tolerance).1 ->
  analyze_char lower page_num pg (mkPageScan self processed found) char
  = let key := (page_id pg, round2 (Glyph.y0 char)) in
    let line := build_text_line pg (Glyph.y0 char) default_tolerance in
    let self1 :=
      mkAnalyzer (issues self) (color_issues self)
        (<[key := line]> (line_cache self)) (problematic_colors_found self)
        (<[key := line.2]> (full_text_cache self)) in
    let normalized_text := remove_duplicate_chars (strip line.2) in
    if length normalized_text <? 3
    then mkPageScan self1 ({[round2 (Glyph.y0 char)]} ∪ processed) (found ++ [])
    else mkPageScan self1 ({[round2 (Glyph.y0 char)]} ∪ processed)
           ((found ++ []) ++ font_size_issues page_num char normalized_text
              ++ readability_issues lower page_num char normalized_text).
Proof.
  intros Hprint Hfresh Hmiss Hblack. unfold analyze_char. rewrite Hprint.
  rewrite bool_decide_eq_false_2 by exact Hfresh.
  cbn [scan_self processed_lines page_issues].
  rewrite (get_text_line_miss_eq _ _ _ _ Hmiss).
  destruct (build_text_line pg (Glyph.y0 char) default_tolerance)
    as [line_chars line_text] eqn:Hline.
  cbn [fst snd] in *.
  assert (Hquiet : forall self',
            match strip line_text with
            | [] => (self', [])
            | _ => analyze_text_line_contrast self' page_num line_chars line_text
            end = (self', @nil AccessibilityIssue)).
  { intros self'. destruct (strip line_text); [reflexivity|].
    apply analyze_text_line_contrast_black, Hblack. }
  rewrite Hquiet. cbn [scan_self processed_lines page_issues].
  erewrite get_text_line_hit; [|cbn [line_cache]; apply lookup_insert_eq].
  reflexivity.
Qed.

Lemma check_font_readability_arial :
  lowers_ascii lower ->
  check_font_readability lower (py "Arial")
  = (true, py "Хорошо читаемый шрифт: Arial").
Proof.
  intros Hlower. unfold check_font_readability.
  replace (normalize_font_name (py "Arial")) with (py "Arial") by reflexivity.
  unfold ACCESSIBLE_FONTS. cbn [List.find].
  rewrite (Hlower (py "Arial"))
    by (unfold is_ascii; repeat (constructor; [reflexivity|]); constructor).
  replace (contains (ascii_lower (py "Arial")) (ascii_lower (py "Arial")))
    with true by reflexivity.
  reflexivity.
Qed.

Lemma hello_char_issues (char : glyph) :
  lowers_ascii lower ->
  In char (chars hello_page) ->
  font_size_issues 1 char (py "helo") ++ readability_issues lower 1 char (py "helo")
  = [hello_issue char].
Proof.
  intros Hlower Hin.
  assert (Hread : readability_issues lower 1 char (py "helo") = []).
  { unfold readability_issues.
    replace (Glyph.fontname char) with (py "Arial")
      by (simpl in Hin; intuition (subst; reflexivity)).
    rewrite (check_font_readability_arial Hlower). reflexivity. }
  rewrite Hread, app_nil_r.
  simpl in Hin. intuition (subst; reflexivity).
Qed.

(** The issues of a scan of [hello_page] whose cache starts empty. *)
Lemma hello_page_found (self : Analyzer) :
  lowers_ascii lower ->
  line_cache self = ∅ ->
  let scan := analyze_page lower self 1 hello_page in
  scan.2 = List.map hello_issue (chars hello_page) /\ issues scan.1 = issues self.
Proof.
  intros Hlower Hclear. unfold analyze_page.
  cbn [chars hello_page fold_left].
  rewrite analyze_char_fresh_black;
    [| reflexivity | set_solver | rewrite Hclear; apply lookup_empty
     | vm_compute; repeat constructor ].
  cbv zeta.
  replace (build_text_line hello_page (Glyph.y0 (arial10 "h" 72 700)) default_tolerance)
    with (chars hello_page, py "hello") by reflexivity.
  cbn [fst snd].
  replace (remove_duplicate_chars (strip (py "hello"))) with (py "helo") by reflexivity.
  replace (length (py "helo") <? 3) with false by reflexivity.
  rewrite hello_char_issues by (try exact Hlower; simpl; tauto).
  repeat (erewrite analyze_char_seen;
    [ | reflexivity | set_solver
      | cbn [line_cache]; apply lookup_insert_eq ];
    cbv zeta;
    replace (remove_duplicate_chars (strip (py "hello"))) with (py "helo") by reflexivity;
    replace (length (py "helo") <? 3) with false by reflexivity;
    rewrite hello_char_issues by (try exact Hlower; simpl; tauto)).
  cbn [fst snd scan_self page_issues issues]. split; reflexivity.
Qed.

End PageLoopFacts.

Lemma ascii_lower_lowers_ascii : lowers_ascii ascii_lower.
Proof. intros s _. reflexivity. Qed.

Lemma hello_analysis (lower : str -> str) :
  lowers_ascii lower ->
  (analyze lower new_analyzer [hello_page]).2
  = List.map hello_issue (chars hello_page).
Proof.
  intros Hlower. unfold analyze. cbn [snd analyze_pages].
  destruct (hello_page_found lower (clear_caches new_analyzer) Hlower eq_refl)
    as [Hfound Hkept].
  destruct (analyze_page lower (clear_caches new_analyzer) 1 hello_page)
    as [self found].
  cbn [fst snd] in *. cbn [issues]. rewrite Hkept, Hfound. reflexivity.
Qed.

(** C2 (as amended). The analysis of the one-page document [hello_page]
    returns five issues, one font-size issue per character and nothing
    else: each has severity medium and a description that mentions
    "10.0pt" and "12pt"; there is no contrast issue and no readability
    issue. *)
Theorem hello_page_analysis (lower : str -> str) :
  lowers_ascii lower ->
  let found := (analyze lower new_analyzer [hello_page]).2 in
  found = List.map hello_issue (chars hello_page) /\
  count_type issue_type_font_size found = 5 /\
  count_type issue_type_contrast found = 0 /\
  count_type issue_type_readability found = 0 /\
  (forall issue, In issue found ->
     Issue.severity issue = Medium /\
     contains (py "10.0pt") (Issue.description issue) = true /\
     contains (py "12pt") (Issue.description issue) = true).
Proof.
  intros Hlower found. unfold found. rewrite (hello_analysis lower Hlower).
  split; [reflexivity|]. repeat (split; [reflexivity|]).
  intros issue Hin. simpl in Hin.
  repeat destruct Hin as [<-|Hin]; try contradiction; repeat split; reflexivity.
Qed.

Lemma hello_page_analysis_witness :
  (analyze ascii_lower new_analyzer [hello_page]).2
  = List.map hello_issue (chars hello_page).
Proof.
  apply (hello_page_analysis ascii_lower). apply ascii_lower_lowers_ascii.
Defined.

(** C2 (as stated) fails: the font-size check runs for every character,
    so "hello" gives five font-size issues, not one. *)
Lemma hello_page_five_font_size_issues :
  count_type issue_type_font_size
    (analyze ascii_lower new_analyzer [hello_page]).2 = 5 /\
  count_type issue_type_font_size
    (analyze ascii_lower new_analyzer [hello_page]).2 <> 1.
Proof.
  rewrite (hello_analysis ascii_lower ascii_lower_lowers_ascii).
  split; [reflexivity | discriminate].
Qed.

(** * Further properties of the code *)

(** ** Colour model: range of luminance and contrast *)

Section ContrastRange.

Local Open Scope R_scope.

Lemma srgb_to_linear_le_1 (c : R) : c <= 1 -> srgb_to_linear c <= 1.
Proof.
  intros Hc. unfold srgb_to_linear. destruct (Rle_dec _ _) as [Hlow|Hhigh].
  - lra.
  - apply Rle_trans with (Rpower 1 2.4).
    + apply Rle_Rpower_l; lra.
    + right. unfold Rpower. rewrite ln_1, Rmult_0_r. apply exp_0.
Qed.

Lemma calculate_luminance_le_1 (c : rgbR) :
  channels_in_unit c -> calculate_luminance c <= 1.
Proof.
  destruct c as [[r g] b]. intros (Hr & Hg & Hb). unfold calculate_luminance.
  pose proof (srgb_to_linear_le_1 r (proj2 Hr)).
  pose proof (srgb_to_linear_le_1 g (proj2 Hg)).
  pose proof (srgb_to_linear_le_1 b (proj2 Hb)).
  lra.
Qed.

Lemma channels_in_unit_nonneg (c : rgbR) : channels_in_unit c -> channels_nonneg c.
Proof. destruct c as [[r g] b]. unfold channels_in_unit, channels_nonneg. lra. Qed.

(** X1. For colours of the unit cube the luminance lies in [0, 1] and
    the contrast ratio in [1, 21]. *)
Theorem contrast_ratio_range (a b : rgbR) :
  channels_in_unit a -> channels_in_unit b ->
  0 <= calculate_luminance a <= 1 /\
  1 <= calculate_contrast_ratio a b <= 21.
Proof.
  intros Ha Hb.
  pose proof (calculate_luminance_nonneg a (channels_in_unit_nonneg a Ha)) as Ha0.
  pose proof (calculate_luminance_nonneg b (channels_in_unit_nonneg b Hb)) as Hb0.
  pose proof (calculate_luminance_le_1 a Ha) as Ha1.
  pose proof (calculate_luminance_le_1 b Hb) as Hb1.
  split; [lra|]. split.
  - apply calculate_contrast_ratio_ge_1; apply channels_in_unit_nonneg; assumption.
  - unfold calculate_contrast_ratio.
    set (l1 := calculate_luminance a) in *. set (l2 := calculate_luminance b) in *.
    assert (Hd : 0 <= Rmin l1 l2) by (apply Rmin_glb; assumption).
    assert (Hl : Rmax l1 l2 <= 1) by (apply Rmax_lub; assumption).
    destruct (Req_dec_T _ _) as [|_]; [lra|].
    apply (Rmult_le_reg_r (Rmin l1 l2 + 0.05)); [lra|].
    unfold Rdiv. rewrite Rmult_assoc, Rinv_l by lra. lra.
Qed.

Lemma contrast_ratio_range_witness :
  1 <= calculate_contrast_ratio (0.5, 0.5, 0.5) (1, 1, 1) <= 21.
Proof.
  apply (contrast_ratio_range (0.5, 0.5, 0.5) (1, 1, 1));
    unfold channels_in_unit; lra.
Defined.

(** X2. A colour has contrast 1 with itself, whatever its channels
    (also when the division would fail). *)
Theorem contrast_ratio_same_colour (c : rgbR) : calculate_contrast_ratio c c = 1.
Proof.
  unfold calculate_contrast_ratio.
  rewrite Rmax_left, Rmin_left by lra.
  destruct (Req_dec_T _ _) as [|Hne]; [reflexivity|].
  unfold Rdiv. apply Rinv_r. exact Hne.
Qed.

End ContrastRange.

(** ** Colour model: the colour buckets *)

Section BucketFacts.

Local Open Scope Q_scope.

Lemma Qmax_same (v : Q) : Qmax v v = v.
Proof. unfold Qmax, GenericMinMax.gmax. destruct (v ?= v); reflexivity. Qed.

Lemma Qmin_same (v : Q) : Qmin v v = v.
Proof. unfold Qmin, GenericMinMax.gmin. destruct (v ?= v); reflexivity. Qed.

Lemma Qeq_bool_refl (v : Q) : Qeq_bool v v = true.
Proof. apply Qeq_bool_iff. reflexivity. Qed.

Lemma rgb_to_hsv_gray (v : Q) : rgb_to_hsv (v, v, v) = (0, 0, v).
Proof.
  unfold rgb_to_hsv. rewrite !Qmax_same, !Qmin_same, Qeq_bool_refl. reflexivity.
Qed.

(** X3. A gray (v, v, v) is named "серый" exactly when
    [0.3 <= v <= 0.7]; otherwise it gets no name. *)
Theorem identify_gray (v : Q) :
  identify_problematic_color (v, v, v)
  = if Qle_bool 0.3 v && Qle_bool v 0.7 then Some (py "серый") else None.
Proof.
  unfold identify_problematic_color. rewrite rgb_to_hsv_gray. reflexivity.
Qed.

Lemma rgb_to_hsv_value (c : rgb) (bound : Q) :
  0 < bound ->
  (let '(r, g, b) := c in r < bound /\ g < bound /\ b < bound) ->
  (rgb_to_hsv c).2 < bound.
Proof.
  destruct c as [[r g] b]. intros Hpos (Hr & Hg & Hb). unfold rgb_to_hsv.
  assert (Hmax : Qmax (Qmax r g) b < bound).
  { apply Q.max_lub_lt; [apply Q.max_lub_lt|]; assumption. }
  destruct (Qeq_bool _ _); [exact Hmax|].
  destruct (Qeq_bool _ _); [exact Hpos | exact Hmax].
Qed.

(** X4. A dark colour, with every channel below 0.3, never gets a
    problematic-colour name. *)
Theorem identify_dark_colour (c : rgb) :
  (let '(r, g, b) := c in r < 0.3 /\ g < 0.3 /\ b < 0.3) ->
  identify_problematic_color c = None.
Proof.
  intros Hdark.
  pose proof (rgb_to_hsv_value c 0.3 eq_refl Hdark) as Hv.
  unfold identify_problematic_color.
  destruct (rgb_to_hsv c) as [[h s] v]. cbn [snd] in Hv.
  assert (H4 : Qlt_bool 0.4 v = false).
  { apply not_true_iff_false. rewrite Qlt_bool_iff. lra. }
  assert (H6 : Qlt_bool 0.6 v = false).
  { apply not_true_iff_false. rewrite Qlt_bool_iff. lra. }
  assert (H3 : Qle_bool 0.3 v = false) by (apply Qle_bool_false_iff; exact Hv).
  rewrite H4, H6, H3, !andb_false_r. cbn [andb].
  repeat match goal with
         | |- context [if ?b then _ else _] => destruct b; cbn [andb]
         end; reflexivity.
Qed.

Lemma identify_dark_colour_witness :
  identify_problematic_color (0.1, 0.2, 0.05) = None.
Proof. apply (identify_dark_colour (0.1, 0.2, 0.05)). repeat split. Defined.

End BucketFacts.

(** ** Text normalizer: shape of the deduplicated text *)

Section DedupShape.

Context {A : Type} `{EqDecision A}.

Lemma skip_run_length (c : A) (l : list A) : length (skip_run c l) <= length l.
Proof.
  revert c. induction l as [|d l IH]; intros c; simpl; [lia|].
  destruct (decide (d = c)); simpl.
  - specialize (IH c). lia.
  - specialize (IH d). lia.
Qed.

Lemma skip_run_In (c x : A) (l : list A) : In x (skip_run c l) -> In x l.
Proof.
  revert c. induction l as [|d l IH]; intros c; simpl; [tauto|].
  destruct (decide (d = c)); simpl.
  - intros Hx. right. exact (IH c Hx).
  - intros [Hx|Hx]; [left; exact Hx | right; exact (IH d Hx)].
Qed.

Lemma collapse_runs_length (l : list A) : length (collapse_runs l) <= length l.
Proof.
  destruct l as [|c l]; simpl; [lia|]. pose proof (skip_run_length c l). lia.
Qed.

Lemma collapse_runs_In (x : A) (l : list A) : In x (collapse_runs l) -> In x l.
Proof.
  destruct l as [|c l]; simpl; [tauto|].
  intros [Hx|Hx]; [left; exact Hx | right; exact (skip_run_In c x l Hx)].
Qed.

Lemma In_take (x : A) (n : nat) (l : list A) : In x (take n l) -> In x l.
Proof.
  revert n. induction l as [|d l IH]; intros [|n]; simpl; try tauto.
  intros [Hx|Hx]; [left; exact Hx | right; exact (IH n Hx)].
Qed.

Lemma remove_duplicate_chars_shape_aux (s : list A) :
  no_repeat (remove_duplicate_chars s) /\
  length (remove_duplicate_chars s) <= length s /\
  (forall x, In x (remove_duplicate_chars s) -> In x s) /\
  (remove_duplicate_chars s = [] <-> s = []).
Proof.
  split; [apply remove_duplicate_chars_no_repeat|].
  unfold remove_duplicate_chars.
  destruct (length s <? 2) eqn:Hlen; [repeat split; auto|].
  apply Nat.ltb_ge in Hlen.
  pose proof (collapse_runs_length s) as Hcl.
  assert (Hne : 1 <= length (collapse_runs s)).
  { destruct s as [|c s]; simpl in *; lia. }
  destruct (Nat.even (length (collapse_runs s))) eqn:Heven.
  - destruct (decide _) as [Hhalf|Hhalf].
    + assert (Hpos : 1 <= length (collapse_runs s) / 2).
      { destruct (length (collapse_runs s)) as [|[|n]] eqn:Hn; try lia.
        - discriminate Heven.
        - change (S (S n)) with (2 + n). apply Nat.div_le_lower_bound; lia. }
      split; [rewrite length_take; lia|].
      split; [intros x Hx; apply collapse_runs_In, (In_take x _ _ Hx)|].
      split; [|intros ->; simpl in Hlen; lia].
      intros Hnil. apply (f_equal length) in Hnil.
      rewrite length_take in Hnil. cbn [length] in Hnil. lia.
    + split; [exact Hcl|]. split; [intros x; apply collapse_runs_In|].
      split; [|intros ->; simpl in Hlen; lia].
      intros Hnil. rewrite Hnil in Hne. simpl in Hne. lia.
  - split; [exact Hcl|]. split; [intros x; apply collapse_runs_In|].
    split; [|intros ->; simpl in Hlen; lia].
    intros Hnil. rewrite Hnil in Hne. simpl in Hne. lia.
Qed.

(** X5. The deduplicated text has no two equal neighbours, is not longer
    than the text, uses only characters of the text, and is empty only
    for the empty text. *)
Theorem remove_duplicate_chars_shape (s : list A) :
  no_repeat (remove_duplicate_chars s) /\
  length (remove_duplicate_chars s) <= length s /\
  (forall x, In x (remove_duplicate_chars s) -> In x s) /\
  (remove_duplicate_chars s = [] <-> s = []).
Proof. apply remove_duplicate_chars_shape_aux. Qed.

End DedupShape.

(** ** Text normalizer: truncation at a word boundary *)

Lemma rfind_from_bounds (c : char) (i : Z) (s : str) :
  (0 <= i)%Z ->
  (rfind_from c i s = -1 \/ i <= rfind_from c i s < i + Z.of_nat (length s))%Z.
Proof.
  revert i. induction s as [|d s IH]; intros i Hi; [left; reflexivity|].
  cbn [rfind_from length]. rewrite Nat2Z.inj_succ.
  destruct (IH (i + 1)%Z ltac:(lia)) as [Hnone|Hsome].
  - rewrite Hnone. cbn [Z.eqb Pos.eqb].
    destruct (d =? c)%N; [right; lia | left; reflexivity].
  - destruct (rfind_from c (i + 1) s =? -1)%Z eqn:Heq.
    + apply Z.eqb_eq in Heq. lia.
    + right. lia.
Qed.

Lemma rfind_bounds (c : char) (s : str) :
  (-1 <= rfind c s < Z.of_nat (length s))%Z.
Proof. unfold rfind. destruct (rfind_from_bounds c 0 s); lia. Qed.

(** X6. [truncate_text_smart] returns a text of at most [max_length]
    characters unchanged; a longer one becomes a prefix of at most
    [max_length] characters followed by "...", so the result never has
    more than [max_length + 3] characters. *)
Theorem truncate_text_smart_spec (text : str) (max_length : nat) :
  length (truncate_text_smart text max_length) <= max_length + 3 /\
  (length text <= max_length -> truncate_text_smart text max_length = text) /\
  (max_length < length text ->
   exists k, k <= max_length /\
     truncate_text_smart text max_length = take k text ++ py "...").
Proof.
  unfold truncate_text_smart.
  destruct (length text <=? max_length) eqn:Hle.
  - apply Nat.leb_le in Hle.
    split; [lia|]. split; [intros _; reflexivity|]. intros Hlt. lia.
  - apply Nat.leb_gt in Hle.
    pose proof (rfind_bounds 32%N (take max_length text)) as Hr.
    rewrite length_take in Hr.
    destruct (Qlt_bool _ _).
    + rewrite take_take.
      split; [rewrite length_app, length_take;
              change (length (py "...")) with 3; lia|].
      split; [lia|]. intros _.
      exists (Z.to_nat (rfind 32%N (take max_length text)) `min` max_length).
      split; [lia | reflexivity].
    + split; [rewrite length_app, length_take;
              change (length (py "...")) with 3; lia|].
      split; [lia|]. intros _. exists max_length. split; [lia | reflexivity].
Qed.

Lemma truncate_text_smart_spec_witness :
  length (truncate_text_smart (py "aaaa bbbb cccc") 10) <= 10 + 3.
Proof. apply (truncate_text_smart_spec (py "aaaa bbbb cccc") 10). Defined.

(** ** Aggregator: the four views of the summary agree *)

Section SummaryViews.

Variable is_word : char -> bool.

Lemma summarize_issue_views (summary : Summary) (issue : AccessibilityIssue) :
  let summary' := summarize_issue is_word summary issue in
  let wc := count_words is_word (Issue.text issue) in
  sum_over tt_total_places (by_type summary')
  = sum_over tt_total_places (by_type summary) + 1 /\
  sum_over sc_places (by_type_severity summary')
  = sum_over sc_places (by_type_severity summary) + 1 /\
  total_words (overall summary') = total_words (overall summary) + wc /\
  sum_over st_words (by_severity summary')
  = sum_over st_words (by_severity summary) + wc /\
  sum_over tt_total_words (by_type summary')
  = sum_over tt_total_words (by_type summary) + wc.
Proof.
  cbv zeta. unfold summarize_issue.
  cbn [by_type by_type_severity by_severity overall total_words].
  set (wc := count_words is_word (Issue.text issue)).
  repeat split.
  - match goal with |- sum_over _ (<[?k := ?v]> ?m) = _ =>
      pose proof (sum_over_insert tt_total_places k v m) as Hsum end.
    cbn [tt_total_places] in Hsum.
    destruct (by_type summary !! Issue.issue_type issue); simpl in *; lia.
  - match goal with |- sum_over _ (<[?k := ?v]> ?m) = _ =>
      pose proof (sum_over_insert sc_places k v m) as Hsum end.
    destruct (by_type_severity summary !! Issue.issue_type issue) as [g|];
      destruct (Issue.severity issue); unfold sc_places in *; simpl in *; lia.
  - match goal with |- sum_over _ (<[?k := ?v]> ?m) = _ =>
      pose proof (sum_over_insert st_words k v m) as Hsum end.
    cbn [st_words] in Hsum.
    destruct (by_severity summary !! Issue.severity issue); simpl in *; lia.
  - match goal with |- sum_over _ (<[?k := ?v]> ?m) = _ =>
      pose proof (sum_over_insert tt_total_words k v m) as Hsum end.
    cbn [tt_total_words] in Hsum.
    destruct (by_type summary !! Issue.issue_type issue); simpl in *; lia.
Qed.

Lemma summarize_fold_views (l : list AccessibilityIssue) (summary : Summary) :
  let summary' := fold_left (summarize_issue is_word) l summary in
  sum_over tt_total_places (by_type summary')
  = sum_over tt_total_places (by_type summary) + length l /\
  sum_over sc_places (by_type_severity summary')
  = sum_over sc_places (by_type_severity summary) + length l /\
  total_words (overall summary') = total_words (overall summary) + words_of is_word l /\
  sum_over st_words (by_severity summary')
  = sum_over st_words (by_severity summary) + words_of is_word l /\
  sum_over tt_total_words (by_type summary')
  = sum_over tt_total_words (by_type summary) + words_of is_word l.
Proof.
  revert summary. induction l as [|issue l IH]; intros summary.
  - cbn [fold_left length words_of fold_right]. lia.
  - cbn [fold_left length words_of fold_right].
    destruct (IH (summarize_issue is_word summary issue)) as (I1 & I2 & I3 & I4 & I5).
    destruct (summarize_issue_views summary issue) as (S1 & S2 & S3 & S4 & S5).
    cbv zeta in *. fold (words_of is_word l).
    rewrite I1, I2, I3, I4, I5, S1, S2, S3, S4, S5. lia.
Qed.

(** X7. The other views of the summary conserve the count too: the
    places of [by_type] and those of [by_type_severity] (high, medium and
    low together) add up to the number of issues; the words of
    [overall], of [by_severity] and of [by_type] all equal the words of
    the issue texts, each issue counted once. *)
Theorem summary_views_agree (self : Analyzer) :
  let summary := group_and_summarize_issues_improved is_word self in
  sum_over tt_total_places (by_type summary) = length (issues self) /\
  sum_over sc_places (by_type_severity summary) = length (issues self) /\
  total_words (overall summary) = words_of is_word (issues self) /\
  sum_over st_words (by_severity summary) = words_of is_word (issues self) /\
  sum_over tt_total_words (by_type summary) = words_of is_word (issues self).
Proof.
  pose proof (summarize_fold_views (issues self) empty_summary) as Hfold.
  cbv zeta in *. unfold group_and_summarize_issues_improved.
  destruct Hfold as (H1 & H2 & H3 & H4 & H5). rewrite H1, H2, H3, H4, H5.
  cbn [empty_summary by_type by_type_severity by_severity overall total_words].
  rewrite !sum_over_empty. lia.
Qed.

End SummaryViews.

(** ** Aggregator: the distributions of the summary *)

Section SummaryDistributions.

Variable is_word : char -> bool.

Lemma summarize_issue_distributions (summary : Summary)
    (issue : AccessibilityIssue) (sev : Severity) (ty : str) :
  let summary' := summarize_issue is_word summary issue in
  let hit_sev := if bool_decide (Issue.severity issue = sev) then 1 else 0 in
  let hit_ty := if bool_decide (Issue.issue_type issue = ty) then 1 else 0 in
  pages_with_issues (overall summary')
  = {[Issue.page issue]} ∪ pages_with_issues (overall summary) /\
  default 0 (severity_distribution (overall summary') !! sev)
  = default 0 (severity_distribution (overall summary) !! sev) + hit_sev /\
  default 0 (st_places <$> by_severity summary' !! sev)
  = default 0 (st_places <$> by_severity summary !! sev) + hit_sev /\
  default 0 (types_distribution (overall summary') !! ty)
  = default 0 (types_distribution (overall summary) !! ty) + hit_ty /\
  default 0 (tt_total_places <$> by_type summary' !! ty)
  = default 0 (tt_total_places <$> by_type summary !! ty) + hit_ty.
Proof.
  cbv zeta. unfold summarize_issue.
  cbn [by_type by_severity overall pages_with_issues severity_distribution
       types_distribution].
  split; [reflexivity|].
  repeat split; case_bool_decide as Hhit;
    try (rewrite Hhit; rewrite lookup_insert_eq);
    try (rewrite lookup_insert_ne by exact Hhit);
    try lia.
  - reflexivity.
  - cbn [st_places]. destruct (by_severity summary !! sev); reflexivity.
  - reflexivity.
  - cbn [tt_total_places]. destruct (by_type summary !! ty); reflexivity.
Qed.

Lemma summarize_fold_distributions (l : list AccessibilityIssue)
    (summary : Summary) (sev : Severity) (ty : str) :
  let summary' := fold_left (summarize_issue is_word) l summary in
  pages_with_issues (overall summary')
  = pages_of l ∪ pages_with_issues (overall summary) /\
  default 0 (severity_distribution (overall summary') !! sev)
  = default 0 (severity_distribution (overall summary) !! sev) + count_severity sev l /\
  default 0 (st_places <$> by_severity summary' !! sev)
  = default 0 (st_places <$> by_severity summary !! sev) + count_severity sev l /\
  default 0 (types_distribution (overall summary') !! ty)
  = default 0 (types_distribution (overall summary) !! ty) + count_type ty l /\
  default 0 (tt_total_places <$> by_type summary' !! ty)
  = default 0 (tt_total_places <$> by_type summary !! ty) + count_type ty l.
Proof.
  revert summary. induction l as [|issue l IH]; intros summary.
  - unfold pages_of, count_severity, count_type. cbn [fold_left List.map List.filter length].
    rewrite list_to_set_nil, union_empty_l_L. repeat split; lia.
  - cbn [fold_left].
    destruct (IH (summarize_issue is_word summary issue)) as (I1 & I2 & I3 & I4 & I5).
    destruct (summarize_issue_distributions summary issue sev ty)
      as (S1 & S2 & S3 & S4 & S5).
    cbv zeta in *. rewrite I1, I2, I3, I4, I5, S1, S2, S3, S4, S5.
    unfold pages_of, count_severity, count_type.
    cbn [List.map List.filter]. rewrite list_to_set_cons.
    split; [apply set_eq; intros p; rewrite !elem_of_union; tauto|].
    repeat split; repeat case_bool_decide; cbn [length]; lia.
Qed.

(** X8. The distributions of the summary are the plain counts:
    [pages_with_issues] is the set of the pages of the issues, and for
    each severity (resp. type) both [overall.severity_distribution] and
    [by_severity[..].places] (resp. [types_distribution] and
    [by_type[..].total_places]) hold the number of issues of that
    severity (resp. type), a missing key standing for zero. *)
Theorem summary_distributions (self : Analyzer) (sev : Severity) (ty : str) :
  let summary := group_and_summarize_issues_improved is_word self in
  pages_with_issues (overall summary) = pages_of (issues self) /\
  default 0 (severity_distribution (overall summary) !! sev)
  = count_severity sev (issues self) /\
  default 0 (st_places <$> by_severity summary !! sev)
  = count_severity sev (issues self) /\
  default 0 (types_distribution (overall summary) !! ty)
  = count_type ty (issues self) /\
  default 0 (tt_total_places <$> by_type summary !! ty)
  = count_type ty (issues self).
Proof.
  pose proof (summarize_fold_distributions (issues self) empty_summary sev ty) as Hfold.
  cbv zeta in *. unfold group_and_summarize_issues_improved.
  destruct Hfold as (H1 & H2 & H3 & H4 & H5). rewrite H1, H2, H3, H4, H5.
  cbn [empty_summary by_type by_severity overall pages_with_issues
       severity_distribution types_distribution].
  rewrite !lookup_empty, union_empty_r_L. repeat split.
Qed.

End SummaryDistributions.

(** ** Aggregator: the groups of [group_issues_by_text_and_page] *)

Section TextPageFacts.

Variable lower : str -> str.

Lemma text_and_page_short_key (l : list AccessibilityIssue)
    (m : gmap str TextPageGroup.t) (k : str) :
  length k < 3 ->
  fold_left (text_and_page_step lower) l m !! k = m !! k.
Proof.
  intros Hk. revert m. induction l as [|issue l IH]; intros m; [reflexivity|].
  cbn [fold_left]. rewrite IH. unfold text_and_page_step.
  destruct (length _ <? 3) eqn:Hlen; [reflexivity|].
  apply Nat.ltb_ge in Hlen. apply lookup_insert_ne. intros <-. lia.
Qed.

Lemma text_and_page_group_fold (occs : list AccessibilityIssue)
    (g0 : TextPageGroup.t) :
  exists g,
    fold_left (fun og issue =>
                 Some (text_and_page_add (default TextPageGroup.empty og) issue))
              occs (Some g0) = Some g /\
    TextPageGroup.total_count g = TextPageGroup.total_count g0 + length occs /\
    TextPageGroup.first_issue g
    = match TextPageGroup.first_issue g0 with
      | None => head occs
      | Some first => Some first
      end /\
    forall p, default [] (TextPageGroup.pages g !! p)
              = default [] (TextPageGroup.pages g0 !! p) ++ on_page p occs.
Proof.
  revert g0. induction occs as [|issue occs IH]; intros g0.
  - exists g0. cbn [fold_left length head on_page List.filter].
    split; [reflexivity|]. split; [lia|].
    split; [destruct (TextPageGroup.first_issue g0); reflexivity|].
    intros p. rewrite app_nil_r. reflexivity.
  - cbn [fold_left default].
    destruct (IH (text_and_page_add g0 issue)) as (g & Hg & Hcount & Hfirst & Hpages).
    exists g. split; [exact Hg|].
    split; [rewrite Hcount; cbn [text_and_page_add TextPageGroup.total_count length]; lia|].
    split.
    + rewrite Hfirst. cbn [text_and_page_add TextPageGroup.first_issue head].
      destruct (TextPageGroup.first_issue g0); reflexivity.
    + intros p. rewrite Hpages.
      cbn [text_and_page_add TextPageGroup.pages on_page List.filter].
      case_bool_decide as Hp.
      * rewrite Hp, lookup_insert_eq.
        change (default [] (Some ?x)) with x.
        rewrite <- app_assoc. reflexivity.
      * rewrite lookup_insert_ne by exact Hp. reflexivity.
Qed.

(** X9. [group_issues_by_text_and_page] has a group for a key exactly
    when the key has at least three characters and some issue has it;
    the group then counts the issues with that key, keeps the first of
    them as [first_issue], and files them page by page in their order. *)
Theorem text_and_page_groups (found : list AccessibilityIssue) (k : str) :
  (is_Some (group_issues_by_text_and_page lower found !! k) <->
   3 <= length k /\ occurrences lower k found <> []) /\
  (forall group,
     group_issues_by_text_and_page lower found !! k = Some group ->
     TextPageGroup.total_count group = length (occurrences lower k found) /\
     TextPageGroup.first_issue group = head (occurrences lower k found) /\
     forall p, default [] (TextPageGroup.pages group !! p)
               = on_page p (occurrences lower k found)).
Proof.
  unfold group_issues_by_text_and_page.
  destruct (le_lt_dec 3 (length k)) as [Hlong|Hshort].
  - rewrite text_and_page_fold_lookup, lookup_empty by exact Hlong.
    destruct (occurrences lower k found) as [|issue occs].
    + cbn [fold_left]. split.
      * split; [intros [g Hg]; discriminate Hg | intros [_ Hne]; contradiction].
      * intros g Hg. discriminate Hg.
    + cbn [fold_left default].
      destruct (text_and_page_group_fold occs
                  (text_and_page_add TextPageGroup.empty issue))
        as (g & Hg & Hcount & Hfirst & Hpages).
      rewrite Hg. split.
      * split; [intros _; split; [exact Hlong | discriminate] | intros _; eauto].
      * intros g' [= <-]. split; [rewrite Hcount; reflexivity|].
        split; [rewrite Hfirst; reflexivity|].
        intros p. rewrite Hpages.
        cbn [text_and_page_add TextPageGroup.pages TextPageGroup.empty
             on_page List.filter].
        case_bool_decide as Hp.
        -- rewrite Hp, lookup_insert_eq. reflexivity.
        -- rewrite lookup_insert_ne, lookup_empty by exact Hp. reflexivity.
  - rewrite text_and_page_short_key, lookup_empty by exact Hshort. split.
    + split; [intros [g Hg]; discriminate Hg | intros [Hlong _]; lia].
    + intros g Hg. discriminate Hg.
Qed.

End TextPageFacts.

(** ** Aggregator: the entries of [group_issues_by_text_pattern] *)

Section PatternFacts.

Variable lower : str -> str.
Variable is_word : char -> bool.

Lemma truncate_50_length (text : str) :
  50 < length text -> 39 <= length (truncate_text_smart text 50) <= 53.
Proof.
  intros Hlong. unfold truncate_text_smart.
  destruct (length text <=? 50) eqn:Hle; [apply Nat.leb_le in Hle; lia|].
  pose proof (rfind_bounds 32%N (take 50 text)) as Hr.
  rewrite length_take in Hr.
  destruct (Qlt_bool _ _) eqn:Hspace.
  - apply Qlt_bool_iff in Hspace. unfold Qlt in Hspace. simpl in Hspace.
    rewrite length_app, !length_take. change (length (py "...")) with 3. lia.
  - rewrite length_app, length_take. change (length (py "...")) with 3. lia.
Qed.

Lemma pattern_key_length (issue : AccessibilityIssue) (k : str) :
  pattern_key lower issue = Some k -> 5 <= length k <= 53.
Proof.
  unfold pattern_key.
  destruct (length _ <? 5) eqn:Hshort; [discriminate|].
  apply Nat.ltb_ge in Hshort.
  destruct (50 <? length _) eqn:Hlong; intros [= <-].
  - apply Nat.ltb_lt in Hlong. pose proof (truncate_50_length _ Hlong). lia.
  - apply Nat.ltb_ge in Hlong. lia.
Qed.

Lemma pattern_group_fold (k : str) (l : list AccessibilityIssue)
    (g0 : PatternGroup.t) :
  exists g,
    fold_left (fun og issue =>
                 Some (pattern_add is_word k (default PatternGroup.empty og) issue))
              l (Some g0) = Some g /\
    PatternGroup.issues g = PatternGroup.issues g0 ++ l /\
    PatternGroup.pages g = pages_of l ∪ PatternGroup.pages g0 /\
    PatternGroup.total_words g
    = PatternGroup.total_words g0 + length l * count_words is_word k.
Proof.
  revert g0. induction l as [|issue l IH]; intros g0.
  - exists g0. cbn [fold_left length]. unfold pages_of. cbn [List.map].
    rewrite app_nil_r, list_to_set_nil, union_empty_l_L.
    repeat split; lia.
  - cbn [fold_left]. change (default PatternGroup.empty (Some g0)) with g0.
    destruct (IH (pattern_add is_word k g0 issue)) as (g & Hg & Hissues & Hpages & Hwords).
    exists g. split; [exact Hg|].
    split; [rewrite Hissues; cbn [pattern_add PatternGroup.issues];
            rewrite <- app_assoc; reflexivity|].
    split.
    + rewrite Hpages. cbn [pattern_add PatternGroup.pages]. unfold pages_of.
      cbn [List.map]. rewrite list_to_set_cons.
      apply set_eq. intros p. rewrite !elem_of_union. tauto.
    + rewrite Hwords. cbn [pattern_add PatternGroup.total_words length]. lia.
Qed.

(** X10. Every entry that [group_issues_by_text_pattern] returns for a
    key holds exactly the issues filed under that key, in their order;
    its pages are the pages of these issues; the key has between 5 and
    53 characters; [total_issues] and [total_pages] are the two sizes
    and one of the thresholds (two pages, three issues) is met;
    [pages_sorted] lists the pages in increasing order, each once. *)
Theorem pattern_entries (found : list AccessibilityIssue) (k : str)
    (entry : PatternEntry) :
  group_issues_by_text_pattern lower is_word found !! k = Some entry ->
  let filed :=
    List.filter (fun issue => bool_decide (pattern_key lower issue = Some k)) found in
  5 <= length k <= 53 /\
  PatternGroup.issues (pe_data entry) = filed /\
  PatternGroup.pages (pe_data entry) = pages_of filed /\
  PatternGroup.total_words (pe_data entry) = length filed * count_words is_word k /\
  total_issues entry = length filed /\
  total_pages entry = size (pages_of filed) /\
  (2 <= total_pages entry \/ 3 <= total_issues entry) /\
  Sorted Z.le (pages_sorted entry) /\
  NoDup (pages_sorted entry) /\
  (forall p, In p (pages_sorted entry) <-> p ∈ pages_of filed).
Proof.
  unfold group_issues_by_text_pattern.
  rewrite lookup_fmap, map_lookup_filter, pattern_fold_lookup, lookup_empty.
  remember (List.filter
              (fun issue => bool_decide (pattern_key lower issue = Some k)) found)
    as filed eqn:Hfiled.
  intros Hentry. cbn [snd] in Hentry.
  destruct filed as [|issue rest]; [discriminate Hentry|].
  cbn [fold_left] in Hentry.
  change (default PatternGroup.empty None) with PatternGroup.empty in Hentry.
  destruct (pattern_group_fold k rest (pattern_add is_word k PatternGroup.empty issue))
    as (g & Hg & Hissues & Hpages & Hwords).
  rewrite Hg in Hentry. cbn [mbind option_bind fmap option_map] in Hentry.
  cbn [pattern_add PatternGroup.issues PatternGroup.pages PatternGroup.total_words
       PatternGroup.empty] in Hissues, Hpages, Hwords.
  assert (Hpages' : PatternGroup.pages g = pages_of (issue :: rest)).
  { rewrite Hpages. unfold pages_of. cbn [List.map]. rewrite list_to_set_cons.
    apply set_eq. intros p. rewrite !elem_of_union, elem_of_empty. tauto. }
  assert (Hissues' : PatternGroup.issues g = issue :: rest) by exact Hissues.
  assert (Hkey : 5 <= length k <= 53).
  { assert (Hin : In issue (List.filter
              (fun i => bool_decide (pattern_key lower i = Some k)) found)).
    { rewrite <- Hfiled. left. reflexivity. }
    apply filter_In in Hin as [_ Hin]. apply bool_decide_eq_true in Hin.
    exact (pattern_key_length issue k Hin). }
  destruct (decide (keeps_pattern g = true)) as [Hkeep|Hdrop].
  - rewrite option_guard_True in Hentry by exact Hkeep.
    cbn [mbind option_bind fmap option_map] in Hentry.
    injection Hentry as <-.
    cbn [pattern_entry pe_data total_issues total_pages pages_sorted].
    rewrite Hissues', Hpages'.
    split; [exact Hkey|]. split; [reflexivity|]. split; [reflexivity|].
    split; [rewrite Hwords; cbn [length]; lia|].
    split; [reflexivity|]. split; [reflexivity|].
    split.
    { unfold keeps_pattern in Hkeep. rewrite Hissues', Hpages' in Hkeep.
      apply orb_true_iff in Hkeep as [H2|H3].
      - left. apply Nat.leb_le in H2. exact H2.
      - right. apply Nat.leb_le in H3. exact H3. }
    split; [apply Sorted_merge_sort; apply _|].
    split.
    { rewrite merge_sort_Permutation. apply NoDup_elements. }
    intros p. rewrite <- list_elem_of_In, merge_sort_Permutation.
    apply elem_of_elements.
  - rewrite option_guard_False in Hentry by exact Hdrop. discriminate Hentry.
Qed.

Lemma pattern_entry_exists (found : list AccessibilityIssue) (k : str) :
  3 <= length (List.filter
                 (fun issue => bool_decide (pattern_key lower issue = Some k)) found) ->
  is_Some (group_issues_by_text_pattern lower is_word found !! k).
Proof.
  unfold group_issues_by_text_pattern.
  rewrite lookup_fmap, map_lookup_filter, pattern_fold_lookup, lookup_empty.
  destruct (List.filter _ found) as [|issue rest]; cbn [length]; [lia|].
  intros Hmany. cbn [fold_left].
  change (default PatternGroup.empty None) with PatternGroup.empty.
  destruct (pattern_group_fold k rest (pattern_add is_word k PatternGroup.empty issue))
    as (g & Hg & Hissues & _).
  rewrite Hg. cbn [mbind option_bind snd].
  rewrite option_guard_True.
  - cbn [mbind option_bind fmap option_map]. eauto.
  - unfold keeps_pattern. rewrite Hissues.
    cbn [pattern_add PatternGroup.issues PatternGroup.empty app length].
    apply orb_true_iff. right. apply Nat.leb_le. lia.
Qed.

End PatternFacts.

Lemma pattern_entries_witness :
  exists entry,
    group_issues_by_text_pattern ascii_lower ascii_is_word repeated_issues
      !! py "helo world" = Some entry /\
    total_issues entry = 3 /\ total_pages entry = 1.
Proof.
  destruct (pattern_entry_exists ascii_lower ascii_is_word repeated_issues
              (py "helo world")) as [entry Hentry].
  { vm_compute. lia. }
  exists entry. split; [exact Hentry|].
  destruct (pattern_entries ascii_lower ascii_is_word repeated_issues
              (py "helo world") entry Hentry)
    as (_ & _ & _ & _ & Hissues & Hpages & _).
  split; [exact Hissues | exact Hpages].
Defined.

(** ** Line reconstructor: order of a line, and the cache *)

Lemma insert_by_x0_Permutation (c : glyph) (l : list glyph) :
  Permutation (insert_by_x0 c l) (c :: l).
Proof.
  induction l as [|d l IH]; simpl; [reflexivity|].
  destruct (Qle_bool _ _); [reflexivity|].
  rewrite IH. apply perm_swap.
Qed.

Lemma insert_by_x0_Sorted (c : glyph) (l : list glyph) :
  Sorted x0_le l -> Sorted x0_le (insert_by_x0 c l).
Proof.
  induction l as [|d l IH]; intros Hl; simpl.
  - repeat constructor.
  - destruct (Qle_bool (Glyph.x0 c) (Glyph.x0 d)) eqn:Hcd.
    + constructor; [exact Hl|]. constructor. apply Qle_bool_iff. exact Hcd.
    + apply Qle_bool_false_iff in Hcd.
      apply Sorted_inv in Hl as [Hl Hd].
      constructor; [apply IH, Hl|].
      destruct l as [|e l]; simpl.
      * constructor. apply Qlt_le_weak. exact Hcd.
      * destruct (Qle_bool _ _); constructor.
        -- apply Qlt_le_weak. exact Hcd.
        -- apply HdRel_inv in Hd. exact Hd.
Qed.

(** X11. The line built for [y] lists, sorted by [x0], exactly the
    characters of the page within the tolerance band (each as often as
    on the page), and its text is their texts joined in that order. *)
Theorem build_text_line_sorted (pg : Page) (y tolerance : Q) :
  let line := build_text_line pg y tolerance in
  Sorted x0_le line.1 /\
  Permutation line.1 (List.filter (in_band y tolerance) (chars pg)) /\
  line.2 = concat (List.map Glyph.text line.1).
Proof.
  cbv zeta. unfold build_text_line. cbn [fst snd].
  split; [|split; [|reflexivity]].
  - unfold sort_by_x0.
    induction (List.filter (in_band y tolerance) (chars pg)) as [|c l IH]; simpl.
    + constructor.
    + apply insert_by_x0_Sorted, IH.
  - unfold sort_by_x0.
    induction (List.filter (in_band y tolerance) (chars pg)) as [|c l IH]; simpl.
    + reflexivity.
    + rewrite insert_by_x0_Permutation, IH. reflexivity.
Qed.

(** X12. Once a line was asked for, every later request with the same
    cache key (the page and [y] rounded to two decimals) returns that
    same line and changes nothing, whatever [y] and tolerance it gives. *)
Theorem get_text_line_cached (self : Analyzer) (pg : Page)
    (y tolerance y' tolerance' : Q) :
  round2 y' = round2 y ->
  let first := get_text_line self pg y tolerance in
  get_text_line first.1 pg y' tolerance' = (first.1, first.2).
Proof.
  intros Hkey. cbv zeta.
  destruct (line_cache self !! (page_id pg, round2 y)) as [line|] eqn:Hcache.
  - rewrite (get_text_line_hit self pg y tolerance line Hcache). cbn [fst snd].
    apply get_text_line_hit. rewrite Hkey. exact Hcache.
  - rewrite (get_text_line_miss_eq self pg y tolerance Hcache). cbn [fst snd].
    apply get_text_line_hit. cbn [line_cache]. rewrite Hkey.
    apply lookup_insert_eq.
Qed.

Lemma get_text_line_cached_witness :
  get_text_line (get_text_line new_analyzer two_line_page 0 2).1
                two_line_page (1 # 1000) (1 # 2)
  = ((get_text_line new_analyzer two_line_page 0 2).1,
     (get_text_line new_analyzer two_line_page 0 2).2).
Proof.
  apply (get_text_line_cached new_analyzer two_line_page 0 2 (1 # 1000) (1 # 2)).
  reflexivity.
Defined.

(** ** Issue detector: the page loop *)

Section PageLoop.

Variable lower : str -> str.

Lemma analyze_char_contrast_fields (page_num : Z) (text : str) (avg_size : Q)
    (is_bold is_large_wcag : bool) (required : Q)
    (acc : Analyzer * list AccessibilityIssue) (char : glyph) :
  let r := analyze_char_contrast page_num text avg_size is_bold is_large_wcag
             required acc char in
  line_cache r.1 = line_cache acc.1 /\ issues r.1 = issues acc.1.
Proof.
  destruct acc as [self found]. unfold analyze_char_contrast.
  destruct (is_plain_black _); destruct (Rlt_dec _ _);
    try destruct (identify_problematic_color _) as [[|c name]|];
    try destruct (Rlt_dec _ 4.5); cbn; auto.
Qed.

Lemma fold_contrast_fields (page_num : Z) (text : str) (avg_size : Q)
    (is_bold is_large_wcag : bool) (required : Q) (l : list glyph)
    (acc : Analyzer * list AccessibilityIssue) :
  let r := fold_left (analyze_char_contrast page_num text avg_size is_bold
                        is_large_wcag required) l acc in
  line_cache r.1 = line_cache acc.1 /\ issues r.1 = issues acc.1.
Proof.
  revert acc. induction l as [|c l IH]; intros acc; [split; reflexivity|].
  cbn [fold_left]. cbv zeta.
  destruct (IH (analyze_char_contrast page_num text avg_size is_bold
                  is_large_wcag required acc c)) as [H1 H2].
  destruct (analyze_char_contrast_fields page_num text avg_size is_bold
              is_large_wcag required acc c) as [H3 H4].
  split; congruence.
Qed.

Lemma line_contrast_fields (self : Analyzer) (page_num : Z) (line : text_line) :
  line_cache (line_contrast self page_num line).1 = line_cache self /\
  issues (line_contrast self page_num line).1 = issues self.
Proof.
  unfold line_contrast, analyze_text_line_contrast.
  destruct (strip line.2); [split; reflexivity|].
  destruct line.1 as [|first rest]; [split; reflexivity|].
  destruct (length _ <? 3); [split; reflexivity|].
  apply fold_contrast_fields.
Qed.

(** The issues of a line do not depend on the analyzer. *)
Lemma fold_contrast_issues (page_num : Z) (text : str) (avg_size : Q)
    (is_bold is_large_wcag : bool) (required : Q) (l : list glyph)
    (a b : Analyzer) (found : list AccessibilityIssue) :
  (fold_left (analyze_char_contrast page_num text avg_size is_bold
                is_large_wcag required) l (a, found)).2
  = (fold_left (analyze_char_contrast page_num text avg_size is_bold
                  is_large_wcag required) l (b, found)).2.
Proof.
  revert a b found. induction l as [|c l IH]; intros a b found; [reflexivity|].
  cbn [fold_left].
  destruct (analyze_char_contrast _ _ _ _ _ _ (a, found) c) as [a' fa] eqn:Ha.
  destruct (analyze_char_contrast _ _ _ _ _ _ (b, found) c) as [b' fb] eqn:Hb.
  assert (fa = fb) as ->; [|apply IH].
  unfold analyze_char_contrast in Ha, Hb.
  destruct (Rlt_dec _ _); injection Ha as _ <-; injection Hb as _ <-; reflexivity.
Qed.

Lemma line_contrast_issues (a b : Analyzer) (page_num : Z) (line : text_line) :
  (line_contrast a page_num line).2 = (line_contrast b page_num line).2.
Proof.
  unfold line_contrast, analyze_text_line_contrast.
  destruct (strip line.2); [reflexivity|].
  destruct line.1 as [|first rest]; [reflexivity|].
  destruct (length _ <? 3); [reflexivity|].
  apply fold_contrast_issues.
Qed.

Lemma get_text_line_lookup (self : Analyzer) (pg : Page) (y tolerance : Q) :
  line_cache (get_text_line self pg y tolerance).1 !! (page_id pg, round2 y)
  = Some (get_text_line self pg y tolerance).2.
Proof.
  unfold get_text_line.
  destruct (line_cache self !! (page_id pg, round2 y)) as [line|] eqn:Hkey.
  - exact Hkey.
  - cbn [fst snd line_cache]. apply lookup_insert_eq.
Qed.

Lemma get_text_line_issues (self : Analyzer) (pg : Page) (y tolerance : Q) :
  issues (get_text_line self pg y tolerance).1 = issues self.
Proof.
  unfold get_text_line. destruct (line_cache self !! _); reflexivity.
Qed.

(** One turn of the page loop: the line is fetched once; what the second
    call of [get_text_line] returns is the cached line. *)
Lemma analyze_char_steps (page_num : Z) (pg : Page) (st : PageScan) (char : glyph) :
  analyze_char lower page_num pg st char
  = if isspace (Glyph.text char) || bool_decide (strip (Glyph.text char) = [])
    then st
    else
      let fetched := get_text_line (scan_self st) pg (Glyph.y0 char) default_tolerance in
      if bool_decide (round2 (Glyph.y0 char) ∈ processed_lines st)
      then mkPageScan fetched.1 (processed_lines st)
             (page_issues st ++ glyph_checks lower page_num char fetched.2.2)
      else
        let analysed := line_contrast fetched.1 page_num fetched.2 in
        mkPageScan analysed.1 ({[round2 (Glyph.y0 char)]} ∪ processed_lines st)
          ((page_issues st ++ analysed.2)
             ++ glyph_checks lower page_num char fetched.2.2).
Proof.
  unfold analyze_char. destruct (isspace _ || _); [reflexivity|]. cbv zeta.
  destruct (bool_decide (round2 (Glyph.y0 char) ∈ processed_lines st)).
  - destruct (get_text_line _ _ _ _) as [self [line_chars line_text]].
    cbn [fst snd scan_self processed_lines page_issues]. unfold glyph_checks.
    cbv zeta. destruct (length _ <? 3); [rewrite app_nil_r|]; reflexivity.
  - pose proof (get_text_line_lookup (scan_self st) pg (Glyph.y0 char)
                  default_tolerance) as Hkey.
    destruct (get_text_line _ _ _ _) as [self [line_chars line_text]].
    cbn [fst snd] in *.
    pose proof (line_contrast_fields self page_num (line_chars, line_text))
      as [Hcache _].
    unfold line_contrast in *. cbn [fst snd] in *.
    destruct (match strip line_text with
              | [] => (self, [])
              | _ => analyze_text_line_contrast self page_num line_chars line_text
              end) as [self' found].
    cbn [fst snd scan_self processed_lines page_issues] in *.
    rewrite (get_text_line_hit self' pg (Glyph.y0 char) default_tolerance
               (line_chars, line_text)) by (rewrite Hcache; exact Hkey).
    unfold glyph_checks. cbv zeta.
    destruct (length _ <? 3); [rewrite app_nil_r|]; reflexivity.
Qed.

End PageLoop.

Section PageIndependence.

Variable lower : str -> str.

Lemma get_text_line_same_lines (a b : Analyzer) (pg : Page) (y tolerance : Q) :
  same_lines a b ->
  (get_text_line a pg y tolerance).2 = (get_text_line b pg y tolerance).2 /\
  same_lines (get_text_line a pg y tolerance).1 (get_text_line b pg y tolerance).1.
Proof.
  unfold same_lines, get_text_line. intros Hab. rewrite <- Hab.
  destruct (line_cache a !! _); cbn [fst snd line_cache]; [auto|].
  rewrite Hab. auto.
Qed.

Lemma analyze_char_same_scan (page_num : Z) (pg : Page) (st st' : PageScan)
    (char : glyph) :
  same_scan st st' ->
  same_scan (analyze_char lower page_num pg st char)
            (analyze_char lower page_num pg st' char).
Proof.
  intros (Hself & Hseen & Hfound). rewrite !analyze_char_steps.
  destruct (isspace _ || _); [repeat split; assumption|]. cbv zeta.
  destruct (get_text_line_same_lines _ _ pg (Glyph.y0 char) default_tolerance Hself)
    as [Hline Hself1].
  rewrite <- Hseen, <- Hfound, <- Hline.
  destruct (bool_decide _); [repeat split; assumption|].
  repeat split; cbn [scan_self processed_lines page_issues].
  - unfold same_lines.
    rewrite (proj1 (line_contrast_fields _ page_num _)).
    rewrite (proj1 (line_contrast_fields _ page_num _)). exact Hself1.
  - rewrite (line_contrast_issues
               (get_text_line (scan_self st) pg (Glyph.y0 char) default_tolerance).1
               (get_text_line (scan_self st') pg (Glyph.y0 char) default_tolerance).1).
    reflexivity.
Qed.

Lemma fold_analyze_char_same_scan (page_num : Z) (pg : Page) (l : list glyph)
    (st st' : PageScan) :
  same_scan st st' ->
  same_scan (fold_left (analyze_char lower page_num pg) l st)
            (fold_left (analyze_char lower page_num pg) l st').
Proof.
  revert st st'. induction l as [|c l IH]; intros st st' Hst; [exact Hst|].
  cbn [fold_left]. apply IH, analyze_char_same_scan, Hst.
Qed.

(** What [analyze_page] returns depends on the cached lines only. *)
Lemma analyze_page_same_lines (a b : Analyzer) (page_num : Z) (pg : Page) :
  same_lines a b ->
  (analyze_page lower a page_num pg).2 = (analyze_page lower b page_num pg).2.
Proof.
  intros Hab. unfold analyze_page. cbn [snd].
  apply (fold_analyze_char_same_scan page_num pg (chars pg)
           (mkPageScan a ∅ []) (mkPageScan b ∅ [])).
  repeat split. exact Hab.
Qed.

Lemma analyze_char_issues_field (page_num : Z) (pg : Page) (st : PageScan)
    (char : glyph) :
  issues (scan_self (analyze_char lower page_num pg st char)) = issues (scan_self st).
Proof.
  rewrite analyze_char_steps. destruct (isspace _ || _); [reflexivity|]. cbv zeta.
  destruct (bool_decide _); cbn [scan_self].
  - apply get_text_line_issues.
  - rewrite (proj2 (line_contrast_fields _ page_num _)). apply get_text_line_issues.
Qed.

Lemma analyze_page_issues_field (self : Analyzer) (page_num : Z) (pg : Page) :
  issues (analyze_page lower self page_num pg).1 = issues self.
Proof.
  unfold analyze_page. cbn [fst].
  assert (Hfold : forall l st,
            issues (scan_self (fold_left (analyze_char lower page_num pg) l st))
            = issues (scan_self st)).
  { intros l. induction l as [|c l IH]; intros st; [reflexivity|].
    cbn [fold_left]. rewrite IH. apply analyze_char_issues_field. }
  apply Hfold.
Qed.

Lemma analyze_pages_issues (pages : list Page) (self : Analyzer) (page_num : Z) :
  issues (analyze_pages lower self page_num pages)
  = issues self ++ issues_of_pages lower page_num pages.
Proof.
  revert self page_num.
  induction pages as [|pg rest IH]; intros self page_num.
  - cbn [analyze_pages issues_of_pages]. rewrite app_nil_r. reflexivity.
  - cbn [analyze_pages issues_of_pages].
    pose proof (analyze_page_issues_field (clear_caches self) page_num pg) as Hkept.
    pose proof (analyze_page_same_lines (clear_caches self) new_analyzer page_num pg
                  eq_refl) as Hfound.
    destruct (analyze_page lower (clear_caches self) page_num pg) as [self' found].
    cbn [fst snd] in Hkept, Hfound. rewrite IH. cbn [issues].
    rewrite Hkept, Hfound. cbn [clear_caches issues]. rewrite app_assoc. reflexivity.
Qed.

(** X13. [analyze] returns the issues the analyzer already held followed
    by the issues of page 1, page 2, ..., each page analysed as by an
    analyzer with empty caches: nothing of the incoming analyzer and
    nothing of an earlier page changes what a page yields. A second run
    on the same analyzer therefore returns the page issues twice. *)
Theorem analyze_appends_page_issues (self : Analyzer) (pages : list Page) :
  (analyze lower self pages).2 = issues self ++ issues_of_pages lower 1 pages /\
  (analyze lower (analyze lower self pages).1 pages).2
  = issues self ++ issues_of_pages lower 1 pages ++ issues_of_pages lower 1 pages.
Proof.
  unfold analyze. cbn [fst snd]. rewrite !analyze_pages_issues.
  split; [reflexivity|]. rewrite app_assoc. reflexivity.
Qed.

End PageIndependence.

Section Provenance.

Variable lower : str -> str.
Variable page_num : Z.
Variable pg : Page.

Lemma analyze_char_contrast_raised (text : str) (avg_size : Q)
    (is_bold is_large_wcag : bool) (required : Q)
    (acc : Analyzer * list AccessibilityIssue) (char : glyph) :
  In char (chars pg) -> 3 <= length text ->
  Forall (raised_on page_num pg) acc.2 ->
  Forall (raised_on page_num pg)
    (analyze_char_contrast page_num text avg_size is_bold is_large_wcag
       required acc char).2.
Proof.
  destruct acc as [self found]. intros Hin Hlen Hacc. unfold analyze_char_contrast.
  destruct (Rlt_dec _ _); [|exact Hacc].
  cbn [snd]. apply Forall_app. split; [exact Hacc|].
  constructor; [|constructor].
  repeat split; cbn [Issue.page Issue.text Issue.issue_type Issue.background_color].
  - exists char. repeat split. exact Hin.
  - destruct (150 <? length text) eqn:Hlong; [|exact Hlen].
    apply Nat.ltb_lt in Hlong. rewrite length_app, length_take. cbn [length]. lia.
  - destruct (150 <? length text) eqn:Hlong.
    + apply Nat.ltb_lt in Hlong.
      rewrite length_app, length_take.
      change (length (py "...")) with 3. lia.
    + apply Nat.ltb_ge in Hlong. exact Hlong.
  - left. reflexivity.
Qed.

Lemma line_contrast_raised (self : Analyzer) (line : text_line) :
  (forall g, In g line.1 -> In g (chars pg)) ->
  Forall (raised_on page_num pg) (line_contrast self page_num line).2.
Proof.
  intros Hline. unfold line_contrast, analyze_text_line_contrast.
  destruct (strip line.2) as [|c0 stripped]; [constructor|].
  destruct line.1 as [|first rest] eqn:Hchars; [constructor|].
  destruct (length _ <? 3) eqn:Hlen; [constructor|].
  apply Nat.ltb_ge in Hlen.
  set (step := analyze_char_contrast _ _ _ _ _ _).
  assert (Hfold : forall l acc, (forall g, In g l -> In g (chars pg)) ->
            Forall (raised_on page_num pg) acc.2 ->
            Forall (raised_on page_num pg) (fold_left step l acc).2).
  { intros l. induction l as [|c l IH]; intros acc Hl Hacc; [exact Hacc|].
    cbn [fold_left]. apply IH.
    - intros g Hg. apply Hl. right. exact Hg.
    - apply analyze_char_contrast_raised; [apply Hl; left; reflexivity | exact Hlen | exact Hacc]. }
  apply Hfold; [exact Hline | constructor].
Qed.

Lemma preview80_length (text : str) :
  3 <= length text -> 3 <= length (preview80 text) <= 150.
Proof.
  intros Hlen. unfold preview80. rewrite length_app, length_take.
  destruct (80 <? length text) eqn:Hlong.
  - apply Nat.ltb_lt in Hlong. change (length (py "...")) with 3. lia.
  - apply Nat.ltb_ge in Hlong. cbn [length]. lia.
Qed.

Lemma glyph_checks_raised (char : glyph) (line_text : str) :
  In char (chars pg) ->
  Forall (raised_on page_num pg) (glyph_checks lower page_num char line_text).
Proof.
  intros Hin. unfold glyph_checks. cbv zeta.
  destruct (length _ <? 3) eqn:Hlen; [constructor|].
  apply Nat.ltb_ge in Hlen. pose proof (preview80_length _ Hlen) as Hpreview.
  assert (Hglyph : exists g, In g (chars pg) /\
            Glyph.x0 char = Glyph.x0 g /\ Glyph.y0 char = Glyph.y0 g /\
            Glyph.fontname char = Glyph.fontname g /\
            Glyph.size char = Glyph.size g)
    by (exists char; repeat split; exact Hin).
  apply Forall_app. split.
  - unfold font_size_issues.
    destruct (_ && _); [destruct (Qlt_bool _ _)|
                        destruct (negb _); [destruct (Qlt_bool _ _)|]];
      constructor; try constructor.
    all: repeat split; try exact Hglyph; try apply Hpreview.
    all: cbn [Issue.issue_type]; right; left; reflexivity.
  - unfold readability_issues.
    destruct (check_font_readability _ _) as [[] info]; constructor; [|constructor].
    repeat split; try exact Hglyph; try apply Hpreview.
    cbn [Issue.issue_type]. right; right; left; reflexivity.
Qed.

Lemma get_text_line_of_page (self : Analyzer) (y tolerance : Q) :
  cache_of_page pg self ->
  cache_of_page pg (get_text_line self pg y tolerance).1 /\
  (forall g, In g (get_text_line self pg y tolerance).2.1 -> In g (chars pg)).
Proof.
  intros Hcache. unfold get_text_line.
  destruct (line_cache self !! _) as [line|] eqn:Hkey; cbn [fst snd].
  - split; [exact Hcache | exact (Hcache _ _ Hkey)].
  - assert (Hbuilt : forall g, In g (build_text_line pg y tolerance).1 ->
                       In g (chars pg)).
    { intros g Hg. apply build_text_line_In in Hg. apply Hg. }
    split; [|exact Hbuilt].
    intros key line Hline g Hg. cbn [line_cache] in Hline.
    destruct (decide (key = (page_id pg, round2 y))) as [->|Hne].
    + rewrite lookup_insert_eq in Hline. injection Hline as <-. exact (Hbuilt g Hg).
    + rewrite lookup_insert_ne in Hline by congruence. exact (Hcache _ _ Hline g Hg).
Qed.

Lemma analyze_char_raised (st : PageScan) (char : glyph) :
  In char (chars pg) ->
  cache_of_page pg (scan_self st) ->
  Forall (raised_on page_num pg) (page_issues st) ->
  cache_of_page pg (scan_self (analyze_char lower page_num pg st char)) /\
  Forall (raised_on page_num pg)
    (page_issues (analyze_char lower page_num pg st char)).
Proof.
  intros Hin Hcache Hfound. rewrite analyze_char_steps.
  destruct (isspace _ || _); [split; assumption|]. cbv zeta.
  destruct (get_text_line_of_page (scan_self st) (Glyph.y0 char) default_tolerance
              Hcache) as [Hcache1 Hline].
  destruct (bool_decide _); cbn [scan_self page_issues].
  - split; [exact Hcache1|].
    apply Forall_app. split; [exact Hfound | apply glyph_checks_raised, Hin].
  - split.
    + intros key line. rewrite (proj1 (line_contrast_fields _ page_num _)).
      apply Hcache1.
    + rewrite !Forall_app. repeat split;
        [exact Hfound | apply line_contrast_raised, Hline
         | apply glyph_checks_raised, Hin].
Qed.

Lemma analyze_page_raised (self : Analyzer) :
  cache_of_page pg self ->
  Forall (raised_on page_num pg) (analyze_page lower self page_num pg).2.
Proof.
  intros Hcache. unfold analyze_page. cbn [snd].
  assert (Hfold : forall l st, (forall g, In g l -> In g (chars pg)) ->
            cache_of_page pg (scan_self st) ->
            Forall (raised_on page_num pg) (page_issues st) ->
            Forall (raised_on page_num pg)
              (page_issues (fold_left (analyze_char lower page_num pg) l st))).
  { intros l. induction l as [|c l IH]; intros st Hl Hst Hfound; [exact Hfound|].
    cbn [fold_left].
    destruct (analyze_char_raised st c (Hl c (or_introl eq_refl)) Hst Hfound).
    apply IH; [intros g Hg; apply Hl; right; exact Hg | assumption | assumption]. }
  apply Hfold; [auto | exact Hcache | constructor].
Qed.

End Provenance.

Lemma cache_of_page_empty (pg : Page) (self : Analyzer) :
  line_cache self = ∅ -> cache_of_page pg self.
Proof. intros Hempty key line. rewrite Hempty, lookup_empty. discriminate. Qed.

Lemma issues_of_pages_raised (lower : str -> str) (pages : list Page) (first : Z)
    (issue : AccessibilityIssue) :
  In issue (issues_of_pages lower first pages) ->
  exists i pg, pages !! i = Some pg /\ raised_on (first + Z.of_nat i) pg issue.
Proof.
  revert first. induction pages as [|pg rest IH]; intros first Hin; [destruct Hin|].
  cbn [issues_of_pages] in Hin. apply in_app_or in Hin. destruct Hin as [Hin|Hin].
  - exists 0, pg. split; [reflexivity|].
    pose proof (analyze_page_raised lower first pg new_analyzer
                  (cache_of_page_empty pg new_analyzer eq_refl)) as Hall.
    rewrite List.Forall_forall in Hall.
    replace (first + Z.of_nat 0)%Z with first by lia. exact (Hall issue Hin).
  - destruct (IH _ Hin) as (i & pg' & Hlook & Hraised).
    exists (S i), pg'. split; [exact Hlook|].
    replace (first + Z.of_nat (S i))%Z with (first + 1 + Z.of_nat i)%Z by lia.
    exact Hraised.
Qed.

(** X14. Every issue [analyze] returns was either held by the analyzer
    before, or points at a character of one of the pages: its page number
    is the position of that page counted from 1, its coordinates, font
    name and font size are those of one character of that page, its text
    has between 3 and 150 characters, its type is one of the three issue
    types and its background colour is white. *)
Theorem analyze_issue_provenance (lower : str -> str) (self : Analyzer)
    (pages : list Page) (issue : AccessibilityIssue) :
  In issue (analyze lower self pages).2 ->
  In issue (issues self) \/
  exists i pg, pages !! i = Some pg /\ raised_on (Z.of_nat i + 1) pg issue.
Proof.
  unfold analyze. cbn [snd]. rewrite analyze_pages_issues. intros Hin.
  apply in_app_or in Hin. destruct Hin as [Hin|Hin]; [left; exact Hin|].
  right. destruct (issues_of_pages_raised lower pages 1 issue Hin)
    as (i & pg & Hlook & Hraised).
  exists i, pg. split; [exact Hlook|].
  replace (Z.of_nat i + 1)%Z with (1 + Z.of_nat i)%Z by lia. exact Hraised.
Qed.

Lemma analyze_issue_provenance_witness :
  exists i pg,
    [hello_page] !! i = Some pg /\
    raised_on (Z.of_nat i + 1) pg (hello_issue (arial10 "h" 72 700)).
Proof.
  destruct (analyze_issue_provenance ascii_lower new_analyzer [hello_page]
              (hello_issue (arial10 "h" 72 700))) as [Hold|Hnew].
  - rewrite (hello_analysis ascii_lower ascii_lower_lowers_ascii).
    left. reflexivity.
  - destruct Hold.
  - exact Hnew.
Defined.

(** ** Issue detector: font sizes, blank pages and black text *)

(** The font-size check, once the line text is long enough, looks at
    the size only. *)
Lemma font_size_issues_by_size (page_num : Z) (char : glyph) (normalized_text : str) :
  font_size_issues page_num char normalized_text
  = if Qlt_bool (Glyph.size char) 12
    then [undersized_issue page_num char normalized_text]
    else [].
Proof.
  unfold font_size_issues, undersized_issue, is_large_text_by_wcag.
  change (inject_Z MIN_FONT_SIZE) with 12%Q.
  change (inject_Z MIN_HEADING_SIZE) with 14%Q.
  set (size := Glyph.size char).
  destruct (Qlt_bool size 12) eqn:H12.
  - apply Qlt_bool_iff in H12.
    assert (H14 : Qle_bool 14 size = false)
      by (apply Qle_bool_false_iff; eapply Qlt_trans; [exact H12|reflexivity]).
    assert (H18 : Qle_bool 18 size = false)
      by (apply Qle_bool_false_iff; eapply Qlt_trans; [exact H12|reflexivity]).
    rewrite H14, H18, andb_false_r. cbn [andb negb]. reflexivity.
  - assert (Hge : (12 <= size)%Q).
    { apply Qnot_lt_le. intros Hlt. apply Qlt_bool_iff in Hlt. congruence. }
    destruct (Qle_bool 14 size) eqn:H14.
    + assert (Hnot : Qlt_bool size 14 = false).
      { destruct (Qlt_bool size 14) eqn:Hlt; [|reflexivity].
        apply Qlt_bool_iff in Hlt. apply Qle_bool_iff in H14.
        exfalso. exact (Qlt_not_le _ _ Hlt H14). }
      rewrite Hnot.
      destruct (contains (py "Bold") (Glyph.fontname char)); cbn [andb]; [reflexivity|].
      destruct (Qle_bool 18 size); [reflexivity|].
      destruct (existsb _ bold_terms); reflexivity.
    + rewrite andb_false_r.
      destruct (Qle_bool 18 size); reflexivity.
Qed.

Section BlankPage.

Variable lower : str -> str.

(** X16. A page whose characters are all empty or white space (or that
    has no character) yields no issue, and [analyze_page] leaves the
    analyzer, caches included, as it was. *)
Theorem blank_page_untouched (self : Analyzer) (page_num : Z) (pg : Page) :
  Forall blank_glyph (chars pg) ->
  analyze_page lower self page_num pg = (self, []).
Proof.
  intros Hblank. unfold analyze_page.
  assert (Hfold : forall l st, Forall blank_glyph l ->
            fold_left (analyze_char lower page_num pg) l st = st).
  { intros l st Hl. induction Hl as [|c l Hc Hl IH]; [reflexivity|].
    cbn [fold_left]. unfold analyze_char at 2.
    rewrite (bool_decide_eq_true_2 _ Hc), orb_true_r. exact IH. }
  rewrite Hfold by exact Hblank. reflexivity.
Qed.

End BlankPage.

Lemma blank_page_untouched_witness :
  analyze_page ascii_lower new_analyzer 1 (mkPage 1 [arial10 " " 0 0])
  = (new_analyzer, []).
Proof.
  apply blank_page_untouched. repeat constructor.
Defined.

Section BlackPages.

Variable lower : str -> str.

Lemma line_contrast_black (self : Analyzer) (page_num : Z) (line : text_line) :
  Forall plain_black_glyph line.1 ->
  line_contrast self page_num line = (self, []).
Proof.
  intros Hblack. unfold line_contrast.
  destruct (strip line.2); [reflexivity|].
  apply analyze_text_line_contrast_black, Hblack.
Qed.

Lemma get_text_line_colours (self : Analyzer) (pg : Page) (y tolerance : Q) :
  color_issues (get_text_line self pg y tolerance).1 = color_issues self /\
  problematic_colors_found (get_text_line self pg y tolerance).1
  = problematic_colors_found self.
Proof.
  unfold get_text_line. destruct (line_cache self !! _); split; reflexivity.
Qed.

Lemma glyph_checks_not_contrast (page_num : Z) (char : glyph) (line_text : str) :
  Forall not_contrast (glyph_checks lower page_num char line_text).
Proof.
  unfold glyph_checks. cbv zeta. destruct (length _ <? 3); [constructor|].
  apply Forall_app. split.
  - unfold font_size_issues.
    destruct (_ && _); [destruct (Qlt_bool _ _)|
                        destruct (negb _); [destruct (Qlt_bool _ _)|]];
      repeat constructor.
    all: unfold not_contrast; cbn [Issue.issue_type]; discriminate.
  - unfold readability_issues.
    destruct (check_font_readability _ _) as [[] info]; repeat constructor.
    unfold not_contrast. cbn [Issue.issue_type]. discriminate.
Qed.

Lemma analyze_char_black (page_num : Z) (pg : Page) (st : PageScan) (char : glyph) :
  black_page pg ->
  cache_of_page pg (scan_self st) ->
  Forall not_contrast (page_issues st) ->
  let st' := analyze_char lower page_num pg st char in
  cache_of_page pg (scan_self st') /\
  Forall not_contrast (page_issues st') /\
  color_issues (scan_self st') = color_issues (scan_self st) /\
  problematic_colors_found (scan_self st') = problematic_colors_found (scan_self st).
Proof.
  intros Hblack Hcache Hfound. cbv zeta. rewrite analyze_char_steps.
  destruct (isspace _ || _); [repeat split; assumption|]. cbv zeta.
  destruct (get_text_line_of_page pg (scan_self st) (Glyph.y0 char)
              default_tolerance Hcache) as [Hcache1 Hline].
  destruct (get_text_line_colours (scan_self st) pg (Glyph.y0 char)
              default_tolerance) as [Hcolour Hseen].
  destruct (bool_decide _); cbn [scan_self page_issues].
  - repeat split; try assumption.
    apply Forall_app. split; [exact Hfound | apply glyph_checks_not_contrast].
  - rewrite line_contrast_black.
    + cbn [fst snd]. rewrite app_nil_r. repeat split; try assumption.
      apply Forall_app. split; [exact Hfound | apply glyph_checks_not_contrast].
    + apply List.Forall_forall. intros g Hg.
      unfold black_page in Hblack. rewrite List.Forall_forall in Hblack.
      apply Hblack, Hline, Hg.
Qed.

Lemma analyze_page_black (self : Analyzer) (page_num : Z) (pg : Page) :
  black_page pg -> cache_of_page pg self ->
  Forall not_contrast (analyze_page lower self page_num pg).2 /\
  color_issues (analyze_page lower self page_num pg).1 = color_issues self /\
  problematic_colors_found (analyze_page lower self page_num pg).1
  = problematic_colors_found self.
Proof.
  intros Hblack Hcache. unfold analyze_page. cbn [fst snd].
  assert (Hfold : forall l st,
            cache_of_page pg (scan_self st) ->
            Forall not_contrast (page_issues st) ->
            let st' := fold_left (analyze_char lower page_num pg) l st in
            Forall not_contrast (page_issues st') /\
            color_issues (scan_self st') = color_issues (scan_self st) /\
            problematic_colors_found (scan_self st')
            = problematic_colors_found (scan_self st)).
  { intros l. induction l as [|c l IH]; intros st Hst Hfound; [repeat split; assumption|].
    cbn [fold_left]. cbv zeta.
    destruct (analyze_char_black page_num pg st c Hblack Hst Hfound)
      as (Hst1 & Hfound1 & Hcolour & Hseen).
    destruct (IH _ Hst1 Hfound1) as (Hfound2 & Hcolour2 & Hseen2).
    repeat split; [assumption | congruence | congruence]. }
  apply (Hfold (chars pg) (mkPageScan self ∅ [])); [exact Hcache | constructor].
Qed.

Lemma analyze_pages_black (pages : list Page) (self : Analyzer) (page_num : Z) :
  Forall black_page pages ->
  Forall not_contrast (issues_of_pages lower page_num pages) /\
  color_issues (analyze_pages lower self page_num pages) = color_issues self /\
  problematic_colors_found (analyze_pages lower self page_num pages)
  = problematic_colors_found self.
Proof.
  intros Hblack. revert self page_num.
  induction Hblack as [|pg rest Hpg Hrest IH]; intros self page_num.
  - repeat split. constructor.
  - cbn [analyze_pages issues_of_pages].
    destruct (analyze_page_black new_analyzer page_num pg Hpg
                (cache_of_page_empty pg new_analyzer eq_refl)) as (Hfound & _ & _).
    destruct (analyze_page_black (clear_caches self) page_num pg Hpg
                (cache_of_page_empty pg (clear_caches self) eq_refl))
      as (_ & Hcolour & Hseen).
    destruct (analyze_page lower (clear_caches self) page_num pg) as [self' found].
    cbn [fst snd] in Hcolour, Hseen.
    match goal with
    | |- context [analyze_pages lower ?s ?n rest] =>
      destruct (IH s n) as (Hfound' & Hcolour' & Hseen')
    end.
    cbn [color_issues problematic_colors_found] in Hcolour', Hseen'.
    repeat split.
    + apply Forall_app. split; assumption.
    + rewrite Hcolour', Hcolour. reflexivity.
    + rewrite Hseen', Hseen. reflexivity.
Qed.

(** X17. For a document whose characters all have a plain black colour,
    [analyze] adds no contrast issue to the issues the analyzer held, and
    it records nothing in [color_issues] and [problematic_colors_found]. *)
Theorem black_pages_raise_no_contrast (self : Analyzer) (pages : list Page) :
  Forall black_page pages ->
  (exists found,
     (analyze lower self pages).2 = issues self ++ found /\
     Forall not_contrast found) /\
  color_issues (analyze lower self pages).1 = color_issues self /\
  problematic_colors_found (analyze lower self pages).1
  = problematic_colors_found self.
Proof.
  intros Hblack. unfold analyze. cbn [fst snd].
  destruct (analyze_pages_black pages self 1 Hblack) as (Hfound & Hcolour & Hseen).
  split; [|split; assumption].
  exists (issues_of_pages lower 1 pages). split; [|exact Hfound].
  apply analyze_pages_issues.
Qed.

End BlackPages.

Lemma black_pages_raise_no_contrast_witness :
  color_issues (analyze ascii_lower new_analyzer [hello_page]).1 = [] /\
  problematic_colors_found (analyze ascii_lower new_analyzer [hello_page]).1 = [].
Proof.
  refine (proj2 (black_pages_raise_no_contrast ascii_lower new_analyzer
                   [hello_page] _)).
  repeat constructor.
Defined.

(** ** Reports *)

Section ReportFacts.

Variable is_word : char -> bool.
Variable basename : str -> str.
Variable now : str.

(** X19. In the JSON report [total_issues] is the number of all the
    issues, while [issues] lists the first 1000 only, so the two differ
    exactly when there are more than 1000 issues; [color_issues] is cut
    at 100; [total_words] is the words of the issue texts;
    [pages_affected] lists the pages of the issues in increasing order
    without repetition; the places of [by_severity] and [by_type] are
    the counts of the issues of that severity and type. *)
Theorem json_report_totals (pdf_path : str) (self : Analyzer)
    (sev : Severity) (ty : str) :
  let report := generate_json_report is_word basename now pdf_path self in
  let summary := jr_summary report in
  js_total_issues summary = length (issues self) /\
  length (jr_issues report) = Nat.min 1000 (length (issues self)) /\
  (length (jr_issues report) < js_total_issues summary
   <-> 1000 < length (issues self)) /\
  length (jr_color_issues report) = Nat.min 100 (length (color_issues self)) /\
  js_total_words summary = words_of is_word (issues self) /\
  Sorted Z.le (js_pages_affected summary) /\
  NoDup (js_pages_affected summary) /\
  (forall p, In p (js_pages_affected summary) <-> p ∈ pages_of (issues self)) /\
  default 0 (places <$> js_by_severity summary !! sev)
  = count_severity sev (issues self) /\
  default 0 (jt_total_places <$> js_by_type summary !! ty)
  = count_type ty (issues self).
Proof.
  cbv zeta. unfold generate_json_report.
  cbn [jr_summary jr_issues jr_color_issues js_total_issues js_total_words
       js_pages_affected js_by_severity js_by_type].
  unfold group_and_summarize_issues_improved.
  destruct (summarize_fold_counts is_word (issues self) empty_summary) as [Hplaces _].
  destruct (summarize_fold_views is_word (issues self) empty_summary)
    as (_ & _ & Hwords & _ & _).
  destruct (summarize_fold_distributions is_word (issues self) empty_summary sev ty)
    as (Hpages & _ & Hsev & _ & Hty).
  cbv zeta in *.
  cbn [empty_summary overall total_places total_words pages_with_issues
       by_severity by_type] in *.
  rewrite lookup_empty in Hsev. rewrite lookup_empty in Hty. rewrite union_empty_r_L in Hpages.
  cbn [fmap option_fmap option_map default] in Hsev, Hty.
  rewrite Hplaces, Hwords, Hpages, !length_take.
  split; [lia|]. split; [lia|]. split; [lia|]. split; [lia|]. split; [lia|].
  unfold sorted_pages.
  split; [apply Sorted_merge_sort; apply _|].
  split; [rewrite merge_sort_Permutation; apply NoDup_elements|].
  split.
  { intros p. rewrite <- list_elem_of_In, merge_sort_Permutation.
    apply elem_of_elements. }
  rewrite !lookup_fmap. cbn [Nat.add] in Hsev, Hty.
  rewrite <- Hsev, <- Hty.
  split.
  - destruct (_ !! sev); reflexivity.
  - destruct (_ !! ty); reflexivity.
Qed.

End ReportFacts.

(** ** Font names and screenshots *)

Lemma contains_app_r (sub a b : str) :
  contains sub b = true -> contains sub (a ++ b) = true.
Proof.
  intros Hb. induction a as [|c a IH]; [exact Hb|].
  cbn [app contains]. rewrite IH. apply orb_true_r.
Qed.

Lemma contains_head (sep : char) (s : str) : contains [sep] (sep :: s) = true.
Proof. cbn [contains starts_with]. rewrite N.eqb_refl. reflexivity. Qed.

Lemma after_last_tag (sep : char) (tag name : str) :
  after_last sep (tag ++ sep :: name)
  = if contains [sep] name then after_last sep name else name.
Proof.
  induction tag as [|c tag IH].
  - cbn [app after_last]. rewrite N.eqb_refl. reflexivity.
  - cbn [app after_last].
    rewrite (contains_app_r [sep] tag (sep :: name) (contains_head sep name)).
    exact IH.
Qed.

Section SubsetTag.

Variable lower : str -> str.

(** X18. The tag of a subset font is ignored: for every [tag] and
    [name], the font name [tag + "+" + name] is normalised like [name] and
    gets the same readability verdict and reason. *)
Theorem subset_tag_ignored (tag name : str) :
  normalize_font_name (tag ++ py "+" ++ name) = normalize_font_name name /\
  check_font_readability lower (tag ++ py "+" ++ name)
  = check_font_readability lower name.
Proof.
  assert (Hname : normalize_font_name (tag ++ py "+" ++ name)
                  = normalize_font_name name).
  { unfold normalize_font_name.
    change (py "+" ++ name) with (43%N :: name). change (py "+") with [43%N].
    rewrite (contains_app_r [43%N] tag (43%N :: name) (contains_head 43%N name)).
    rewrite after_last_tag. reflexivity. }
  split; [exact Hname|].
  unfold check_font_readability. rewrite Hname. reflexivity.
Qed.

End SubsetTag.

Lemma py_index_In {A : Type} (l : list A) (i : Z) (x : A) :
  py_index l i = Some x -> In x l.
Proof.
  unfold py_index. destruct (0 <=? i)%Z.
  - intros Hlook. apply list_elem_of_In. exact (list_elem_of_lookup_2 _ _ _ Hlook).
  - destruct (0 <=? _)%Z; [|discriminate].
    intros Hlook. apply list_elem_of_In. exact (list_elem_of_lookup_2 _ _ _ Hlook).
Qed.

Section ScreenshotFacts.

Variable page_width : Page -> Q.
Variable page_height : Page -> Q.

(** X20. [create_screenshot] asks for no image when neither [full_page]
    nor [bbox] is given (the defaults), whatever the page number, and
    when [page_num > len(pages)] or [page_num <= -len(pages)]. With
    [full_page] it asks for the whole page at position [page_num] for
    [1 <= page_num <= len(pages)], and for a page counted from the end
    for [-len(pages) < page_num <= 0] ([page_num = 0] gives the last
    page). A crop it asks for is of one of the pages and its box starts at
    or after 0 and ends at or before the width and height of the page. *)
Theorem create_screenshot_requests (page_num : Z) (box : option bbox)
    (full_page highlight_issue : bool) (pages : list Page) :
  let count := Z.of_nat (length pages) in
  let request :=
    create_screenshot page_width page_height page_num box full_page
      highlight_issue pages in
  (full_page = false -> box = None -> request = None) /\
  ((count < page_num)%Z \/ (page_num <= - count)%Z -> request = None) /\
  (full_page = true ->
   ((1 <= page_num <= count)%Z ->
    exists pg, pages !! Z.to_nat (page_num - 1) = Some pg /\
               request = Some (whole_page pg)) /\
   ((- count < page_num <= 0)%Z ->
    exists pg, pages !! Z.to_nat (count + page_num - 1) = Some pg /\
               request = Some (whole_page pg))) /\
  (forall pg x0 y0 x1 y1,
     request = Some (cropped_page pg (x0, y0, x1, y1)) ->
     In pg pages /\
     (0 <= x0 /\ 0 <= y0 /\ x1 <= page_width pg /\ y1 <= page_height pg)%Q).
Proof.
  cbv zeta. unfold create_screenshot.
  split; [|split; [|split]].
  - intros -> ->. destruct (_ <? _)%Z; [reflexivity|].
    destruct (py_index _ _); reflexivity.
  - intros Hout. destruct (Z.ltb_spec (Z.of_nat (length pages)) page_num);
      [reflexivity|].
    unfold py_index.
    destruct (Z.leb_spec 0 (page_num - 1)); [lia|].
    destruct (Z.leb_spec 0 (Z.of_nat (length pages) + (page_num - 1))); [lia|].
    reflexivity.
  - intros ->. split; intros Hrange.
    + destruct (Z.ltb_spec (Z.of_nat (length pages)) page_num); [lia|].
      unfold py_index. destruct (Z.leb_spec 0 (page_num - 1)); [|lia].
      destruct (lookup_lt_is_Some_2 pages (Z.to_nat (page_num - 1))) as [pg Hpg];
        [lia|].
      exists pg. rewrite Hpg. split; reflexivity.
    + destruct (Z.ltb_spec (Z.of_nat (length pages)) page_num); [lia|].
      unfold py_index. destruct (Z.leb_spec 0 (page_num - 1)); [lia|].
      destruct (Z.leb_spec 0 (Z.of_nat (length pages) + (page_num - 1))); [|lia].
      replace (Z.of_nat (length pages) + page_num - 1)%Z
        with (Z.of_nat (length pages) + (page_num - 1))%Z by lia.
      destruct (lookup_lt_is_Some_2 pages
                  (Z.to_nat (Z.of_nat (length pages) + (page_num - 1))))
        as [pg Hpg]; [lia|].
      exists pg. rewrite Hpg. split; reflexivity.
  - intros pg x0 y0 x1 y1.
    destruct (_ <? _)%Z; [discriminate|].
    destruct (py_index pages (page_num - 1)) as [page|] eqn:Hpage; [|discriminate].
    destruct full_page; [discriminate|].
    destruct box as [[[[a0 b0] a1] b1]|]; [|discriminate].
    intros [= <- <- <- <- <-].
    split; [exact (py_index_In _ _ _ Hpage)|].
    repeat split; auto using Q.le_max_l, Q.le_min_l.
Qed.

End ScreenshotFacts.

Lemma create_screenshot_requests_witness :
  create_screenshot (fun _ => 612%Q) (fun _ => 792%Q) 0 None true false
    [hello_page; two_line_page]
  = Some (whole_page two_line_page).
Proof.
  destruct (create_screenshot_requests (fun _ => 612%Q) (fun _ => 792%Q) 0 None true
              false [hello_page; two_line_page]) as (_ & _ & Hfull & _).
  destruct (Hfull eq_refl) as [_ Hwrap].
  destruct Hwrap as (pg & Hpg & Hrequest); [cbn; lia|].
  cbn in Hpg. injection Hpg as <-. exact Hrequest.
Defined.

(** ** Colour model: text on the white background *)

Section AgainstWhite.

Local Open Scope R_scope.

(** X21. The background is always white, so for a colour of the unit
    cube the contrast ratio the detector computes is
    [1.05 / (L + 0.05)] with [L] the luminance of the text colour: the
    colour falls below the ratio 4.5 of normal text exactly when
    [L > 11/60] and below the ratio 3 of large text exactly when
    [L > 0.3]. *)
Theorem contrast_against_white (c : rgbR) (x y : Q) :
  channels_in_unit c ->
  let ratio :=
    calculate_contrast_ratio c (rgb_to_R (extract_background_color x y)) in
  ratio = 1.05 / (calculate_luminance c + 0.05) /\
  (ratio < Q2R MIN_CONTRAST_RATIO <-> 11 / 60 < calculate_luminance c) /\
  (ratio < Q2R MIN_CONTRAST_LARGE <-> 0.3 < calculate_luminance c).
Proof.
  intros Hc. cbv zeta.
  pose proof (calculate_luminance_nonneg c (channels_in_unit_nonneg c Hc)) as H0.
  pose proof (calculate_luminance_le_1 c Hc) as H1.
  assert (Hratio : calculate_contrast_ratio c
                     (rgb_to_R (extract_background_color x y))
                   = 1.05 / (calculate_luminance c + 0.05)).
  { unfold extract_background_color, rgb_to_R, calculate_contrast_ratio.
    rewrite Q2R_1, luminance_white.
    rewrite Rmax_right, Rmin_left by lra.
    destruct (Req_dec_T _ _); [lra|]. f_equal. lra. }
  rewrite Hratio. split; [reflexivity|].
  set (l := calculate_luminance c) in *.
  assert (H45 : Q2R MIN_CONTRAST_RATIO = 4.5) by (unfold Q2R; simpl; lra).
  assert (H3 : Q2R MIN_CONTRAST_LARGE = 3) by (unfold Q2R; simpl; lra).
  rewrite H45, H3.
  assert (Hdiv : forall t, 0 < t -> (1.05 / (l + 0.05) < t <-> 1.05 < t * (l + 0.05))).
  { intros t Ht. split; intros Hlt.
    - apply (Rmult_lt_compat_r (l + 0.05)) in Hlt; [|lra].
      unfold Rdiv in Hlt. rewrite Rmult_assoc, Rinv_l, Rmult_1_r in Hlt by lra.
      exact Hlt.
    - apply (Rmult_lt_reg_r (l + 0.05)); [lra|].
      unfold Rdiv. rewrite Rmult_assoc, Rinv_l, Rmult_1_r by lra. exact Hlt. }
  rewrite !Hdiv by lra. split; split; intros; lra.
Qed.

End AgainstWhite.

Lemma contrast_against_white_witness :
  (calculate_contrast_ratio (0, 0, 0) (rgb_to_R (extract_background_color 0 0))
   = 1.05 / (calculate_luminance (0, 0, 0) + 0.05))%R.
Proof.
  refine (proj1 (contrast_against_white (0, 0, 0)%R 0 0 _)).
  unfold channels_in_unit. lra.
Defined.

(** ** Aggregator: the buckets of the summary *)

Section SummaryBuckets.

Variable is_word : char -> bool.

Lemma bump_severity_places (s : Severity) (n : nat) (g : SeverityCounters) :
  sc_places (bump_severity s n g) = sc_places g + 1.
Proof. destruct s; unfold sc_places; cbn; lia. Qed.

Lemma summarize_issue_buckets (summary : Summary) (issue : AccessibilityIssue)
    (sev : Severity) (ty : str) :
  let summary' := summarize_issue is_word summary issue in
  (is_Some (by_type summary' !! ty)
   <-> is_Some (by_type summary !! ty) \/ Issue.issue_type issue = ty) /\
  (is_Some (by_type_severity summary' !! ty)
   <-> is_Some (by_type_severity summary !! ty) \/ Issue.issue_type issue = ty) /\
  (is_Some (by_severity summary' !! sev)
   <-> is_Some (by_severity summary !! sev) \/ Issue.severity issue = sev) /\
  default 0 (sc_places <$> by_type_severity summary' !! ty)
  = default 0 (sc_places <$> by_type_severity summary !! ty)
    + (if bool_decide (Issue.issue_type issue = ty) then 1 else 0).
Proof.
  cbv zeta. unfold summarize_issue.
  cbn [by_type by_type_severity by_severity].
  destruct (decide (Issue.issue_type issue = ty)) as [Hty|Hty];
    destruct (decide (Issue.severity issue = sev)) as [Hsev|Hsev].
  all: rewrite ?Hty, ?Hsev.
  all: rewrite ?lookup_insert_eq; rewrite ?lookup_insert_ne by assumption.
  all: rewrite ?bool_decide_eq_true_2 by reflexivity;
       rewrite ?bool_decide_eq_false_2 by assumption.
  all: repeat split; intros; eauto; try tauto.
  all: try (destruct H as [H|H]; [exact H | contradiction]).
  all: try (cbn [fmap option_fmap option_map default]; rewrite bump_severity_places;
            destruct (by_type_severity summary !! ty); cbn; lia).
  all: try lia.
Qed.

Lemma summarize_fold_buckets (l : list AccessibilityIssue) (summary : Summary)
    (sev : Severity) (ty : str) :
  let summary' := fold_left (summarize_issue is_word) l summary in
  (is_Some (by_type summary' !! ty)
   <-> is_Some (by_type summary !! ty) \/ 0 < count_type ty l) /\
  (is_Some (by_type_severity summary' !! ty)
   <-> is_Some (by_type_severity summary !! ty) \/ 0 < count_type ty l) /\
  (is_Some (by_severity summary' !! sev)
   <-> is_Some (by_severity summary !! sev) \/ 0 < count_severity sev l) /\
  default 0 (sc_places <$> by_type_severity summary' !! ty)
  = default 0 (sc_places <$> by_type_severity summary !! ty) + count_type ty l.
Proof.
  revert summary. induction l as [|issue l IH]; intros summary.
  - unfold count_type, count_severity. cbn [fold_left List.filter length].
    repeat split; intros; try tauto; try lia.
    all: destruct H as [H|H]; [exact H | lia].
  - cbn [fold_left].
    destruct (IH (summarize_issue is_word summary issue)) as (I1 & I2 & I3 & I4).
    destruct (summarize_issue_buckets summary issue sev ty) as (S1 & S2 & S3 & S4).
    cbv zeta in *. rewrite I1, I2, I3, I4, S1, S2, S3, S4.
    clear IH I1 I2 I3 I4 S1 S2 S3 S4.
    unfold count_type, count_severity. cbn [List.filter].
    destruct (decide (Issue.issue_type issue = ty)) as [Hty|Hty];
      destruct (decide (Issue.severity issue = sev)) as [Hsev|Hsev].
    all: rewrite ?(bool_decide_eq_true_2 _ Hty), ?(bool_decide_eq_false_2 _ Hty),
           ?(bool_decide_eq_true_2 _ Hsev), ?(bool_decide_eq_false_2 _ Hsev).
    all: cbn [length].
    all: repeat split; intros; try lia; intuition lia.
Qed.

(** X22. A bucket of the summary exists exactly when an issue falls
    into it: [by_type] and [by_type_severity] have the key of a type, and
    [by_severity] the key of a severity, if and only if at least one
    issue has that type or severity; the places of [by_type_severity]
    (high, medium and low together) are the number of issues of the
    type. No bucket is empty. *)
Theorem summary_buckets (self : Analyzer) (sev : Severity) (ty : str) :
  let summary := group_and_summarize_issues_improved is_word self in
  (is_Some (by_type summary !! ty) <-> 0 < count_type ty (issues self)) /\
  (is_Some (by_type_severity summary !! ty) <-> 0 < count_type ty (issues self)) /\
  (is_Some (by_severity summary !! sev) <-> 0 < count_severity sev (issues self)) /\
  default 0 (sc_places <$> by_type_severity summary !! ty)
  = count_type ty (issues self).
Proof.
  cbv zeta. unfold group_and_summarize_issues_improved.
  destruct (summarize_fold_buckets (issues self) empty_summary sev ty)
    as (H1 & H2 & H3 & H4).
  cbv zeta in *. rewrite H1, H2, H3, H4.
  cbn [empty_summary by_type by_type_severity by_severity].
  rewrite !lookup_empty. cbn [fmap option_fmap option_map default].
  repeat split; intros; try lia; auto.
  all: destruct H as [H|H]; [destruct H; discriminate | exact H].
Qed.

End SummaryBuckets.

(** ** Aggregator: conservation in the four views *)

Section SummaryCells.

Variable is_word : char -> bool.

Lemma bump_severity_cell (s sev : Severity) (n : nat) (g : SeverityCounters) :
  places (sc_cell sev (bump_severity s n g))
  = places (sc_cell sev g) + (if bool_decide (s = sev) then 1 else 0).
Proof.
  destruct s, sev; cbn [bump_severity sc_cell sc_high sc_medium sc_low bump places];
    rewrite ?bool_decide_eq_true_2 by reflexivity;
    rewrite ?bool_decide_eq_false_2 by discriminate; lia.
Qed.

Lemma summarize_issue_cells (summary : Summary) (issue : AccessibilityIssue)
    (sev : Severity) (ty : str) :
  let summary' := summarize_issue is_word summary issue in
  let hit := if bool_decide (Issue.issue_type issue = ty)
                && bool_decide (Issue.severity issue = sev) then 1 else 0 in
  default 0 ((fun g => places (sc_cell sev g)) <$> by_type_severity summary' !! ty)
  = default 0 ((fun g => places (sc_cell sev g)) <$> by_type_severity summary !! ty)
    + hit /\
  default 0 (st_type_places ty <$> by_severity summary' !! sev)
  = default 0 (st_type_places ty <$> by_severity summary !! sev) + hit.
Proof.
  cbv zeta. unfold summarize_issue, st_type_places.
  cbn [by_type_severity by_severity].
  destruct (decide (Issue.issue_type issue = ty)) as [Hty|Hty];
    destruct (decide (Issue.severity issue = sev)) as [Hsev|Hsev].
  all: rewrite ?Hty, ?Hsev.
  all: rewrite ?lookup_insert_eq; rewrite ?lookup_insert_ne by assumption.
  all: rewrite ?bool_decide_eq_true_2 by reflexivity;
       rewrite ?bool_decide_eq_false_2 by assumption.
  all: cbn [andb fmap option_fmap option_map default st_types].
  all: rewrite ?lookup_insert_eq; rewrite ?lookup_insert_ne by assumption.
  all: rewrite ?bump_severity_cell.
  all: rewrite ?bool_decide_eq_true_2 by reflexivity;
       rewrite ?bool_decide_eq_false_2 by assumption.
  all: split.
  all: try (unfold Datatypes.id; destruct (by_type_severity summary !! ty);
            destruct sev; cbn; lia).
  all: try (destruct (by_severity summary !! sev) as [data|]; cbn;
            [destruct (st_types data !! ty) | rewrite ?lookup_empty]; cbn; lia).
  all: try lia.
Qed.

Lemma summarize_fold_cells (l : list AccessibilityIssue) (summary : Summary)
    (sev : Severity) (ty : str) :
  let summary' := fold_left (summarize_issue is_word) l summary in
  default 0 ((fun g => places (sc_cell sev g)) <$> by_type_severity summary' !! ty)
  = default 0 ((fun g => places (sc_cell sev g)) <$> by_type_severity summary !! ty)
    + count_cell ty sev l /\
  default 0 (st_type_places ty <$> by_severity summary' !! sev)
  = default 0 (st_type_places ty <$> by_severity summary !! sev)
    + count_cell ty sev l.
Proof.
  revert summary. induction l as [|issue l IH]; intros summary.
  - unfold count_cell. cbn [fold_left List.filter length]. lia.
  - cbn [fold_left].
    destruct (IH (summarize_issue is_word summary issue)) as [I1 I2].
    destruct (summarize_issue_cells summary issue sev ty) as [S1 S2].
    cbv zeta in *. rewrite I1, I2, S1, S2.
    unfold count_cell. cbn [List.filter].
    destruct (_ && _); cbn [length]; lia.
Qed.

(** C7. The summary conserves the count in its four views, and every
    issue is counted once in each: [overall.total_places] and the sums of
    the places of [by_severity], of [by_type] and of [by_type_severity]
    all equal the number of issues; the entry of a severity, of a type
    and of a type and severity (in [by_type_severity] and in the type
    breakdown of [by_severity]) holds the number of issues of that
    severity, type, or type and severity, a missing key standing for
    zero. *)
Theorem summary_conserves_count (self : Analyzer) (sev : Severity) (ty : str) :
  let summary := group_and_summarize_issues_improved is_word self in
  let found := issues self in
  (total_places (overall summary) = length found /\
   sum_over st_places (by_severity summary) = length found /\
   sum_over tt_total_places (by_type summary) = length found /\
   sum_over sc_places (by_type_severity summary) = length found) /\
  (default 0 (st_places <$> by_severity summary !! sev) = count_severity sev found /\
   default 0 (tt_total_places <$> by_type summary !! ty) = count_type ty found /\
   default 0 (severity_distribution (overall summary) !! sev)
   = count_severity sev found /\
   default 0 (types_distribution (overall summary) !! ty) = count_type ty found) /\
  (default 0 ((fun g => places (sc_cell sev g)) <$> by_type_severity summary !! ty)
   = count_cell ty sev found /\
   default 0 (st_type_places ty <$> by_severity summary !! sev)
   = count_cell ty sev found).
Proof.
  cbv zeta. unfold group_and_summarize_issues_improved.
  destruct (summarize_fold_counts is_word (issues self) empty_summary) as [C1 C2].
  destruct (summarize_fold_views is_word (issues self) empty_summary)
    as (V1 & V2 & _).
  destruct (summarize_fold_distributions is_word (issues self) empty_summary sev ty)
    as (_ & D2 & D3 & D4 & D5).
  destruct (summarize_fold_cells (issues self) empty_summary sev ty) as [L1 L2].
  cbv zeta in *.
  rewrite C1, C2, V1, V2, D2, D3, D4, D5, L1, L2.
  cbn [empty_summary overall total_places by_severity by_type by_type_severity
       severity_distribution types_distribution].
  rewrite !sum_over_empty, !lookup_empty.
  cbn [fmap option_fmap option_map default].
  repeat split; lia.
Qed.

End SummaryCells.

(** ** Aggregator: one-off findings and the length of the key *)

Section SingletonFacts.

Variable lower : str -> str.
Variable is_word : char -> bool.




End SingletonFacts.



(** ** Issue detector: the font-size issues of a page *)

Lemma find_app_split {A : Type} (p : A -> bool) (l l' : list A) :
  List.find p (l ++ l')
  = match List.find p l with
    | Some x => Some x
    | None => List.find p l'
    end.
Proof.
  induction l as [|a l IH]; [reflexivity|].
  cbn [app List.find]. destruct (p a); [reflexivity | exact IH].
Qed.

Section PageFontSizes.

Variable lower : str -> str.
Variable page_num : Z.
Variable pg : Page.

Lemma fold_contrast_types (text : str) (avg_size : Q)
    (is_bold is_large_wcag : bool) (required : Q) (l : list glyph)
    (acc : Analyzer * list AccessibilityIssue) :
  List.filter is_font_size_issue
    (fold_left (analyze_char_contrast page_num text avg_size is_bold
                  is_large_wcag required) l acc).2
  = List.filter is_font_size_issue acc.2.
Proof.
  revert acc. induction l as [|c l IH]; intros acc; [reflexivity|].
  cbn [fold_left]. rewrite IH. destruct acc as [self found].
  unfold analyze_char_contrast. destruct (Rlt_dec _ _); [|reflexivity].
  cbn [snd]. rewrite List.filter_app. cbn [List.filter].
  unfold is_font_size_issue at 2. cbn [Issue.issue_type].
  rewrite bool_decide_eq_false_2 by discriminate. apply app_nil_r.
Qed.

Lemma line_contrast_types (self : Analyzer) (line : text_line) :
  List.filter is_font_size_issue (line_contrast self page_num line).2 = [].
Proof.
  unfold line_contrast, analyze_text_line_contrast.
  destruct (strip line.2) as [|c0 stripped]; [reflexivity|].
  destruct line.1 as [|first rest]; [reflexivity|].
  destruct (length _ <? 3); [reflexivity|].
  apply fold_contrast_types.
Qed.

Lemma glyph_checks_font_size (char : glyph) (line_text : str) :
  List.filter is_font_size_issue (glyph_checks lower page_num char line_text)
  = let normalized_text := remove_duplicate_chars (strip line_text) in
    if (3 <=? length normalized_text) && Qlt_bool (Glyph.size char) 12
    then [undersized_issue page_num char normalized_text]
    else [].
Proof.
  unfold glyph_checks. cbv zeta.
  rewrite Nat.leb_antisym. destruct (length _ <? 3); [reflexivity|].
  cbn [negb andb]. rewrite List.filter_app, font_size_issues_by_size.
  assert (Hread : List.filter is_font_size_issue
                    (readability_issues lower page_num char
                       (remove_duplicate_chars (strip line_text))) = []).
  { unfold readability_issues.
    destruct (check_font_readability _ _) as [[] info]; [reflexivity|].
    cbn [List.filter]. unfold is_font_size_issue. cbn [Issue.issue_type].
    rewrite bool_decide_eq_false_2 by discriminate. reflexivity. }
  rewrite Hread, app_nil_r.
  destruct (Qlt_bool _ _); [|reflexivity].
  cbn [List.filter]. unfold is_font_size_issue, undersized_issue.
  cbn [Issue.issue_type]. rewrite bool_decide_eq_true_2 by reflexivity. reflexivity.
Qed.

Lemma analyze_char_font_sizes (done todo : list glyph) (char : glyph)
    (st : PageScan) :
  chars pg = done ++ char :: todo ->
  cache_after pg done (scan_self st) ->
  let st' := analyze_char lower page_num pg st char in
  cache_after pg (done ++ [char]) (scan_self st') /\
  List.filter is_font_size_issue (page_issues st')
  = List.filter is_font_size_issue (page_issues st)
    ++ font_size_issues_of page_num pg char.
Proof.
  intros Hpage Hcache. cbv zeta. rewrite analyze_char_steps.
  unfold font_size_issues_of, printed.
  destruct (isspace _ || _) eqn:Hskip.
  { cbn [negb andb]. rewrite app_nil_r. split; [|reflexivity].
    intros key. rewrite find_app_split, Hcache. cbn [List.find].
    assert (Hoff : on_key key char = false)
      by (unfold on_key, printed; rewrite Hskip; reflexivity).
    rewrite Hoff. destruct (List.find _ done); reflexivity. }
  cbn [negb andb]. cbv zeta.
  assert (Hline : (get_text_line (scan_self st) pg (Glyph.y0 char)
                     default_tolerance).2.2 = line_text_of pg char /\
                  cache_after pg (done ++ [char])
                    (get_text_line (scan_self st) pg (Glyph.y0 char)
                       default_tolerance).1).
  { assert (Hself : on_key (round2 (Glyph.y0 char)) char = true).
    { unfold on_key, printed. rewrite Hskip.
      rewrite bool_decide_eq_true_2 by reflexivity. reflexivity. }
    unfold line_text_of. rewrite Hpage, find_app_split. cbn [List.find].
    rewrite Hself.
    pose proof (Hcache (round2 (Glyph.y0 char))) as Hkey.
    destruct (List.find (on_key (round2 (Glyph.y0 char))) done) as [first|] eqn:Hfind.
    - cbn [fmap option_fmap option_map] in Hkey.
      rewrite (get_text_line_hit _ _ _ _ _ Hkey). cbn [fst snd].
      split; [reflexivity|].
      intros key. rewrite find_app_split, Hcache.
      destruct (List.find (on_key key) done) as [g|] eqn:Hg; [reflexivity|].
      cbn [List.find]. destruct (on_key key char) eqn:Hon; [|reflexivity].
      unfold on_key in Hon. apply andb_true_iff in Hon as [_ Hon].
      apply bool_decide_eq_true in Hon. subst key. congruence.
    - cbn [fmap option_fmap option_map] in Hkey.
      rewrite (get_text_line_miss_eq _ _ _ _ Hkey). cbn [fst snd].
      split; [reflexivity|].
      intros key. cbn [line_cache]. rewrite find_app_split.
      destruct (decide (key = round2 (Glyph.y0 char))) as [->|Hne].
      + rewrite lookup_insert_eq, Hfind. cbn [List.find]. rewrite Hself. reflexivity.
      + rewrite lookup_insert_ne by congruence. rewrite Hcache.
        destruct (List.find (on_key key) done) as [g|]; [reflexivity|].
        cbn [List.find].
        assert (Hoff : on_key key char = false).
        { unfold on_key. rewrite (bool_decide_eq_false_2 _) by congruence.
          apply andb_false_r. }
        rewrite Hoff. reflexivity. }
  destruct Hline as [Htext Hcache'].
  destruct (bool_decide (round2 (Glyph.y0 char) ∈ processed_lines st));
    cbn [scan_self page_issues].
  - split; [exact Hcache'|].
    rewrite List.filter_app, glyph_checks_font_size, Htext. reflexivity.
  - split.
    + intros key. rewrite (proj1 (line_contrast_fields _ page_num _)).
      apply Hcache'.
    + rewrite !List.filter_app, line_contrast_types, app_nil_r.
      rewrite glyph_checks_font_size, Htext. reflexivity.
Qed.

Lemma fold_analyze_char_font_sizes (todo done : list glyph) (st : PageScan) :
  chars pg = done ++ todo ->
  cache_after pg done (scan_self st) ->
  List.filter is_font_size_issue
    (page_issues (fold_left (analyze_char lower page_num pg) todo st))
  = List.filter is_font_size_issue (page_issues st)
    ++ flat_map (font_size_issues_of page_num pg) todo.
Proof.
  revert done st. induction todo as [|char todo IH]; intros done st Hpage Hcache.
  - cbn [fold_left flat_map]. rewrite app_nil_r. reflexivity.
  - cbn [fold_left flat_map].
    destruct (analyze_char_font_sizes done todo char st Hpage Hcache)
      as [Hcache' Hfound].
    rewrite (IH (done ++ [char])); [|rewrite <- app_assoc; exact Hpage | exact Hcache'].
    rewrite Hfound, <- app_assoc. reflexivity.
Qed.

(** X15. On a page read with empty caches, the font-size issues that
    [analyze_page] returns are, in the order of the characters, one issue
    for each character that is not blank, whose line (the cached line of
    its height) has a deduplicated text of at least three characters, and
    whose size is below 12pt; the issue is medium from 10pt on and high
    below. The font name plays no part. *)
Theorem page_font_size_issues (self : Analyzer) :
  line_cache self = ∅ ->
  List.filter is_font_size_issue (analyze_page lower self page_num pg).2
  = flat_map (font_size_issues_of page_num pg) (chars pg).
Proof.
  intros Hclear. unfold analyze_page. cbn [snd].
  rewrite (fold_analyze_char_font_sizes (chars pg) [] (mkPageScan self ∅ []));
    [reflexivity | reflexivity |].
  intros key. cbn [scan_self List.find]. rewrite Hclear. apply lookup_empty.
Qed.

End PageFontSizes.

Lemma page_font_size_issues_witness :
  List.filter is_font_size_issue
    (analyze_page ascii_lower new_analyzer 1 hello_page).2
  = flat_map (font_size_issues_of 1 hello_page) (chars hello_page).
Proof.
  apply (page_font_size_issues ascii_lower 1 hello_page new_analyzer).
  reflexivity.
Defined.
